(* ===== verification/_CoqProject ===== *)
-Q . S2P
Prelude.v
JsString.v
Selection.v
CreatePoint.v
View.v
Submission.v
EmailInput.v
Screen.v
Render.v
Cascade.v
Catalog.v
Validation.v
FetchFailure.v
DoubleSubmit.v
Quiescence.v
Position.v
WellKeyed.v
History.v
