(* ===== verification/Prelude.v ===== *)
(** * A verification development of waste-collection-web (Ecoleta front end)

    THE PROGRAM.  Two React pages.  [Home] (src/src/pages/Home/index.tsx) is
    static and links to [/create-point].  [CreatePoint]
    (src/src/pages/CreatePoint/index.tsx) is a registration form.  It keeps
    ten pieces of state (lines 33-51).  On mount it fetches the device
    position, the backend's item list and the IBGE state list (lines 55-73).
    Each time the selected state changes it fetches that state's cities,
    unless the placeholder ['0'] is selected (lines 75-83).  Its handlers
    update the state: the state and city selects, a map click, the item
    toggle, the text inputs and the dropped file (lines 85-116, 163).
    [handleSubmit] posts a [FormData]; after the post succeeds it shows an
    alert and navigates to [/] (lines 118-147).

    LAYOUT (files in dependency order).
    - Prelude.v: this header; the scope [ecoleta_scope] and its notation
      [l1 ≡ₛ l2] (same members); the [Equivalence] and [Proper] instances
      for it; the [invc] and [elem_simpl] tactics; the hint databases
      [ecoleta] and [ecoleta_rw]; generic list lemmas; [rtc_invariant],
      the induction principle every reachability invariant uses.
    - JsString.v, Module [JsString]: [String(n)] on integers
      ([String_of_int], through the Standard Library's decimal numerals),
      [Array.prototype.join] ([join]), and the [items] field
      ([items_field], line 136).  Also the backend's decoder
      ([split_comma], [decode_items]), which is modelled from the spec.
    - Selection.v, Module [Selection]: [findIndex], [includes], the array
      [toggleItem] that [handleSelectItem] computes (lines 102-111), and the
      item class (line 241).
    - CreatePoint.v, Module [CreatePoint]: the data types (lines 17-29), the
      state record [State] with one setter per [useState], the effect
      callbacks ([onGeolocation], [onItems], [onUfs], [onCities]), the
      effect guard [ufEffect], every handler, and what the form renders
      ([ufOptions], [cityOptions], [displayedCity], [itemIds]).
    - View.v, Module [View]: the element trees JSX denotes ([Node], a rose
      tree with React keys, attributes and handler props) and React's key
      rule [keysDistinct].
    - Submission.v, Module [Submission]: [FormData] as an ordered entry
      list, [buildFormData] (lines 121-140), and the record [PointRecord]
      the backend reads back ([decodePoint], modelled from the spec).
    - EmailInput.v, Module [EmailInput]: what the browser does with the
      [type="email"] input of line 178: the HTML "valid e-mail address"
      grammar ([valid_email_address]), the value sanitization
      ([sanitize_email]; [strip_newlines] for the text inputs) behind
      [event.target.value] ([inputValue]), and
      the constraint that blocks the form's [submit] event ([formValid]).
    - Screen.v, Module [Screen]: the running application [App]: history
      stack, mounted page, requests in flight tagged with the mount that
      issued them, alerts.  [step] applies one event.  An event is a user
      action that the rendered page offers (a select fires its change
      event only for an option other than the one it shows), or the
      settlement of one request in flight, in any order the network
      chooses.  [Services] is
      the contract of the backend and of IBGE (spec, section 6).  [sstep]
      is the step relation restricted to the services' answers, and
      [reachable] is its reflexive-transitive closure from [initialApp].
      [runChecked] is the executable version, used by the witnesses.
      [goBack] is the browser's Back button: the router renders the route
      below the top of the history, as a push of it would; it is a third
      kind of transition of [sstep] and of [Cascade.fstep], so every
      reachable-state theorem covers it.  [Submit] is offered only while
      [formValid] holds.  The file also holds the interleaving theorems
      and the city field.
    - Cascade.v, Module [Cascade]: [fstep], the same step relation on a
      network that answers city requests in issue order and never fails
      them; [runInOrder], its executable version; the invariant
      [cascadeInv] and its preservation lemmas.
    - Catalog.v, Module [Catalog]: the invariant [catalogInv] (at most one
      item request of the current mount in flight, and the item list is
      empty while it is) and its preservation by every transition.
    - Validation.v, Module [Validation]: where the requests in flight come
      from ([step_pending]), the invariant [postsValid] on posts in
      flight, and the sanitized-email invariant.
    - FetchFailure.v, Module [FetchFailure]: the section [Frozen] (a
      property of the form that only one class of callbacks can break holds
      for the rest of the mount once no such request is in flight), and
      its instances for the item list and the state list; the recovery
      by remounting.
    - Render.v, Module [Render]: the JSX of both pages as trees
      ([renderHome], Home lines 8-31; [renderCreatePoint], lines 149-254,
      built from [ufSelect], [citySelect], [itemsGrid], [itemTile], ...),
      and [viewOf] for the routed page.
    - DoubleSubmit.v, Module [DoubleSubmit]: two presses of the submit
      button before the backend answers.
    - Quiescence.v, Module [Quiescence]: the settlement relation
      [settles], its measure (the requests in flight), and runs made only
      of answers ([answerEvents]).
    - Position.v, Module [Position]: the two positions of the form
      ([initialPosition], written by the geolocation callback, and
      [selectedPosition], written only by [handleMapClick]); the invariant
      [atOrigin] over runs of events without a map click.
    - WellKeyed.v, Module [WellKeyed]: React's key rule over every
      reachable state: the services' lists without duplicates
      ([servicesDistinct]) and the form's keyed lists ([listsDistinct]),
      preserved by every handler and every answered callback.
    - History.v, Module [History]: the browser's history and the form's
      lifecycle: the form is shown only on its route ([onFormRoute]), and
      Back after a successful submission reopens a fresh form.

    HOW THE MODEL CORRESPONDS TO THE CODE.  React's [useState] setters are
    functions [State → State].  An effect is the list of requests it
    issues.  A [.then] callback is [settleState], applied only if the mount
    that issued the request is still the mounted page (a setter of an
    unmounted component does nothing).  The continuation of the [async]
    [handleSubmit] runs whether or not the form is still mounted; a
    rejected [await] skips it.  A JavaScript object used as a map
    ([formData]) is a [gmap string string].  Arrays are lists.  Item ids
    are [Z].  Coordinates are [Q] (a superset of IEEE doubles; the code
    only stores and prints them).  [String(number)] on a coordinate is a
    section variable [String_of_number]: every theorem holds for every
    formatting function.

    THEOREMS (claim ids as in the manifest).
    - The toggle: membership after a click (C1); the exact array after two
      clicks on the same item, which restores the set but moves a
      selected id to the end (C2); no duplicates (C17).
    - The state/city cascade: the placeholder issues no fetch (C3); a new
      state issues exactly its fetch (C4); an answer replaces the city list
      (C5).  Under in-order, failure-free delivery of city answers the list
      is the selected state's cities once nothing is in flight (C6, a
      refinement proved by rule induction with [cascadeInv]).  Under
      arbitrary delivery it can be stale (C7).
    - The submission: the backend reads back exactly the form's state (C8,
      refinement); the [items] field round trip (C9) and injectivity
      (C20).
    - Error paths and interleavings: a rejected post shows nothing and does
      not navigate (C10); a successful one alerts and goes home (C11).  The
      earlier form's post, when it succeeds, replaces a newer form by the
      landing page (C12).  The form can send city ['0'] while showing the
      first city (C13), and can pair a new state with a city of the
      previous state (C21).
    - Map clicks (C14).  The position: unless the user clicks the map,
      every post over every run carries [String(0)] for both coordinates,
      although the device's position arrived (C18).
    - Reachable-state invariants: the selection has no duplicates (C15);
      [formData] keeps exactly its three keys (C16); every selected id was
      listed by the backend (C22); every post in flight carries an e-mail
      the browser's constraint accepts (C23); the stored e-mail is always
      sanitized (C24).
    - The lifecycle: after a successful post, Back reopens an empty form
      under a new mount, so nothing entered survives (C19, spec section
      3).
    - Failures: a failed item fetch leaves the grid empty and the [items]
      field empty for the rest of the mount (C25); a failed state-list
      fetch leaves only the placeholder state and makes every post send
      ['0'] as state and city (C26).  From every reachable state the user
      can reopen the form, which then loads both lists (C28, a liveness
      property: the path is constructed).  Two presses of submit post
      twice and alert twice (C27).
    - Termination and bounds of the event loop: settlements are
      well-founded (C30); a run of answers removes exactly one request per
      answer (C31); the requests in flight can always be drained (C32).
    - Rendering: the form satisfies React's key rule exactly when its lists
      have no duplicates (C33), so every reachable page is well keyed when
      the services answer lists without duplicates (C29, an invariant of
      the whole application proved through [page_invariant], whose
      callbacks see only the services' answers).
    - Lemmas that check the model rather than the program, kept as
      lemmas: [findIndex] agrees with stdpp's [list_find]
      ([findIndex_list_find]); the executable e-mail check decides the
      HTML grammar ([valid_email_address_spec]).

    BOUNDS AND FUEL.  No definition needs fuel: every function is
    structural, and the event loop is a relation, not a loop.
    [String_of_int] is exact for every integer.  JavaScript's
    [Number::toString] agrees with it below 10^21, which covers every
    backend id.  Termination of the event loop is not assumed: C30 proves
    that settlements cannot go on forever, with the number of requests in
    flight as measure.

    NOT MODELLED.  CSS and the image assets (no behaviour).  [Dropzone], [react-leaflet]'s
    map and the geolocation API: only their callbacks are modelled.
    [services/api.ts] (the axios base URL): the backend paths stay
    relative.  The route table is not under src/, so it is modelled from
    the spec.  The browser's Forward button: it needs the browser's
    forward stack, which no code of the repository reads; Back is
    modelled.  Punycode conversion of internationalized domains, which
    the HTML standard leaves to the user agent's display, is not modelled:
    the value is checked as the bytes the input reports.

    The designs the spec proposes (section 9: tagging city requests,
    result types for the fetches) are not in the code, and are not
    modelled.  A select's change event with the option it already shows
    is not fired by the browser; the model refuses it for the city select
    and, for the state select, accepts it as a step that changes
    nothing. *)

From stdpp Require Export base list strings gmap.
From Stdlib Require Export ZArith QArith.
(* [QArith_base] opens [Q_scope] on import; numerals stay [nat] here. *)
Close Scope Q_scope.

(** ** The development's scope *)

Declare Scope ecoleta_scope.
Delimit Scope ecoleta_scope with ecoleta.

(** ** Lists read as sets

    The screen keeps its selection in a JavaScript array but only ever asks
    whether an id is in it ([includes], [findIndex]).  Two arrays are
    interchangeable for the screen when they have the same members. *)

Definition same_elems {A} (l1 l2 : list A) : Prop := ∀ x, x ∈ l1 ↔ x ∈ l2.

Notation "l1 ≡ₛ l2" := (same_elems l1 l2) (at level 70, no associativity)
  : ecoleta_scope.
Open Scope ecoleta_scope.

#[export] Instance same_elems_equiv {A} : Equivalence (@same_elems A).
Proof.
  unfold same_elems. split.
  - intros l x. done.
  - intros l1 l2 H x. by rewrite H.
  - intros l1 l2 l3 H1 H2 x. by rewrite H1, H2.
Qed.

#[export] Instance elem_of_same_elems_proper {A} (x : A) :
  Proper (same_elems ==> iff) (elem_of x).
Proof. intros l1 l2 H. apply H. Qed.

(** ** Tactics *)

Ltac invc H := inversion H; subst; clear H.

(** [elem_simpl] rewrites membership in the list operations the screen uses
    into propositional connectives. *)
Ltac elem_simpl :=
  repeat first
    [ rewrite list_elem_of_filter
    | rewrite elem_of_app
    | rewrite list_elem_of_singleton
    | rewrite elem_of_cons
    | rewrite elem_of_nil ].

Create HintDb ecoleta discriminated.
Create Rewrite HintDb ecoleta_rw.

(** ** Generic list lemmas *)

Lemma filter_neq_elem {A} `{EqDecision A} (l : list A) (a x : A) :
  x ∈ filter (λ y, y ≠ a) l ↔ x ∈ l ∧ x ≠ a.
Proof. rewrite list_elem_of_filter. tauto. Qed.

Lemma filter_neq_not_in {A} `{EqDecision A} (l : list A) (a : A) :
  a ∉ l → filter (λ y, y ≠ a) l = l.
Proof.
  induction l as [|b l IH]; intros Hn; [done|].
  apply not_elem_of_cons in Hn as [Hba Hn].
  rewrite filter_cons, decide_True by done. f_equal. by apply IH.
Qed.

Lemma NoDup_snoc {A} (l : list A) (a : A) :
  NoDup l → a ∉ l → NoDup (l ++ [a]).
Proof.
  intros Hl Ha. apply NoDup_app. split; [done|]. split.
  - intros x Hx ->%list_elem_of_singleton. done.
  - apply NoDup_singleton.
Qed.

#[export] Hint Resolve NoDup_snoc NoDup_filter : ecoleta.
(** A map through an injective function keeps a list duplicate-free. *)
#[export] Hint Extern 10 (NoDup (fmap _ _)) => apply NoDup_fmap_2; [apply _|] : ecoleta.
#[export] Hint Rewrite @filter_neq_elem : ecoleta_rw.

(** ** Invariants of a transition relation *)

Section Invariants.
Context {A : Type} (R : relation A) (P : A → Prop).

(** A property that holds initially and that every transition preserves
    holds in every state reachable from the initial one. *)
Lemma rtc_invariant x y :
  P x → (∀ a b, R a b → P a → P b) → rtc R x y → P y.
Proof. intros Hx Hpres Hr. induction Hr; eauto. Qed.

End Invariants.
