(* ===== verification/JsString.v ===== *)
(** * JavaScript string conversions used by the submission

    [handleSubmit] (src/src/pages/CreatePoint/index.tsx, line 136) sends the
    selected ids as [items.join(',')].  [Array.prototype.join] converts each
    element with [String(x)], which for an integer [number] is its decimal
    numeral with a leading [-] when negative (ECMA-262 Number::toString, for
    |x| < 10^21; the backend's ids are small positive integers).  This file
    models [String] on integers and [join], gives the decoder the backend
    contract implies (spec, section 6: "items (comma-joined ids)"), and proves
    the encoding decodes back to the ids. *)

From S2P Require Import Prelude.
From Stdlib Require Import Ascii DecimalString DecimalZ DecimalPos.
Set Warnings "-clear-no-such-hyp".
Close Scope Q_scope.

Module JsString.

(** ** Encoding *)

(** [String(n)] for an integer [n]. *)
Definition String_of_int (z : Z) : string :=
  NilZero.string_of_int (Z.to_int z).

(** [Array.prototype.join(sep)] on an array already converted to strings:
    the elements separated by [sep], and [""] for the empty array. *)
Fixpoint join (sep : string) (l : list string) : string :=
  match l with
  | [] => ""
  | [x] => x
  | x :: l' => x +:+ sep +:+ join sep l'
  end.

(** The [items] field of the submission: [items.join(',')]. *)
Definition items_field (items : list Z) : string :=
  join "," (map String_of_int items).

(** ** Decoding (the backend's side of the contract) *)

(** [String.prototype.split(',')]: the pieces between commas; [""] gives
    [[""]]. *)
Fixpoint split_comma (s : string) : list string :=
  match s with
  | EmptyString => [""]
  | String c s' =>
      let parts := split_comma s' in
      if Ascii.eqb c ","%char then "" :: parts
      else match parts with
           | p :: ps => String c p :: ps
           | [] => [String c ""]
           end
  end.

Fixpoint parse_ints (ps : list string) : option (list Z) :=
  match ps with
  | [] => Some []
  | p :: ps' =>
      match NilZero.int_of_string p, parse_ints ps' with
      | Some d, Some zs => Some (Z.of_int d :: zs)
      | _, _ => None
      end
  end.

Definition decode_items (s : string) : option (list Z) :=
  parse_ints (split_comma s).

(** ** Lemmas *)

Fixpoint comma_free (s : string) : bool :=
  match s with
  | EmptyString => true
  | String c s' => negb (Ascii.eqb c ","%char) && comma_free s'
  end.

Lemma comma_free_uint d : comma_free (NilEmpty.string_of_uint d) = true.
Proof. induction d; simpl; auto. Qed.

Lemma comma_free_String_of_int z : comma_free (String_of_int z) = true.
Proof.
  unfold String_of_int, NilZero.string_of_int, NilZero.string_of_uint.
  destruct (Z.to_int z) as [d|d]; destruct d; simpl; auto using comma_free_uint.
Qed.

Lemma split_comma_free s : comma_free s = true → split_comma s = [s].
Proof.
  induction s as [|c s IH]; simpl; [done|].
  intros [Hc Hs]%andb_prop. apply negb_true_iff in Hc.
  by rewrite Hc, IH.
Qed.

Lemma split_comma_app s rest :
  comma_free s = true → split_comma (s +:+ "," +:+ rest) = s :: split_comma rest.
Proof.
  induction s as [|c s IH]; simpl; [done|].
  intros [Hc Hs]%andb_prop. apply negb_true_iff in Hc.
  by rewrite Hc, IH.
Qed.

Lemma split_comma_join ps :
  ps ≠ [] → Forall (λ p, comma_free p = true) ps → split_comma (join "," ps) = ps.
Proof.
  induction ps as [|p ps IH]; intros Hne Hf; [done|].
  apply Forall_cons in Hf as [Hp Hf].
  destruct ps as [|q ps].
  - by apply split_comma_free.
  - change (join "," (p :: q :: ps)) with (p +:+ "," +:+ join "," (q :: ps)).
    rewrite split_comma_app by done. f_equal. by apply IH.
Qed.

Lemma int_of_String_of_int z :
  option_map Z.of_int (NilZero.int_of_string (String_of_int z)) = Some z.
Proof.
  unfold String_of_int. rewrite NilZero.isi; [simpl; by rewrite DecimalZ.of_to| |];
    destruct z; simpl; try discriminate;
    intros [=]; by eapply DecimalPos.Unsigned.to_uint_nonnil.
Qed.

(** [String(n)] is injective on integers: distinct ids give distinct
    strings, so they can serve as distinct React keys. *)
#[export] Instance String_of_int_inj : Inj eq eq String_of_int.
Proof.
  intros x y H. pose proof (int_of_String_of_int x) as Hx.
  rewrite H, int_of_String_of_int in Hx. by injection Hx.
Qed.

Lemma parse_ints_map zs : parse_ints (map String_of_int zs) = Some zs.
Proof.
  induction zs as [|z zs IH]; simpl; [done|]. rewrite IH.
  pose proof (int_of_String_of_int z) as Hz.
  destruct (NilZero.int_of_string (String_of_int z)); simpl in Hz; [|done].
  by injection Hz as ->.
Qed.

(** ** Properties *)

Lemma decode_items_field items :
  items ≠ [] → decode_items (items_field items) = Some items.
Proof.
  intros Hne. unfold decode_items, items_field.
  rewrite split_comma_join.
  - apply parse_ints_map.
  - by destruct items.
  - apply Forall_forall. intros p (z & <- & _)%list_elem_of_In%in_map_iff.
    apply comma_free_String_of_int.
Qed.

(** C9: the [items] field decodes back to the selected ids, in order,
    whenever at least one item is selected. *)
Theorem items_field_roundtrip items :
  items ≠ [] → decode_items (items_field items) = Some items.
Proof. apply decode_items_field. Qed.

(** The empty selection is sent as the empty string, which is not a list of
    ids. *)
Lemma items_field_nil : items_field [] = "" ∧ decode_items "" = None.
Proof. split; reflexivity. Qed.

(** C20: two different selections are always sent as different [items]
    fields (the encoding loses nothing but the array's identity). *)
Theorem items_field_inj l1 l2 : items_field l1 = items_field l2 → l1 = l2.
Proof.
  intros Heq.
  destruct l1 as [|z1 l1]; destruct l2 as [|z2 l2]; [done| | |].
  - assert (Hd : decode_items (items_field []) = Some (z2 :: l2))
      by (rewrite Heq; by apply decode_items_field).
    discriminate Hd.
  - assert (Hd : decode_items (items_field []) = Some (z1 :: l1))
      by (rewrite <- Heq; by apply decode_items_field).
    discriminate Hd.
  - assert (Hd : Some (z1 :: l1) = Some (z2 :: l2)).
    { rewrite <- (decode_items_field (z1 :: l1)), Heq by done.
      by apply decode_items_field. }
    injection Hd as -> ->. done.
Qed.

(** Spec, section 8: submitting ids [{2, 5}] gives the field ["2,5"]. *)
Example items_field_2_5 : items_field [2; 5]%Z = "2,5".
Proof. reflexivity. Qed.

Lemma items_field_roundtrip_witness :
  [2; 5]%Z ≠ [] ∧ decode_items (items_field [2; 5]%Z) = Some [2; 5]%Z.
Proof.
  assert (H : [2; 5]%Z ≠ []) by discriminate.
  split; [exact H | exact (items_field_roundtrip _ H)].
Defined.

Lemma items_field_inj_witness :
  items_field [2; 5]%Z = items_field [2; 5]%Z ∧ [2; 5]%Z = [2; 5]%Z.
Proof.
  assert (H : items_field [2; 5]%Z = items_field [2; 5]%Z) by reflexivity.
  split; [exact H | exact (items_field_inj _ _ H)].
Defined.

End JsString.
