(* ===== verification/Selection.v ===== *)
(** * The selected-item set of the [CreatePoint] screen

    [selectedItems : number[]] (src/src/pages/CreatePoint/index.tsx, line 44)
    holds the ids of the recyclable-material categories the operator ticks.
    [handleSelectItem] (lines 102-111) sets it to [toggleItem] of it: the
    array without the id if the id was there, the array with the id
    appended otherwise.  The item grid
    (lines 236-247) marks an item [selected] when [includes] finds its id.

    Ids are the backend's integer keys: [number] values that are integers,
    modelled as [Z]; [===] and [includes] on them are equality on [Z].

    The file proves what the handler does to the array: membership after
    one click, the exact array after two clicks on the same item (the id
    moves to the end), and that no duplicate is ever introduced. *)

From S2P Require Import Prelude.
Set Warnings "-clear-no-such-hyp".
Close Scope Q_scope.

Module Selection.

(** ** The array primitives the handler uses *)

(** [Array.prototype.findIndex]: the index of the first element satisfying
    the predicate, or [-1]. *)
Fixpoint findIndex {A} (p : A → bool) (l : list A) : Z :=
  match l with
  | [] => (-1)%Z
  | x :: l' => if p x then 0%Z
               else let i := findIndex p l' in
                    if (i <? 0)%Z then (-1)%Z else (i + 1)%Z
  end.

(** [Array.prototype.includes] on integer numbers. *)
Definition includes (l : list Z) (x : Z) : bool := bool_decide (x ∈ l).

(** ** The array [handleSelectItem] computes (lines 103-110) *)

Definition toggleItem (selectedItems : list Z) (id : Z) : list Z :=
  let alreadySelected := findIndex (λ item, bool_decide (item = id)) selectedItems in
  if (alreadySelected >=? 0)%Z
  then filter (λ item, item ≠ id) selectedItems
  else selectedItems ++ [id].

(** The class name the item grid gives an item (line 241). *)
Definition item_className (selectedItems : list Z) (id : Z) : string :=
  if includes selectedItems id then "selected" else "".

(** ** Lemmas on the primitives *)

Lemma findIndex_neg_or_nonneg {A} (p : A → bool) l :
  (findIndex p l = -1 ∨ 0 ≤ findIndex p l)%Z.
Proof.
  induction l as [|x l IH]; simpl; [lia|].
  destruct (p x); [lia|]. destruct (Z.ltb_spec (findIndex p l) 0); lia.
Qed.

Lemma findIndex_nonneg_iff {A} (p : A → bool) l :
  (0 ≤ findIndex p l)%Z ↔ ∃ x, x ∈ l ∧ p x = true.
Proof.
  induction l as [|y l IH]; simpl.
  - split; [lia|]. intros (x & Hx%elem_of_nil & _). done.
  - destruct (p y) eqn:Hy.
    + split; [intros _; exists y; split; [by left|done] | lia].
    + destruct (Z.ltb_spec (findIndex p l) 0) as [Hlt|Hge].
      * split; [lia|]. intros (x & [->|Hx]%elem_of_cons & Hpx); [congruence|].
        assert (0 ≤ findIndex p l)%Z by (apply IH; eauto). lia.
      * split; [intros _|lia].
        destruct (proj1 IH Hge) as (x & Hx & Hpx). exists x. split; [|done].
        by apply elem_of_cons; right.
Qed.

Lemma findIndex_eq_nonneg (l : list Z) (id : Z) :
  (findIndex (λ item, bool_decide (item = id)) l >=? 0)%Z = bool_decide (id ∈ l).
Proof.
  rewrite Z.geb_leb. destruct (Z.leb_spec 0 (findIndex (λ item, bool_decide (item = id)) l)) as [H|H].
  - apply findIndex_nonneg_iff in H as (x & Hx & ->%bool_decide_eq_true_1).
    by rewrite bool_decide_eq_true_2.
  - rewrite bool_decide_eq_false_2; [done|]. intros Hid.
    assert (0 ≤ findIndex (λ item, bool_decide (item = id)) l)%Z; [|lia].
    apply findIndex_nonneg_iff. exists id. by rewrite bool_decide_eq_true_2.
Qed.

(** The model of [Array.prototype.findIndex] agrees with stdpp's
    reference search [list_find]: the index of the first element
    satisfying the predicate, or [-1] when there is none. *)
Lemma findIndex_list_find {A} (p : A → bool) l :
  findIndex p l =
  match list_find (λ x, p x = true) l with Some (i, _) => Z.of_nat i | None => (-1)%Z end.
Proof.
  induction l as [|x l IH]; [done|]. simpl.
  destruct (p x) eqn:Hx; [by rewrite decide_True|rewrite decide_False by congruence].
  rewrite IH. destruct (list_find _ l) as [[i y]|]; simpl; [|done].
  rewrite (proj2 (Z.ltb_ge _ _)) by lia. lia.
Qed.

Lemma findIndex_range {A} (p : A → bool) l :
  (-1 ≤ findIndex p l < Z.of_nat (length l))%Z.
Proof.
  induction l as [|x l IH]; simpl; [lia|].
  destruct (p x); [lia|]. destruct (Z.ltb_spec (findIndex p l) 0); lia.
Qed.

(** Bounds of [findIndex]: its result is [-1] or a valid index of
    the array, so the code's test [alreadySelected >= 0] (line 105) is
    exactly the test that some element matched. *)
Theorem findIndex_bounds {A} (p : A → bool) l :
  (-1 ≤ findIndex p l < Z.of_nat (length l))%Z ∧
  ((0 ≤ findIndex p l)%Z ↔ ∃ x, x ∈ l ∧ p x = true).
Proof. split; [apply findIndex_range|apply findIndex_nonneg_iff]. Qed.

(** The handler's two branches, stated on membership. *)
Lemma toggleItem_present l id :
  id ∈ l → toggleItem l id = filter (λ item, item ≠ id) l.
Proof.
  intros H. unfold toggleItem.
  by rewrite findIndex_eq_nonneg, bool_decide_eq_true_2.
Qed.

Lemma toggleItem_absent l id :
  id ∉ l → toggleItem l id = l ++ [id].
Proof.
  intros H. unfold toggleItem.
  by rewrite findIndex_eq_nonneg, bool_decide_eq_false_2.
Qed.

(** ** Properties of the toggle *)

(** C1: after [toggleItem l id], an id is selected exactly when it
    was selected before and is not [id], or it is [id] and [id] was not
    selected before. *)
Theorem toggleItem_elem l id x :
  x ∈ toggleItem l id ↔ (x ∈ l ∧ x ≠ id) ∨ (x = id ∧ id ∉ l).
Proof.
  destruct (decide (id ∈ l)) as [H|H].
  - rewrite toggleItem_present, filter_neq_elem by done. naive_solver.
  - rewrite toggleItem_absent by done. elem_simpl. naive_solver.
Qed.

Lemma elem_toggleItem l id x :
  x ∈ toggleItem l id ↔ (x ∈ l ∧ x ≠ id) ∨ (x = id ∧ id ∉ l).
Proof.
  destruct (decide (id ∈ l)) as [H|H].
  - rewrite toggleItem_present, filter_neq_elem by done. naive_solver.
  - rewrite toggleItem_absent by done. elem_simpl. naive_solver.
Qed.


Lemma NoDup_toggleItem l id :
  NoDup l → NoDup (toggleItem l id).
Proof.
  intros Hl. destruct (decide (id ∈ l)) as [H|H].
  - rewrite toggleItem_present by done. eauto with ecoleta.
  - rewrite toggleItem_absent by done. eauto with ecoleta.
Qed.

(** C17: the toggle keeps the selection free of duplicates. *)
Theorem toggleItem_NoDup l id :
  NoDup l → NoDup (toggleItem l id).
Proof. apply NoDup_toggleItem. Qed.

(** C2: two clicks on the same item (spec, section 8, first property).
    They give back the same set of selected ids, and the array is exactly
    determined: an id that was not selected is appended and removed
    again, so the array is restored, order included; an id that was
    selected is removed and appended again, so it moves to the end and
    the [items] field lists it last (lines 105-109). *)
Theorem toggleItem_twice l id :
  toggleItem (toggleItem l id) id ≡ₛ l ∧
  toggleItem (toggleItem l id) id =
    if decide (id ∈ l) then filter (λ x, x ≠ id) l ++ [id] else l.
Proof.
  split.
  - intros x. rewrite !elem_toggleItem.
    destruct (decide (x = id)); destruct (decide (id ∈ l)); naive_solver.
  - destruct (decide (id ∈ l)) as [H|H].
    + rewrite (toggleItem_present l id H), toggleItem_absent; [done|].
      rewrite filter_neq_elem. naive_solver.
    + rewrite (toggleItem_absent l id H), toggleItem_present by (elem_simpl; auto).
      rewrite filter_app, filter_neq_not_in by done.
      rewrite filter_cons, decide_False by naive_solver. apply app_nil_r.
Qed.

#[export] Hint Rewrite elem_toggleItem : ecoleta_rw.

(** The handler respects the set reading of arrays: two arrays with the
    same members stay interchangeable after a toggle. *)
#[export] Instance toggleItem_proper :
  Proper (same_elems ==> eq ==> same_elems) toggleItem.
Proof.
  intros l1 l2 H id ? <- x. by rewrite !elem_toggleItem, H.
Qed.

#[export] Instance includes_proper :
  Proper (same_elems ==> eq ==> eq) includes.
Proof.
  intros l1 l2 H x ? <-. unfold includes. apply bool_decide_ext. by rewrite H.
Qed.

(** The item grid shows an item as selected after a click exactly when
    it was not shown as selected before. *)
Theorem item_className_toggle l id :
  item_className (toggleItem l id) id =
  if includes l id then "" else "selected".
Proof.
  unfold item_className, includes.
  destruct (decide (id ∈ l)) as [H|H].
  - rewrite (bool_decide_eq_true_2 (id ∈ l)), bool_decide_eq_false_2 by
      (by autorewrite with ecoleta_rw; naive_solver). done.
  - rewrite (bool_decide_eq_false_2 (id ∈ l)), bool_decide_eq_true_2 by
      (by autorewrite with ecoleta_rw; naive_solver). done.
Qed.

(** Witnesses. *)

Lemma toggleItem_NoDup_witness :
  NoDup [2; 5]%Z ∧ NoDup (toggleItem [2; 5]%Z 2%Z).
Proof.
  assert (H : NoDup [2; 5]%Z) by (repeat constructor; set_solver).
  split; [exact H | exact (toggleItem_NoDup _ _ H)].
Defined.

End Selection.
