(* ===== verification/CreatePoint.v ===== *)
(** * The [CreatePoint] screen: its state and its synchronous handlers

    src/src/pages/CreatePoint/index.tsx.  The component keeps ten pieces of
    React state (lines 33-51); this file gathers them in the record [State],
    gives one setter per [useState] hook, and models each handler and each
    effect callback as a function from the state before to the state after.
    The asynchronous part (which requests are in flight, when their
    callbacks run) is in Screen.v; the submission payload is in
    Submission.v.

    JavaScript numbers: item ids are integers ([Z], see Selection.v);
    coordinates are IEEE doubles that the code only stores and prints, so
    they are modelled as rationals [Q], a superset of the doubles. *)

From S2P Require Import Prelude Selection.
Set Warnings "-clear-no-such-hyp".
Close Scope Q_scope.

Module CreatePoint.

(** ** Data (lines 17-29) *)

Record Item := mkItem { id : Z; title : string; image_url : string }.
Record IBGEUfResponse := mkUf { sigla : string }.
Record IBGECityResponse := mkCity { nome : string }.

(** The browser's [File] that [Dropzone] reports (line 163); the screen
    never looks inside it. *)
Record File := mkFile { file_name : string; file_bytes : list Byte.byte }.

(** [event.latlng] of a Leaflet click (line 95). *)
Record LatLng := mkLatLng { lat : Q; lng : Q }.

#[export] Instance Item_eq_dec : EqDecision Item.
Proof. solve_decision. Defined.
#[export] Instance IBGEUfResponse_eq_dec : EqDecision IBGEUfResponse.
Proof. solve_decision. Defined.
#[export] Instance IBGECityResponse_eq_dec : EqDecision IBGECityResponse.
Proof. solve_decision. Defined.

(** ** State (lines 33-51) *)

Record State := mkState {
  items : list Item;
  ufs : list string;
  cities : list string;
  selectedUf : string;
  selectedCity : string;
  initialPosition : Q * Q;
  selectedPosition : Q * Q;
  selectedItems : list Z;
  formData : gmap string string;
  selectedFile : option File
}.

(** [useState({ name: '', email: '', whatsapp: '' })] (lines 45-49). *)
Definition initialFormData : gmap string string :=
  <["name" := ""]> (<["email" := ""]> (<["whatsapp" := ""]> ∅)).

(** The state at mount: every [useState] initial value. *)
Definition initialState : State := {|
  items := [];
  ufs := [];
  cities := [];
  selectedUf := "0";
  selectedCity := "0";
  initialPosition := (0%Q, 0%Q);
  selectedPosition := (0%Q, 0%Q);
  selectedItems := [];
  formData := initialFormData;
  selectedFile := None
|}.

(** ** Setters, one per [useState] *)

Definition setItems (v : list Item) (s : State) : State :=
  {| items := v; ufs := ufs s; cities := cities s; selectedUf := selectedUf s;
     selectedCity := selectedCity s; initialPosition := initialPosition s;
     selectedPosition := selectedPosition s; selectedItems := selectedItems s;
     formData := formData s; selectedFile := selectedFile s |}.

Definition setUfs (v : list string) (s : State) : State :=
  {| items := items s; ufs := v; cities := cities s; selectedUf := selectedUf s;
     selectedCity := selectedCity s; initialPosition := initialPosition s;
     selectedPosition := selectedPosition s; selectedItems := selectedItems s;
     formData := formData s; selectedFile := selectedFile s |}.

Definition setCities (v : list string) (s : State) : State :=
  {| items := items s; ufs := ufs s; cities := v; selectedUf := selectedUf s;
     selectedCity := selectedCity s; initialPosition := initialPosition s;
     selectedPosition := selectedPosition s; selectedItems := selectedItems s;
     formData := formData s; selectedFile := selectedFile s |}.

Definition setSelectedUf (v : string) (s : State) : State :=
  {| items := items s; ufs := ufs s; cities := cities s; selectedUf := v;
     selectedCity := selectedCity s; initialPosition := initialPosition s;
     selectedPosition := selectedPosition s; selectedItems := selectedItems s;
     formData := formData s; selectedFile := selectedFile s |}.

Definition setSelectedCity (v : string) (s : State) : State :=
  {| items := items s; ufs := ufs s; cities := cities s; selectedUf := selectedUf s;
     selectedCity := v; initialPosition := initialPosition s;
     selectedPosition := selectedPosition s; selectedItems := selectedItems s;
     formData := formData s; selectedFile := selectedFile s |}.

Definition setInitialPosition (v : Q * Q) (s : State) : State :=
  {| items := items s; ufs := ufs s; cities := cities s; selectedUf := selectedUf s;
     selectedCity := selectedCity s; initialPosition := v;
     selectedPosition := selectedPosition s; selectedItems := selectedItems s;
     formData := formData s; selectedFile := selectedFile s |}.

Definition setSelectedPosition (v : Q * Q) (s : State) : State :=
  {| items := items s; ufs := ufs s; cities := cities s; selectedUf := selectedUf s;
     selectedCity := selectedCity s; initialPosition := initialPosition s;
     selectedPosition := v; selectedItems := selectedItems s;
     formData := formData s; selectedFile := selectedFile s |}.

Definition setSelectedItems (v : list Z) (s : State) : State :=
  {| items := items s; ufs := ufs s; cities := cities s; selectedUf := selectedUf s;
     selectedCity := selectedCity s; initialPosition := initialPosition s;
     selectedPosition := selectedPosition s; selectedItems := v;
     formData := formData s; selectedFile := selectedFile s |}.

Definition setFormData (v : gmap string string) (s : State) : State :=
  {| items := items s; ufs := ufs s; cities := cities s; selectedUf := selectedUf s;
     selectedCity := selectedCity s; initialPosition := initialPosition s;
     selectedPosition := selectedPosition s; selectedItems := selectedItems s;
     formData := v; selectedFile := selectedFile s |}.

Definition setSelectedFile (v : option File) (s : State) : State :=
  {| items := items s; ufs := ufs s; cities := cities s; selectedUf := selectedUf s;
     selectedCity := selectedCity s; initialPosition := initialPosition s;
     selectedPosition := selectedPosition s; selectedItems := selectedItems s;
     formData := formData s; selectedFile := v |}.

(** ** Effect callbacks (lines 55-83) *)

(** [navigator.geolocation.getCurrentPosition] success callback. *)
Definition onGeolocation (latitude longitude : Q) (s : State) : State :=
  setInitialPosition (latitude, longitude) s.

(** [api.get('items')] callback: [setItems(reponse.data)]. *)
Definition onItems (data : list Item) (s : State) : State := setItems data s.

(** IBGE states callback: [response.data.map(uf => uf.sigla)]. *)
Definition onUfs (data : list IBGEUfResponse) (s : State) : State :=
  setUfs (map sigla data) s.

(** IBGE cities callback: [response.data.map(city => city.nome)]. *)
Definition onCities (data : list IBGECityResponse) (s : State) : State :=
  setCities (map nome data) s.

(** The body of the [selectedUf] effect (lines 75-83): [None] when it
    returns early on the placeholder, otherwise the state whose cities are
    fetched. *)
Definition ufEffect (selectedUf : string) : option string :=
  if String.eqb selectedUf "0" then None else Some selectedUf.

(** The URL the effect requests (line 79). *)
Definition citiesUrl (uf : string) : string :=
  "https://servicodados.ibge.gov.br/api/v1/localidades/estados/" +:+ uf +:+ "/municipios".

(** ** Handlers (lines 85-116, 163) *)

Definition handleSelectUf (uf : string) (s : State) : State := setSelectedUf uf s.

Definition handleSelectCity (city : string) (s : State) : State := setSelectedCity city s.

Definition handleMapClick (e : LatLng) (s : State) : State :=
  setSelectedPosition (lat e, lng e) s.

Definition handleSelectItem (id : Z) (s : State) : State :=
  setSelectedItems (Selection.toggleItem (selectedItems s) id) s.

(** [setFormData({ ...formData, [name]: value })]: a copy of the object with
    one key set, added when absent. *)
Definition handleInputChange (name value : string) (s : State) : State :=
  setFormData (<[name := value]> (formData s)) s.

(** [<Dropzone onFileUploaded={setSelectedFile} />]. *)
Definition onFileUploaded (f : File) (s : State) : State := setSelectedFile (Some f) s.

(** ** The inputs the rendered form offers (lines 170-247) *)

(** The [name] attributes of the inputs wired to [handleInputChange]. *)
Definition inputNames : list string := ["name"; "email"; "whatsapp"].

(** The options of the state select: the placeholder, then one per UF. *)
Definition ufOptions (s : State) : list string := "0" :: ufs s.

(** The options of the city select: one per city, no placeholder. *)
Definition cityOptions (s : State) : list string := cities s.

(** The city the city select shows (lines 218-225).  The select is
    controlled by [selectedCity]; when no option has that value, React
    marks the first option as selected, so the first city is shown. *)
Definition displayedCity (s : State) : option string :=
  if decide (selectedCity s ∈ cityOptions s) then Some (selectedCity s)
  else head (cityOptions s).

(** The ids of the items the grid shows. *)
Definition itemIds (s : State) : list Z := map id (items s).

End CreatePoint.
