(* ===== verification/View.v ===== *)
(** * Rendered views: the element trees JSX denotes

    The two pages return JSX (src/src/pages/Home/index.tsx, lines 9-30;
    src/src/pages/CreatePoint/index.tsx, lines 149-254).  JSX denotes a
    tree of elements: a tag (an HTML tag or a component such as [Link]),
    an optional React [key], attributes whose values are strings, numbers,
    positions, imported assets or event handlers, and children.  [Node]
    is that tree (a rose tree).  [keysDistinct] is React's rule that the
    keyed children of one element have distinct keys. *)

From S2P Require Import Prelude.
Set Warnings "-clear-no-such-hyp -register-all".
Close Scope Q_scope.

Module View.

(** The handlers the CreatePoint JSX wires, by the function it passes. *)
Inductive Handler :=
  | HSelectUf                 (** [onChange={handleSelectUf}] *)
  | HSelectCity               (** [onChange={handleSelectCity}] *)
  | HMapClick                 (** [onClick={handleMapClick}] *)
  | HSelectItem (id : Z)      (** [onClick={() => handleSelectItem(item.id)}] *)
  | HInputChange              (** [onChange={handleInputChange}] *)
  | HFileUploaded             (** [onFileUploaded={setSelectedFile}] *)
  | HSubmit.                  (** [onSubmit={handleSubmit}] *)

#[export] Instance Handler_eq_dec : EqDecision Handler.
Proof. solve_decision. Defined.

Inductive AttrVal :=
  | AStr (s : string)
  | ANum (z : Z)
  | APos (p : Q * Q)
  | AAsset (name : string)    (** a module import such as [logo] *)
  | AHandler (h : Handler).

Inductive Node :=
  | Text (t : string)
  | Elem (tag : string) (key : option string) (attrs : list (string * AttrVal))
         (children : list Node).

(** ** React keys *)

Definition nodeKey (n : Node) : option string :=
  match n with Elem _ k _ _ => k | Text _ => None end.

(** The keyed children of every element have distinct keys. *)
Fixpoint keysDistinct (n : Node) : bool :=
  match n with
  | Text _ => true
  | Elem _ _ _ cs =>
      bool_decide (NoDup (omap nodeKey cs)) && forallb keysDistinct cs
  end.

(** ** Lemmas *)

Lemma omap_map_Some {A B C} (f : B → option C) (g : A → B) (h : A → C) l :
  (∀ x, f (g x) = Some (h x)) → omap f (map g l) = map h l.
Proof. intros H. induction l as [|x l IH]; simpl; [done|]. rewrite H. f_equal. exact IH. Qed.

Lemma forallb_map_true {A B} (f : B → bool) (g : A → B) l :
  (∀ x, f (g x) = true) → forallb f (map g l) = true.
Proof. intros H. induction l as [|x l IH]; simpl; [done|by rewrite H, IH]. Qed.

End View.
