(* ===== verification/Submission.v ===== *)
(** * The submission payload of [handleSubmit]

    src/src/pages/CreatePoint/index.tsx, lines 118-140: [handleSubmit]
    reads the form state and appends nine or ten entries to a [FormData].
    The entries are modelled as the ordered list a [FormData] keeps.

    [String(latitude)] prints an IEEE double; ECMA-262's shortest
    round-trip formatting is not modelled: the file is parametric in the
    formatting function [String_of_number] (a section variable), and every
    theorem holds for all of them.

    The backend's reading of the payload is not in the repository; the spec
    (section 6) fixes its fields, and [decodePoint] reads them back as the
    record [PointRecord] the spec describes.  The refinement theorem says the
    payload carries exactly the screen's state. *)

From S2P Require Import Prelude JsString CreatePoint.
Set Warnings "-clear-no-such-hyp".
Close Scope Q_scope.

Module Submission.
Import CreatePoint.

(** ** [FormData] *)

Inductive FormDataValue :=
  | FDString (s : string)
  | FDFile (f : File).

Definition FormDataEntries := list (string * FormDataValue).

(** [data.append(name, value)]: a new entry at the end. *)
Definition append (name : string) (v : FormDataValue) (d : FormDataEntries)
  : FormDataEntries := d ++ [(name, v)].

(** [FormData.prototype.get]: the value of the first entry with the name. *)
Fixpoint FormData_get (name : string) (d : FormDataEntries) : option FormDataValue :=
  match d with
  | [] => None
  | (k, v) :: d' => if String.eqb k name then Some v else FormData_get name d'
  end.

(** Reading a property of a JavaScript object: a missing key is
    [undefined], which [FormData.append] stores as the string
    ["undefined"]. *)
Definition jsProp (o : gmap string string) (k : string) : string :=
  default "undefined" (o !! k).

Section Build.
Context (String_of_number : Q → string).

(** [handleSubmit], lines 121-140. *)
Definition buildFormData (s : State) : FormDataEntries :=
  let name := jsProp (formData s) "name" in
  let email := jsProp (formData s) "email" in
  let whatsapp := jsProp (formData s) "whatsapp" in
  let uf := selectedUf s in
  let city := selectedCity s in
  let '(latitude, longitude) := selectedPosition s in
  let items := selectedItems s in
  let data := [] in
  let data := append "name" (FDString name) data in
  let data := append "email" (FDString email) data in
  let data := append "whatsapp" (FDString whatsapp) data in
  let data := append "uf" (FDString uf) data in
  let data := append "city" (FDString city) data in
  let data := append "latitude" (FDString (String_of_number latitude)) data in
  let data := append "longitude" (FDString (String_of_number longitude)) data in
  let data := append "items" (FDString (JsString.items_field items)) data in
  match selectedFile s with
  | Some f => append "image" (FDFile f) data
  | None => data
  end.

End Build.

(** ** The record the backend receives (spec, section 6) *)

Record PointRecord := mkPoint {
  p_name : string; p_email : string; p_whatsapp : string;
  p_uf : string; p_city : string;
  p_latitude : string; p_longitude : string;
  p_items : list Z;
  p_image : option File
}.

Definition getString (name : string) (d : FormDataEntries) : option string :=
  match FormData_get name d with Some (FDString v) => Some v | _ => None end.

Definition getFile (name : string) (d : FormDataEntries) : option File :=
  match FormData_get name d with Some (FDFile f) => Some f | _ => None end.

Definition decodePoint (d : FormDataEntries) : option PointRecord :=
  name ← getString "name" d;
  email ← getString "email" d;
  whatsapp ← getString "whatsapp" d;
  uf ← getString "uf" d;
  city ← getString "city" d;
  latitude ← getString "latitude" d;
  longitude ← getString "longitude" d;
  items_s ← getString "items" d;
  items ← JsString.decode_items items_s;
  Some (mkPoint name email whatsapp uf city latitude longitude items
          (getFile "image" d)).

(** The abstract content of a submission: what the screen's state says the
    collection point is. *)
Definition pointOfState (String_of_number : Q → string) (s : State) : PointRecord :=
  mkPoint (jsProp (formData s) "name") (jsProp (formData s) "email")
    (jsProp (formData s) "whatsapp") (selectedUf s) (selectedCity s)
    (String_of_number (selectedPosition s).1) (String_of_number (selectedPosition s).2)
    (selectedItems s) (selectedFile s).

(** ** Properties *)

Section Props.
Context (String_of_number : Q → string).

Lemma buildFormData_unfold s :
  buildFormData String_of_number s =
  [("name", FDString (jsProp (formData s) "name"));
   ("email", FDString (jsProp (formData s) "email"));
   ("whatsapp", FDString (jsProp (formData s) "whatsapp"));
   ("uf", FDString (selectedUf s)); ("city", FDString (selectedCity s));
   ("latitude", FDString (String_of_number (selectedPosition s).1));
   ("longitude", FDString (String_of_number (selectedPosition s).2));
   ("items", FDString (JsString.items_field (selectedItems s)))] ++
  match selectedFile s with Some f => [("image", FDFile f)] | None => [] end.
Proof.
  unfold buildFormData. destruct (selectedPosition s), (selectedFile s); reflexivity.
Qed.

(** The payload has the fields of the spec's [POST points], in the
    order the code appends them, and an [image] entry exactly when a file
    was dropped. *)
Theorem buildFormData_names s :
  map fst (buildFormData String_of_number s) =
  ["name"; "email"; "whatsapp"; "uf"; "city"; "latitude"; "longitude"; "items"] ++
  match selectedFile s with Some _ => ["image"] | None => [] end.
Proof. rewrite buildFormData_unfold. by destruct (selectedFile s). Qed.

(** C8: refinement.  When at least one item is selected, the backend reads
    back from the payload exactly the collection point the screen's state
    describes: the three text fields, the state and city, both coordinates,
    the selected ids in selection order, and the dropped file. *)
Theorem buildFormData_refines s :
  selectedItems s ≠ [] →
  decodePoint (buildFormData String_of_number s) = Some (pointOfState String_of_number s).
Proof.
  intros Hne. rewrite buildFormData_unfold.
  unfold decodePoint, getString, getFile, pointOfState.
  destruct (selectedFile s); simpl;
    rewrite JsString.decode_items_field by done; reflexivity.
Qed.

(** With nothing selected the [items] field is the empty string, which the
    spec's comma-joined id list does not cover. *)
Lemma buildFormData_no_items s :
  selectedItems s = [] →
  getString "items" (buildFormData String_of_number s) = Some "" ∧
  decodePoint (buildFormData String_of_number s) = None.
Proof.
  intros Hnil. rewrite buildFormData_unfold, Hnil.
  unfold decodePoint, getString. simpl. by destruct (selectedFile s).
Qed.

End Props.

Lemma buildFormData_refines_witness :
  let s := handleSelectItem 2%Z initialState in
  selectedItems s ≠ [] ∧
  decodePoint (buildFormData (λ _, "0") s) = Some (pointOfState (λ _, "0") s).
Proof.
  assert (H : selectedItems (handleSelectItem 2%Z initialState) ≠ []) by discriminate.
  split; [exact H | exact (buildFormData_refines (λ _, "0") _ H)].
Defined.

End Submission.
