(* ===== verification/EmailInput.v ===== *)
(** * The e-mail input and the form's constraint validation

    src/src/pages/CreatePoint/index.tsx, line 178:
    [<input type="email" id="email" name="email" onChange=...>], inside the
    [<form onSubmit={handleSubmit}>] of line 160.  The screen checks nothing
    itself; the spec (section 2) leaves validation to "native browser input
    constraints (e.g. [type="email"])".  This file models what the HTML
    standard makes of that input:
    - its value sanitization (newlines removed, then leading and trailing
      ASCII whitespace stripped), which is what [event.target.value] reports
      to [handleInputChange];
    - its type mismatch: a non-empty value that is not a "valid e-mail
      address" in the standard's grammar
      [1*( atext / "." ) "@" label *( "." label )];
    - the form submission algorithm, which fires no [submit] event while an
      input of the form fails its constraints.  The input has no
      [required] attribute, so the empty string passes.

    Values are byte strings: the grammar only admits ASCII characters, and
    every byte of the UTF-8 encoding of a non-ASCII character is outside
    it, so the check reads the same on either encoding.

    [valid_email_address] is the executable check; [email_grammar] is the
    grammar as a proposition; [valid_email_address_spec] shows they agree. *)

From S2P Require Import Prelude CreatePoint Submission.
From Stdlib Require Import Ascii.
Set Warnings "-clear-no-such-hyp".
Close Scope Q_scope.

Module EmailInput.
Import CreatePoint Submission.

(** ** Character classes *)

Definition in_range (lo hi : nat) (c : ascii) : bool :=
  (lo <=? nat_of_ascii c) && (nat_of_ascii c <=? hi).

(** ALPHA and DIGIT of RFC 5234. *)
Definition is_alpha (c : ascii) : bool := in_range 65 90 c || in_range 97 122 c.
Definition is_digit (c : ascii) : bool := in_range 48 57 c.

(** [let-dig] and the characters of [ldh-str] (RFC 1034). *)
Definition is_let_dig (c : ascii) : bool := is_alpha c || is_digit c.
Definition is_ldh (c : ascii) : bool := is_let_dig c || Ascii.eqb c "-"%char.

(** [atext] of RFC 5322. *)
Definition atext_specials : list ascii := String.list_ascii_of_string "!#$%&'*+-/=?^_`{|}~".
Definition is_atext (c : ascii) : bool :=
  is_alpha c || is_digit c || existsb (Ascii.eqb c) atext_specials.

(** A character of the local part: [atext / "."]. *)
Definition is_local (c : ascii) : bool := is_atext c || Ascii.eqb c "."%char.

(** ** Splitting and joining on a separator *)

Fixpoint split_on (sep : ascii) (l : list ascii) : list (list ascii) :=
  match l with
  | [] => [[]]
  | c :: l' =>
      if Ascii.eqb c sep then [] :: split_on sep l'
      else match split_on sep l' with
           | w :: ws => (c :: w) :: ws
           | [] => [[c]]
           end
  end.

Fixpoint join_on (sep : ascii) (ws : list (list ascii)) : list ascii :=
  match ws with
  | [] => []
  | [w] => w
  | w :: ws' => w ++ sep :: join_on sep ws'
  end.

(** ** The grammar of a valid e-mail address *)

(** [label = let-dig [ [ ldh-str ] let-dig ]], at most 63 characters. *)
Definition valid_label (w : list ascii) : bool :=
  (length w <=? 63) && forallb is_ldh w &&
  match w with
  | [] => false
  | c :: _ => is_let_dig c && match last w with Some d => is_let_dig d | None => false end
  end.

Definition valid_email_address (s : string) : bool :=
  match split_on "@"%char (String.list_ascii_of_string s) with
  | [loc; dom] =>
      negb (bool_decide (loc = [])) && forallb is_local loc &&
      forallb valid_label (split_on "."%char dom)
  | _ => false
  end.

(** The grammar as a proposition: a non-empty local part of [atext] and
    dots, an at sign, and one or more dot-separated labels, each a
    letter or digit, or a letter or digit, letters, digits and hyphens, and
    a letter or digit, within 63 characters. *)
Definition label_grammar (w : list ascii) : Prop :=
  length w ≤ 63 ∧
  ((∃ a, w = [a] ∧ is_let_dig a = true) ∨
   (∃ a m b, w = a :: m ++ [b] ∧ is_let_dig a = true ∧
      Forall (λ c, is_ldh c = true) m ∧ is_let_dig b = true)).

Definition email_grammar (l : list ascii) : Prop :=
  ∃ loc labels,
    l = loc ++ "@"%char :: join_on "."%char labels ∧
    loc ≠ [] ∧ Forall (λ c, is_local c = true) loc ∧
    labels ≠ [] ∧ Forall label_grammar labels.

(** ** Sanitization and constraint validation *)

Definition is_newline (c : ascii) : bool :=
  Ascii.eqb c "010"%char || Ascii.eqb c "013"%char.

(** ASCII whitespace: tab, line feed, form feed, carriage return, space. *)
Definition is_ascii_whitespace (c : ascii) : bool :=
  existsb (Ascii.eqb c) ["009"; "010"; "012"; "013"; " "]%char.

Fixpoint strip_leading (l : list ascii) : list ascii :=
  match l with
  | c :: l' => if is_ascii_whitespace c then strip_leading l' else l
  | [] => []
  end.

Definition strip_trailing (l : list ascii) : list ascii :=
  rev (strip_leading (rev l)).

(** The value sanitization algorithm of [type="email"] without
    [multiple]: strip newlines, then leading and trailing ASCII whitespace. *)
Definition sanitize_email (v : string) : string :=
  String.string_of_list_ascii
    (strip_trailing (strip_leading
       (List.filter (λ c, negb (is_newline c)) (String.list_ascii_of_string v)))).

(** The value sanitization algorithm of [type="text"]: strip newlines. *)
Definition strip_newlines (v : string) : string :=
  String.string_of_list_ascii
    (List.filter (λ c, negb (is_newline c)) (String.list_ascii_of_string v)).

(** The value [event.target.value] reports for the input named [name]
    when the user has typed [v]: the e-mail input (line 178) sanitizes as
    [type="email"], the name and WhatsApp inputs (lines 172, 183) as
    [type="text"]. *)
Definition inputValue (name v : string) : string :=
  if String.eqb name "email" then sanitize_email v else strip_newlines v.

(** The e-mail input suffers from no type mismatch (and, without
    [required], from no missing value). *)
Definition emailValid (v : string) : bool :=
  String.eqb v "" || valid_email_address v.

(** The form's controls all satisfy their constraints, so pressing the
    submit button fires [submit].  Of the controls of lines 160-251, only
    the e-mail input carries a constraint: the name and WhatsApp inputs are
    plain [type="text"] and the selects have no [required].  The e-mail
    input is uncontrolled; its value is the last value reported to
    [handleInputChange], which is the [email] entry of [formData]. *)
Definition formValid (s : State) : bool := emailValid (jsProp (formData s) "email").

(** ** Splitting and joining *)

Lemma forallb_Forall {A} (f : A → bool) l : forallb f l = true ↔ Forall (λ x, f x = true) l.
Proof.
  induction l as [|x l IH]; simpl; [split; constructor|].
  by rewrite andb_true_iff, Forall_cons, IH.
Qed.

Lemma split_on_nonnil sep l : split_on sep l ≠ [].
Proof. destruct l; simpl; [done|]. case_match; [done|]. by case_match. Qed.

Lemma join_on_cons sep c w ws : join_on sep ((c :: w) :: ws) = c :: join_on sep (w :: ws).
Proof. by destruct ws. Qed.

Lemma join_split sep l : join_on sep (split_on sep l) = l.
Proof.
  induction l as [|c l IH]; [done|]. simpl.
  destruct (Ascii.eqb_spec c sep) as [->|Hne].
  - destruct (split_on sep l) eqn:E; [by destruct (split_on_nonnil sep l)|].
    simpl. rewrite <- IH. by destruct l0.
  - destruct (split_on sep l) eqn:E; [by destruct (split_on_nonnil sep l)|].
    by rewrite join_on_cons, IH.
Qed.

Lemma split_on_free sep w : sep ∉ w → split_on sep w = [w].
Proof.
  induction w as [|c w IH]; intros Hw; [done|]. simpl.
  destruct (Ascii.eqb_spec c sep) as [->|Hne]; [by destruct Hw; left|].
  rewrite IH; [done|]. intros H. apply Hw. by right.
Qed.

Lemma split_on_app sep w r : sep ∉ w → split_on sep (w ++ sep :: r) = w :: split_on sep r.
Proof.
  induction w as [|c w IH]; intros Hw; simpl.
  - by rewrite Ascii.eqb_refl.
  - destruct (Ascii.eqb_spec c sep) as [->|Hne]; [by destruct Hw; left|].
    rewrite IH; [done|]. intros H. apply Hw. by right.
Qed.

Lemma split_join sep ws :
  ws ≠ [] → Forall (λ w, sep ∉ w) ws → split_on sep (join_on sep ws) = ws.
Proof.
  induction ws as [|w [|w2 ws] IH]; intros Hne Hf; [done| |].
  - apply Forall_cons in Hf as [Hw _]. by apply split_on_free.
  - apply Forall_cons in Hf as [Hw Hf].
    change (split_on sep (w ++ sep :: join_on sep (w2 :: ws)) = w :: w2 :: ws).
    rewrite split_on_app by done. by rewrite IH.
Qed.

Lemma elem_of_join_on sep ws c :
  c ∈ join_on sep ws → c = sep ∨ ∃ w, w ∈ ws ∧ c ∈ w.
Proof.
  induction ws as [|w [|w2 ws] IH]; simpl; intros Hc; [by apply elem_of_nil in Hc| |].
  - right. exists w. split; [left|done].
  - apply elem_of_app in Hc as [Hc|[->|Hc]%elem_of_cons]; [|by left|].
    + right. exists w. split; [left|done].
    + destruct (IH Hc) as [->|(w' & Hw' & Hc')]; [by left|].
      right. exists w'. split; [by right|done].
Qed.

(** ** Character facts *)

Lemma ldh_not_at c : is_ldh c = true → c ≠ "@"%char.
Proof. by intros H ->. Qed.

Lemma ldh_not_dot c : is_ldh c = true → c ≠ "."%char.
Proof. by intros H ->. Qed.

Lemma local_not_at c : is_local c = true → c ≠ "@"%char.
Proof. by intros H ->. Qed.

Lemma let_dig_ldh c : is_let_dig c = true → is_ldh c = true.
Proof. unfold is_ldh. by intros ->. Qed.

(** ** The executable check decides the grammar *)

Lemma valid_label_spec w : valid_label w = true ↔ label_grammar w.
Proof.
  unfold valid_label, label_grammar. split.
  - destruct w as [|a w]; [by rewrite andb_false_r|].
    rewrite !andb_true_iff, Nat.leb_le, forallb_Forall, Forall_cons.
    intros [[Hlen [Ha Hw]] [Ha' Hl]]. split; [done|].
    destruct w as [|x w] using rev_ind; [left; eauto|right].
    rewrite last_cons, last_snoc in Hl.
    apply Forall_app in Hw as [Hm _]. exists a, w, x. done.
  - intros [Hlen [(a & -> & Ha)|(a & m & b & -> & Ha & Hm & Hb)]].
    + simpl. rewrite Ha. unfold is_ldh. rewrite Ha. done.
    + rewrite !andb_true_iff, Nat.leb_le, forallb_Forall, Forall_cons, Forall_app,
        Forall_singleton, last_cons, last_snoc.
      split_and!; auto using let_dig_ldh.
Qed.

Lemma label_no_sep w : label_grammar w → ("@"%char ∉ w) ∧ ("."%char ∉ w).
Proof.
  intros Hw%valid_label_spec. unfold valid_label in Hw.
  apply andb_true_iff in Hw as [Hw _]. apply andb_true_iff in Hw as [_ Hw].
  apply forallb_Forall in Hw. rewrite Forall_forall in Hw.
  split; intros Hc%Hw; [by apply ldh_not_at in Hc|by apply ldh_not_dot in Hc].
Qed.

(** The model's check of a valid e-mail address decides the standard's
    grammar (a check of the model of the browser, not of the program): a
    non-empty local part of
    [atext] and dots, one at sign, and one or more dot-separated labels. *)
Lemma valid_email_address_spec s :
  valid_email_address s = true ↔ email_grammar (String.list_ascii_of_string s).
Proof.
  unfold valid_email_address, email_grammar.
  set (l := String.list_ascii_of_string s). split.
  - destruct (split_on "@" l) as [|loc [|dom [|? ?]]] eqn:E; try discriminate.
    rewrite !andb_true_iff, negb_true_iff, bool_decide_eq_false, !forallb_Forall.
    intros [[Hloc Hl] Hd]. exists loc, (split_on "." dom). split_and!; try done.
    + rewrite <- (join_split "@" l), E. simpl. by rewrite join_split.
    + apply split_on_nonnil.
    + eapply Forall_impl; [exact Hd|]. intros w. apply valid_label_spec.
  - intros (loc & labels & -> & Hne & Hloc & Hlne & Hlab).
    assert (Hat : "@"%char ∉ join_on "." labels).
    { intros [Heq|(w & Hw & Hc)]%elem_of_join_on; [done|].
      rewrite Forall_forall in Hlab. exact (proj1 (label_no_sep w (Hlab w Hw)) Hc). }
    assert (Hloc' : "@"%char ∉ loc).
    { intros Hc. rewrite Forall_forall in Hloc. by apply (local_not_at _ (Hloc _ Hc)). }
    rewrite split_on_app, split_on_free, split_join by
      (done || (eapply Forall_impl; [exact Hlab|]; intros w Hw; by apply label_no_sep)).
    rewrite !andb_true_iff, negb_true_iff, bool_decide_eq_false, !forallb_Forall.
    split_and!; try done. eapply Forall_impl; [exact Hlab|]. intros w. apply valid_label_spec.
Qed.

(** ** Sanitization is idempotent *)

Lemma strip_leading_idem l : strip_leading (strip_leading l) = strip_leading l.
Proof.
  induction l as [|c l IH]; [done|]. simpl.
  destruct (is_ascii_whitespace c) eqn:Hc; [done|]. simpl. by rewrite Hc.
Qed.

Lemma strip_trailing_idem l : strip_trailing (strip_trailing l) = strip_trailing l.
Proof. unfold strip_trailing. by rewrite rev_involutive, strip_leading_idem. Qed.

Lemma strip_leading_snoc l c :
  is_ascii_whitespace c = false → strip_leading (l ++ [c]) = strip_leading l ++ [c].
Proof.
  intros Hc. induction l as [|d l IH]; simpl; [by rewrite Hc|].
  by destruct (is_ascii_whitespace d).
Qed.

Lemma strip_trailing_cons c l :
  is_ascii_whitespace c = false → strip_trailing (c :: l) = c :: strip_trailing l.
Proof.
  intros Hc. unfold strip_trailing. simpl.
  by rewrite strip_leading_snoc, rev_app_distr by done.
Qed.

Lemma strip_leading_head l :
  strip_leading l = [] ∨ ∃ c l', strip_leading l = c :: l' ∧ is_ascii_whitespace c = false.
Proof.
  induction l as [|c l IH]; [by left|]. simpl.
  destruct (is_ascii_whitespace c) eqn:Hc; [done|]. right. eauto.
Qed.

Lemma strip_leading_trailing_leading l :
  strip_leading (strip_trailing (strip_leading l)) = strip_trailing (strip_leading l).
Proof.
  destruct (strip_leading_head l) as [->|(c & l' & -> & Hc)]; [done|].
  rewrite strip_trailing_cons by done. simpl. by rewrite Hc.
Qed.

Lemma Forall_strip_leading (P : ascii → Prop) l : Forall P l → Forall P (strip_leading l).
Proof.
  induction l as [|c l IH]; simpl; [done|]. intros [Hc Hl]%Forall_cons.
  destruct (is_ascii_whitespace c); [by apply IH|by constructor].
Qed.

Lemma Forall_strip_trailing (P : ascii → Prop) l : Forall P l → Forall P (strip_trailing l).
Proof.
  intros H. unfold strip_trailing. apply Forall_rev, Forall_strip_leading, Forall_rev, H.
Qed.

Lemma filter_newline_id l :
  Forall (λ c, is_newline c = false) l → List.filter (λ c, negb (is_newline c)) l = l.
Proof.
  induction l as [|c l IH]; simpl; [done|]. intros [-> Hl]%Forall_cons. simpl. by rewrite IH.
Qed.

Lemma filter_newline_Forall l :
  Forall (λ c, is_newline c = false) (List.filter (λ c, negb (is_newline c)) l).
Proof.
  induction l as [|c l IH]; simpl; [done|].
  destruct (is_newline c) eqn:Hc; simpl; [done|]. by constructor.
Qed.

Lemma sanitize_email_idem v : sanitize_email (sanitize_email v) = sanitize_email v.
Proof.
  unfold sanitize_email. rewrite String.list_ascii_of_string_of_list_ascii.
  rewrite filter_newline_id
    by apply Forall_strip_trailing, Forall_strip_leading, filter_newline_Forall.
  by rewrite strip_leading_trailing_leading, strip_trailing_idem.
Qed.

(** The check on a few inputs: a dotted and a dotless domain pass; a
    missing domain or local part, a label starting with a hyphen, two at
    signs, and an empty label fail; sanitization drops the spaces. *)
Example valid_email_address_examples :
  valid_email_address "ana@ecoleta.org" = true ∧ valid_email_address "ana@localhost" = true ∧
  valid_email_address "ana@" = false ∧ valid_email_address "@ecoleta.org" = false ∧
  valid_email_address "ana@-eco.org" = false ∧ valid_email_address "a@b@c" = false ∧
  valid_email_address "ana@eco..org" = false ∧
  sanitize_email " ana@ecoleta.org " = "ana@ecoleta.org".
Proof. split_and!; reflexivity. Qed.

End EmailInput.
