(* ===== verification/Screen.v ===== *)
(** * The running application: navigation, requests in flight, events

    The two pages (src/src/pages/Home/index.tsx and
    src/src/pages/CreatePoint/index.tsx) run in one browser event loop.
    An [App] is the history stack, the mounted page (with the [CreatePoint]
    state of CreatePoint.v when that page is mounted), the requests in
    flight, and the [alert] calls made so far.  [step] applies one event:
    a user action on the mounted page, or the settlement of one request in
    flight, in any order the network chooses.

    React semantics modelled: an effect with dependencies [[]] runs once
    after mount, in source order; the [[selectedUf]] effect runs after a
    render where [selectedUf] changed ([setState] with an equal value does
    not re-render); a callback of an unmounted component that calls a
    setter does nothing; an [async] handler's continuation after [await]
    runs whether or not the component is still mounted, and a rejected
    [await] throws, skipping the rest of the handler.

    The route table ([/] to [Home], [/create-point] to [CreatePoint]) is
    in the app's routes file, which is not under src/: it is modelled from
    the spec (section 6, "two routes"). *)

From S2P Require Import Prelude Selection JsString CreatePoint Submission EmailInput.
Set Warnings "-clear-no-such-hyp".
Close Scope Q_scope.

Module Screen.
Import CreatePoint Submission EmailInput.

(** ** Routes and links *)

Inductive Component := HomeC | CreatePointC.

Definition route (path : string) : option Component :=
  if String.eqb path "/" then Some HomeC
  else if String.eqb path "/create-point" then Some CreatePointC
  else None.

(** [<Link to="/create-point">] on the landing page (Home, line 20). *)
Definition homeLink : string := "/create-point".

(** [<Link to="/">] in the [CreatePoint] header (line 154). *)
Definition backLink : string := "/".

(** ** Requests *)

Inductive Request :=
  | ReqGeolocation                      (** line 56 *)
  | ReqItems                            (** line 63, [api.get('items')] *)
  | ReqUfs                              (** line 69 *)
  | ReqCities (uf : string)             (** line 79 *)
  | ReqPost (data : FormDataEntries).   (** line 142, [api.post('points', data)] *)

(** A request in flight, tagged with the mount of [CreatePoint] that issued
    it (its callbacks close over that mount's setters). *)
Record Pending := mkPending { p_mount : nat; p_req : Request }.

(** How a request settles. *)
Inductive Outcome :=
  | GeoPosition (latitude longitude : Q)
  | ItemsData (d : list Item)
  | UfsData (d : list IBGEUfResponse)
  | CitiesData (d : list IBGECityResponse)
  | PostDone
  | Rejected.

(** The URL each request fetches (lines 63, 69, 79, 142); [api] is the
    backend client, so its paths are relative to the backend's base URL. *)
Definition requestUrl (r : Request) : option string :=
  match r with
  | ReqGeolocation => None
  | ReqItems => Some "items"
  | ReqUfs => Some "https://servicodados.ibge.gov.br/api/v1/localidades/estados"
  | ReqCities uf => Some (citiesUrl uf)
  | ReqPost _ => Some "points"
  end.

(** The requests the effects issue right after a mount (lines 55-83), in
    source order; the [selectedUf] effect returns early on ['0']. *)
Definition mountRequests : list Request :=
  [ReqGeolocation; ReqItems; ReqUfs] ++
  match ufEffect (selectedUf initialState) with
  | Some uf => [ReqCities uf]
  | None => []
  end.

(** ** The application *)

Inductive Page :=
  | PageHome
  | PageCreatePoint (s : State)
  | PageNotFound.

Record App := mkApp {
  location : list string;   (** history stack, current path first *)
  page : Page;
  mountId : nat;            (** mounts of [CreatePoint] so far *)
  pending : list Pending;   (** requests in flight, in issue order *)
  alerts : list string      (** [alert] messages, in order *)
}.

Definition initialApp : App := mkApp ["/"] PageHome 0 [] [].

Definition withPage (p : Page) (a : App) : App :=
  mkApp (location a) p (mountId a) (pending a) (alerts a).
Definition withPending (ps : list Pending) (a : App) : App :=
  mkApp (location a) (page a) (mountId a) ps (alerts a).
Definition addAlert (msg : string) (a : App) : App :=
  mkApp (location a) (page a) (mountId a) (pending a) (alerts a ++ [msg]).

(** [history.push(path)]: push the path and render its route.  Staying on
    the same component keeps it mounted; entering [CreatePoint] mounts a
    fresh instance, whose effects issue [mountRequests]. *)
Definition navigate (path : string) (a : App) : App :=
  let loc := path :: location a in
  match route path, page a with
  | Some CreatePointC, PageCreatePoint s => mkApp loc (page a) (mountId a) (pending a) (alerts a)
  | Some CreatePointC, _ =>
      let m := S (mountId a) in
      mkApp loc (PageCreatePoint initialState) m
        (pending a ++ map (mkPending m) mountRequests) (alerts a)
  | Some HomeC, _ => mkApp loc PageHome (mountId a) (pending a) (alerts a)
  | None, _ => mkApp loc PageNotFound (mountId a) (pending a) (alerts a)
  end.

(** The browser's Back button.  The router (not in the repository)
    listens to [popstate]: the history stack is popped and the route of
    the entry below is rendered as a push of that path would render it,
    so [CreatePoint] is mounted afresh when it is entered and unmounted
    when it is left.  The page itself keeps nothing across entries. *)
Definition withLocation (l : list string) (a : App) : App :=
  mkApp l (page a) (mountId a) (pending a) (alerts a).

Definition goBack (a : App) : option App :=
  match location a with
  | _ :: (prev :: _) as rest => Some (withLocation rest (navigate prev a))
  | _ => None
  end.

(** The message of line 144 and the redirect of line 146. *)
Definition createdAlert : string := "Ponto de coleta criado.".

(** ** Events *)

Inductive Event :=
  | ClickLink (to : string)
  | SelectUf (uf : string)
  | SelectCity (city : string)
  | MapClick (e : LatLng)
  | SelectItem (id : Z)
  | InputChange (name value : string)
  | FileUploaded (f : File)
  | Submit
  | Settle (i : nat) (o : Outcome).

Section Step.
Context (String_of_number : Q → string).

(** A user event on the mounted [CreatePoint]: the new state and the
    requests its effects issue.  [None] when the page offers no such
    control (an option that is not rendered, an input without that
    name), and for [Submit] while the e-mail input fails its constraint,
    since the browser then fires no [submit] event (EmailInput.v).  An
    input reports its sanitized value to [handleInputChange]. *)
Definition userEvent (e : Event) (s : State) : option (State * list Request) :=
  match e with
  | SelectUf uf =>
      if decide (uf ∈ ufOptions s) then
        let s' := handleSelectUf uf s in
        if String.eqb (selectedUf s) uf then Some (s', [])
        else Some (s', match ufEffect uf with Some u => [ReqCities u] | None => [] end)
      else None
  | SelectCity city =>
      if decide (city ∈ cityOptions s ∧ displayedCity s ≠ Some city)
      then Some (handleSelectCity city s, []) else None
  | MapClick ev => Some (handleMapClick ev s, [])
  | SelectItem i =>
      if decide (i ∈ itemIds s) then Some (handleSelectItem i s, []) else None
  | InputChange name value =>
      if decide (name ∈ inputNames) then
        Some (handleInputChange name (inputValue name value) s, [])
      else None
  | FileUploaded f => Some (onFileUploaded f s, [])
  | Submit =>
      if formValid s then Some (s, [ReqPost (buildFormData String_of_number s)])
      else None
  | _ => None
  end.

(** The callback a settled request runs on the state of its mount. *)
Definition settleState (r : Request) (o : Outcome) (s : State) : option State :=
  match r, o with
  | ReqGeolocation, GeoPosition la lo => Some (onGeolocation la lo s)
  | ReqItems, ItemsData d => Some (onItems d s)
  | ReqUfs, UfsData d => Some (onUfs d s)
  | ReqCities _, CitiesData d => Some (onCities d s)
  | _, _ => None
  end.

(** Whether an outcome is one the request's promise can settle with. *)
Definition outcomeFits (r : Request) (o : Outcome) : bool :=
  match r, o with
  | ReqGeolocation, GeoPosition _ _ | ReqItems, ItemsData _ | ReqUfs, UfsData _
  | ReqCities _, CitiesData _ | ReqPost _, PostDone | _, Rejected => true
  | _, _ => false
  end.

(** The settlement of the [i]-th request in flight: a rejection is never
    handled (lines 63-82, 142); a post that succeeds runs the rest of
    [handleSubmit] (lines 144-146); any other success runs its callback on
    the state of the mount that issued it, if that mount is still the
    mounted page. *)
Definition settle (i : nat) (o : Outcome) (a : App) : option App :=
  p ← pending a !! i;
  if negb (outcomeFits (p_req p) o) then None else
  let a0 := withPending (delete i (pending a)) a in
  match p_req p, o with
  | _, Rejected => Some a0
  | ReqPost _, PostDone => Some (navigate "/" (addAlert createdAlert a0))
  | r, _ =>
      match page a0 with
      | PageCreatePoint s =>
          if decide (p_mount p = mountId a0) then
            s' ← settleState r o s; Some (withPage (PageCreatePoint s') a0)
          else Some a0
      | _ => Some a0
      end
  end.

Definition step (a : App) (e : Event) : option App :=
  match e, page a with
  | ClickLink to, PageHome => if String.eqb to homeLink then Some (navigate to a) else None
  | ClickLink to, PageCreatePoint _ =>
      if String.eqb to backLink then Some (navigate to a) else None
  | ClickLink _, PageNotFound => None
  | Settle i o, _ => settle i o a
  | _, PageCreatePoint s =>
      '(s', rs) ← userEvent e s;
      Some (withPending (pending a ++ map (mkPending (mountId a)) rs)
              (withPage (PageCreatePoint s') a))
  | _, _ => None
  end.

(** Running a sequence of events. *)
Fixpoint run (a : App) (es : list Event) : option App :=
  match es with
  | [] => Some a
  | e :: es' => a' ← step a e; run a' es'
  end.

End Step.

(** ** The external services' contract *)

(** What the backend and the IBGE service answer when they answer
    (spec, section 6).  Geolocation may report any position and the post
    carries no response body. *)
Record Services := mkServices {
  svcItems : list Item;
  svcUfs : list IBGEUfResponse;
  svcCities : string → list IBGECityResponse
}.

Definition answers (svc : Services) (r : Request) (o : Outcome) : bool :=
  match r, o with
  | _, Rejected => true
  | ReqGeolocation, GeoPosition _ _ => true
  | ReqItems, ItemsData d => bool_decide (d = svcItems svc)
  | ReqUfs, UfsData d => bool_decide (d = svcUfs svc)
  | ReqCities uf, CitiesData d => bool_decide (d = svcCities svc uf)
  | ReqPost _, PostDone => true
  | _, _ => false
  end.

Definition isSettle (e : Event) : bool :=
  match e with Settle _ _ => true | _ => false end.

Section Semantics.
Context (String_of_number : Q → string) (svc : Services).

(** One transition of the application: a user action, one request in
    flight settling with an answer of the services (or a rejection), or
    the browser's Back button. *)
Inductive sstep : App → App → Prop :=
  | sstep_user a e a' :
      isSettle e = false → step String_of_number a e = Some a' → sstep a a'
  | sstep_settle a i p o a' :
      pending a !! i = Some p → answers svc (p_req p) o = true →
      step String_of_number a (Settle i o) = Some a' → sstep a a'
  | sstep_back a a' : goBack a = Some a' → sstep a a'.

Definition reachable (a : App) : Prop := rtc sstep initialApp a.

(** The executable counterpart: run events, checking every settlement
    against the services. *)
Fixpoint runChecked (a : App) (es : list Event) : option App :=
  match es with
  | [] => Some a
  | e :: es' =>
      a' ← step String_of_number a e;
      let ok := match e with
                | Settle i o => match pending a !! i with
                                | Some p => answers svc (p_req p) o
                                | None => false
                                end
                | _ => true
                end in
      if ok then runChecked a' es' else None
  end.

Lemma runChecked_sstep a es a' :
  runChecked a es = Some a' → rtc sstep a a'.
Proof.
  revert a. induction es as [|e es IH]; intros a H; simpl in H.
  - injection H as <-. apply rtc_refl.
  - destruct (step String_of_number a e) as [a1|] eqn:Hs; [|discriminate].
    simpl in H.
    destruct e as [to|uf|city|ev|id|name value|f| |i o];
      try (eapply rtc_l; [eapply sstep_user; [|exact Hs]; done|by apply IH]).
    destruct (pending a !! i) as [p|] eqn:Hp; [|discriminate].
    destruct (answers svc (p_req p) o) eqn:Ha; [|discriminate].
    eapply rtc_l; [by eapply sstep_settle|by apply IH].
Qed.

Lemma runChecked_reachable es a :
  runChecked initialApp es = Some a → reachable a.
Proof. apply runChecked_sstep. Qed.

End Semantics.

(** ** Lemmas on the step function *)

Lemma settle_inv a i o a' :
  settle i o a = Some a' →
  ∃ p, pending a !! i = Some p ∧ outcomeFits (p_req p) o = true ∧
  let a0 := withPending (delete i (pending a)) a in
  (o = Rejected ∧ a' = a0) ∨
  (o = PostDone ∧ a' = navigate "/" (addAlert createdAlert a0)) ∨
  (o ≠ Rejected ∧ o ≠ PostDone ∧
   ((∃ s s', page a = PageCreatePoint s ∧ p_mount p = mountId a ∧
        settleState (p_req p) o s = Some s' ∧ a' = withPage (PageCreatePoint s') a0) ∨
    ((∀ s, page a = PageCreatePoint s → p_mount p ≠ mountId a) ∧ a' = a0))).
Proof.
  unfold settle. destruct (pending a !! i) as [p|]; simpl; [|discriminate].
  destruct (outcomeFits (p_req p) o) eqn:Hf; simpl; [|discriminate].
  intros H. exists p. split; [done|]. split; [done|].
  destruct (p_req p) eqn:Hr, o; simpl in *; try discriminate;
    try (injection H as <-; naive_solver);
    (destruct (page a) as [|s|] eqn:Hpg; simpl in H;
      [injection H as <-; right; right; naive_solver| |
       injection H as <-; right; right; naive_solver]);
    (case_decide as Hm; simpl in H;
      [injection H as <-; right; right; split_and!; [done|done|]; left; eauto 10
      |injection H as <-; right; right; naive_solver]).
Qed.

Lemma navigate_page path a :
  page (navigate path a) = page a ∨ page (navigate path a) = PageHome ∨
  page (navigate path a) = PageNotFound ∨
  page (navigate path a) = PageCreatePoint initialState.
Proof.
  unfold navigate. destruct (route path) as [[]|], (page a); simpl; auto.
Qed.

(** Back renders the route of the entry below the top of the history, as
    a push of it would, and pops the top. *)
Lemma goBack_inv a a' :
  goBack a = Some a' →
  ∃ top prev rest, location a = top :: prev :: rest ∧
    a' = withLocation (prev :: rest) (navigate prev a).
Proof.
  unfold goBack. destruct (location a) as [|top [|prev rest]] eqn:Hl; try discriminate.
  intros [= <-]. by exists top, prev, rest.
Qed.

Lemma navigate_location path a : location (navigate path a) = path :: location a.
Proof. unfold navigate. by destruct (route path) as [[]|], (page a). Qed.

(** A property that ignores the history stack and that every push
    preserves is preserved by Back. *)
Lemma goBack_preserves (P : App → Prop) :
  (∀ l b, P b → P (withLocation l b)) → (∀ path b, P b → P (navigate path b)) →
  ∀ a a', goBack a = Some a' → P a → P a'.
Proof.
  intros Hl Hn a a' (top & prev & rest & _ & ->)%goBack_inv Ha. by apply Hl, Hn.
Qed.

Section StepLemmas.
Context (String_of_number : Q → string).

Lemma step_user_page a e a' s :
  page a = PageCreatePoint s → isSettle e = false →
  (∀ to, e ≠ ClickLink to) →
  step String_of_number a e = Some a' →
  ∃ s' rs, userEvent String_of_number e s = Some (s', rs) ∧
    a' = withPending (pending a ++ map (mkPending (mountId a)) rs)
           (withPage (PageCreatePoint s') a).
Proof.
  intros Hp Hs Hl. unfold step. rewrite Hp.
  destruct e as [to|uf|city|ev|id|name value|f| |i o]; try discriminate;
    [by destruct (Hl to)|..];
    (destruct (userEvent _ _ s) as [[s' rs]|]; simpl; [|discriminate]);
    intros [= <-]; eauto.
Qed.





(** After a user event, the page is the one before, a page navigated to,
    or the mounted form's state after one handler. *)
Lemma step_user_page_cases a e a' :
  isSettle e = false → step String_of_number a e = Some a' →
  page a' = page a ∨ page a' = PageHome ∨ page a' = PageNotFound ∨
  page a' = PageCreatePoint initialState ∨
  (∃ s s' rs, page a = PageCreatePoint s ∧ userEvent String_of_number e s = Some (s', rs) ∧
     page a' = PageCreatePoint s').
Proof.
  intros Hs H. revert H. destruct (page a) as [|s|] eqn:Hp; intros H.
  - destruct e; try discriminate; unfold step in H; rewrite Hp in H; try discriminate.
    case_match; [|discriminate]. injection H as <-.
    destruct (navigate_page to a) as [H|[H|[H|H]]]; rewrite H; auto.
  - destruct e as [to|uf|city|ev|id|name value|f| |i o]; try discriminate;
      [unfold step in H; rewrite Hp in H; case_match; [|discriminate];
       injection H as <-;
       destruct (navigate_page to a) as [H|[H|[H|H]]]; rewrite H; auto|..];
      (apply (step_user_page _ _ _ s) in H as (s' & rs & Hu & ->); [|done|done|naive_solver];
       right; right; right; right; eauto 10).
  - destruct e; try discriminate; unfold step in H; rewrite Hp in H; discriminate.
Qed.

(** After the settlement of the request [p], the page is the one before,
    the landing page (a post that succeeded), or the mounted form's state
    after the callback of [p] on that outcome. *)
Lemma settle_page_cases a i o a' p :
  pending a !! i = Some p → settle i o a = Some a' →
  page a' = page a ∨ page a' = PageHome ∨ page a' = PageNotFound ∨
  page a' = PageCreatePoint initialState ∨
  (∃ s s', page a = PageCreatePoint s ∧ settleState (p_req p) o s = Some s' ∧
     page a' = PageCreatePoint s').
Proof.
  intros Hi H. apply settle_inv in H as (p' & Hi' & _ & Hcase).
  rewrite Hi in Hi'. injection Hi' as <-.
  destruct Hcase as [[_ ->]|[[_ ->]|(_ & _ & [(s & s' & Hp & _ & Hst & ->)|[_ ->]])]].
  - by left.
  - destruct (navigate_page "/" (addAlert createdAlert
      (withPending (delete i (pending a)) a))) as [H|[H|[H|H]]]; rewrite H; auto.
  - right; right; right; right. eauto 10.
  - by left.
Qed.

(** The state of the mounted [CreatePoint] is, after any transition, the
    state at mount, the state before, or the result of one user handler or
    of the callback of one settled request applied to the state before. *)
Lemma step_page a e a' :
  step String_of_number a e = Some a' →
  page a' = page a ∨ page a' = PageHome ∨ page a' = PageNotFound ∨
  page a' = PageCreatePoint initialState ∨
  (∃ s s' rs, page a = PageCreatePoint s ∧ userEvent String_of_number e s = Some (s', rs) ∧
     page a' = PageCreatePoint s') ∨
  (∃ i o p s s', e = Settle i o ∧ pending a !! i = Some p ∧ page a = PageCreatePoint s ∧
     settleState (p_req p) o s = Some s' ∧ page a' = PageCreatePoint s').
Proof.
  intros H. destruct (isSettle e) eqn:Hs.
  - destruct e as [to|uf|city|ev|id|name value|f| |i o]; try discriminate.
    destruct (pending a !! i) as [p|] eqn:Hi;
      [|unfold step, settle in H; by rewrite Hi in H].
    destruct (settle_page_cases _ _ _ _ _ Hi H) as [?|[?|[?|[?|(s & s' & ? & ? & ?)]]]];
      [tauto..|]. do 5 right. exists i, o, p, s, s'. done.
  - destruct (step_user_page_cases _ _ _ Hs H) as [?|[?|[?|[?|?]]]]; tauto.
Qed.

(** A transition keeps the history, or pushes a path the route table
    knows: a link of the page, or the redirect after a post. *)
Lemma step_location a e a' :
  step String_of_number a e = Some a' →
  location a' = location a ∨ ∃ path, route path ≠ None ∧ location a' = path :: location a.
Proof.
  intros H. destruct (isSettle e) eqn:Hs.
  - destruct e as [to|uf|city|ev|id|name value|f| |i o]; try discriminate.
    unfold step in H. apply settle_inv in H as (p & _ & _ & Hcase).
    destruct Hcase as [[_ ->]|[[_ ->]|(_ & _ & [(s & s' & _ & _ & _ & ->)|[_ ->]])]];
      [by left|right; exists "/"; by rewrite navigate_location|by left|by left].
  - destruct (page a) as [|s|] eqn:Hpg.
    + destruct e; try discriminate; unfold step in H; rewrite Hpg in H; try discriminate.
      destruct (String.eqb_spec to homeLink) as [->|]; [|discriminate].
      injection H as <-. right. exists homeLink. by rewrite navigate_location.
    + destruct e as [to|uf|city|ev|id|name value|f| |i o]; try discriminate;
        [unfold step in H; rewrite Hpg in H;
         destruct (String.eqb_spec to backLink) as [->|]; [|discriminate];
         injection H as <-; right; exists backLink; by rewrite navigate_location|..];
        (destruct (step_user_page _ _ _ s Hpg Hs ltac:(by intros ? [=]) H)
           as (s' & rs & Hu & ->)); by left.
    + destruct e; try discriminate; unfold step in H; rewrite Hpg in H; discriminate.
Qed.

(** Inversion of [userEvent]: which handler ran, under which guard, and
    which requests its effects issued. *)
Lemma userEvent_cases e s s' rs :
  userEvent String_of_number e s = Some (s', rs) →
  (∃ uf, e = SelectUf uf ∧ uf ∈ ufOptions s ∧ s' = handleSelectUf uf s ∧
     rs = if String.eqb (selectedUf s) uf then []
          else match ufEffect uf with Some u => [ReqCities u] | None => [] end) ∨
  (∃ c, e = SelectCity c ∧ (c ∈ cityOptions s ∧ displayedCity s ≠ Some c) ∧
     s' = handleSelectCity c s ∧ rs = []) ∨
  (∃ ev, e = MapClick ev ∧ s' = handleMapClick ev s ∧ rs = []) ∨
  (∃ i, e = SelectItem i ∧ i ∈ itemIds s ∧ s' = handleSelectItem i s ∧ rs = []) ∨
  (∃ n v, e = InputChange n v ∧ n ∈ inputNames ∧
     s' = handleInputChange n (inputValue n v) s ∧ rs = []) ∨
  (∃ f, e = FileUploaded f ∧ s' = onFileUploaded f s ∧ rs = []) ∨
  (e = Submit ∧ formValid s = true ∧ s' = s ∧
     rs = [ReqPost (buildFormData String_of_number s)]).
Proof.
  destruct e as [to|uf|city|ev|id|name value|f| |i o]; simpl; try discriminate;
    repeat case_decide; try discriminate.
  - intros Hu. left. exists uf.
    destruct (String.eqb (selectedUf s) uf); injection Hu as <- <-; done.
  - intros [= <- <-]. right; left. eauto.
  - intros [= <- <-]. right; right; left. eauto.
  - intros [= <- <-]. do 3 right; left. eauto.
  - intros [= <- <-]. do 4 right; left. eauto 10.
  - intros [= <- <-]. do 5 right; left. eauto.
  - destruct (formValid s) eqn:Hv; [|discriminate].
    intros [= <- <-]. do 6 right. done.
Qed.

End StepLemmas.

(** ** Invariants of the mounted form *)

Section PageInvariant.
Context (String_of_number : Q → string) (svc : Services) (Ps : State → Prop).
Hypothesis Ps_init : Ps initialState.
Hypothesis Ps_user : ∀ e s s' rs,
  userEvent String_of_number e s = Some (s', rs) → Ps s → Ps s'.
Hypothesis Ps_settle : ∀ r o s s',
  answers svc r o = true → settleState r o s = Some s' → Ps s → Ps s'.

(** A property of the form state that holds at mount and that every
    handler and every callback on an answer of the services preserves
    holds in every reachable application whose mounted page is the form. *)
Lemma page_invariant a :
  reachable String_of_number svc a → ∀ s, page a = PageCreatePoint s → Ps s.
Proof.
  intros Hr.
  apply (rtc_invariant (sstep String_of_number svc)
           (λ a, ∀ s, page a = PageCreatePoint s → Ps s) initialApp);
    [by intros ? [=]| |done].
  intros b c Hbc Hb s Hc. destruct Hbc as [b e c He Hst|b i p o c Hi Ha Hst|b c Hst].
  - destruct (step_user_page_cases _ _ _ _ He Hst) as
      [H|[H|[H|[H|(s0 & s' & rs & H0 & Hu & H)]]]]; rewrite Hc in H; try discriminate.
    + by apply Hb.
    + by injection H as ->.
    + injection H as <-. eauto.
  - destruct (settle_page_cases _ _ _ _ _ Hi Hst) as
      [H|[H|[H|[H|(s0 & s' & H0 & Hu & H)]]]]; rewrite Hc in H; try discriminate.
    + by apply Hb.
    + by injection H as ->.
    + injection H as <-. eauto.
  - revert s Hc.
    refine (goBack_preserves (λ a, ∀ s, page a = PageCreatePoint s → Ps s) _ _ b c Hst Hb);
      [done|]. intros path d Hd s0 Hs0.
    destruct (navigate_page path d) as [H|[H|[H|H]]]; rewrite Hs0 in H; try discriminate;
      [by apply Hd|by injection H as ->].
Qed.

End PageInvariant.

(** ** Behaviour of single events *)

Section Events.
Context (String_of_number : Q → string).

(** C4: choosing a state different from the current one and from the
    placeholder issues exactly one request, for that state's cities, tagged
    with the current mount (lines 79-83). *)
Theorem selectUf_fetches a s uf :
  page a = PageCreatePoint s → uf ∈ ufs s → uf ≠ "0" → uf ≠ selectedUf s →
  step String_of_number a (SelectUf uf) =
  Some (withPending (pending a ++ [mkPending (mountId a) (ReqCities uf)])
          (withPage (PageCreatePoint (handleSelectUf uf s)) a)).
Proof.
  intros Hp Hin H0 Hne. unfold step. rewrite Hp. unfold userEvent.
  rewrite decide_True by (by right).
  rewrite (proj2 (String.eqb_neq _ _)) by congruence.
  unfold ufEffect. destruct (String.eqb uf "0") eqn:E; [|reflexivity].
  by apply String.eqb_eq in E.
Qed.

(** C3: choosing the placeholder option ['0'] updates [selectedUf] and
    issues no request (spec, section 8: the placeholder never triggers a
    city fetch; lines 76-78). *)
Theorem selectUf_placeholder a s :
  page a = PageCreatePoint s →
  step String_of_number a (SelectUf "0") =
  Some (withPage (PageCreatePoint (handleSelectUf "0" s)) a).
Proof.
  intros Hp. unfold step. rewrite Hp. unfold userEvent.
  rewrite decide_True by (by left).
  destruct (String.eqb (selectedUf s) "0"); simpl;
    unfold withPending, withPage; simpl; by rewrite app_nil_r.
Qed.



Lemma step_selectUf_new a s uf :
  page a = PageCreatePoint s → uf ∈ ufs s → uf ≠ "0" → uf ≠ selectedUf s →
  step String_of_number a (SelectUf uf) =
  Some (withPending (pending a ++ [mkPending (mountId a) (ReqCities uf)])
          (withPage (PageCreatePoint (handleSelectUf uf s)) a)).
Proof.
  intros Hp Hin H0 Hne. unfold step. rewrite Hp. unfold userEvent.
  rewrite decide_True by (by right).
  rewrite (proj2 (String.eqb_neq _ _)) by congruence.
  unfold ufEffect. by rewrite (proj2 (String.eqb_neq _ _)) by done.
Qed.



(** C5: when a city request of the mounted form succeeds, the city list
    becomes exactly the names the service returned, in its order, whatever
    it was before (spec, section 8; lines 79-82). *)
Theorem settle_cities_replaces a s i uf d :
  page a = PageCreatePoint s →
  pending a !! i = Some (mkPending (mountId a) (ReqCities uf)) →
  step String_of_number a (Settle i (CitiesData d)) =
  Some (withPending (delete i (pending a))
          (withPage (PageCreatePoint (setCities (map nome d) s)) a)).
Proof.
  intros Hp Hi. unfold step, settle. rewrite Hi. simpl. rewrite Hp.
  by rewrite decide_True.
Qed.

Lemma step_settle_cities a s i uf d :
  page a = PageCreatePoint s →
  pending a !! i = Some (mkPending (mountId a) (ReqCities uf)) →
  step String_of_number a (Settle i (CitiesData d)) =
  Some (withPending (delete i (pending a))
          (withPage (PageCreatePoint (setCities (map nome d) s)) a)).
Proof.
  intros Hp Hi. unfold step, settle. rewrite Hi. simpl. rewrite Hp.
  by rewrite decide_True.
Qed.

(** A rejected request is dropped and nothing else changes: no handler
    observes the failure (spec, section 7). *)
Lemma settle_rejected a i p :
  pending a !! i = Some p →
  step String_of_number a (Settle i Rejected) = Some (withPending (delete i (pending a)) a).
Proof.
  intros Hi. unfold step, settle. rewrite Hi. simpl. by destruct (p_req p).
Qed.

(** C10: when the post of [handleSubmit] is rejected, no acknowledgement
    is shown and the user is not redirected: the page, the history and the
    alerts stay as they were (the [await] on line 142 throws before lines
    144-146). *)
Theorem post_rejected_silent a i m data a' :
  pending a !! i = Some (mkPending m (ReqPost data)) →
  step String_of_number a (Settle i Rejected) = Some a' →
  page a' = page a ∧ location a' = location a ∧ alerts a' = alerts a.
Proof.
  intros Hi. rewrite (settle_rejected _ _ _ Hi). by intros [= <-].
Qed.

(** C11: when the post succeeds, the acknowledgement is shown and the
    landing page is mounted, whichever page was mounted (lines 144-146). *)
Theorem post_done_redirects a i m data :
  pending a !! i = Some (mkPending m (ReqPost data)) →
  ∃ a', step String_of_number a (Settle i PostDone) = Some a' ∧
    alerts a' = alerts a ++ [createdAlert] ∧ location a' = "/" :: location a ∧
    page a' = PageHome ∧ pending a' = delete i (pending a).
Proof.
  intros Hi. unfold step, settle. rewrite Hi. simpl. eexists. split; [done|].
  unfold navigate. simpl. by destruct (page a).
Qed.

(** C14: a map click replaces the selected position by the clicked
    coordinates, whatever it was, and issues no request (spec, section 8;
    lines 95-100). *)
Theorem mapClick_replaces a s e :
  page a = PageCreatePoint s →
  ∃ s', step String_of_number a (MapClick e) = Some (withPage (PageCreatePoint s') a) ∧
    selectedPosition s' = (lat e, lng e) ∧ s' = setSelectedPosition (lat e, lng e) s.
Proof.
  intros Hp. unfold step. rewrite Hp. simpl. eexists. split.
  - unfold withPending, withPage. simpl. by rewrite app_nil_r.
  - split; reflexivity.
Qed.

End Events.

(** ** Invariants of every reachable application *)

Lemma settleState_cases r o s s' :
  settleState r o s = Some s' →
  (∃ la lo, s' = onGeolocation la lo s) ∨ (∃ d, s' = onItems d s) ∨
  (∃ d, s' = onUfs d s) ∨ (∃ d, s' = onCities d s).
Proof. destruct r, o; simpl; intros [=]; subst; eauto 10. Qed.

Ltac userEvent_inv H :=
  apply userEvent_cases in H as
    [(?uf & ? & ? & -> & ?)|[(?c & ? & ? & -> & ?)|[(?ev & ? & -> & ?)|
     [(?i & ? & ? & -> & ?)|[(?n & ?v & ? & ? & -> & ?)|[(?f & ? & -> & ?)|
     (? & ? & -> & ?)]]]]]].

Ltac settleState_inv H :=
  apply settleState_cases in H as
    [(? & ? & ->)|[(? & ->)|[(? & ->)|(? & ->)]]].

Section Reachable.
Context (String_of_number : Q → string) (svc : Services).

(** C16: in every reachable state of the form, [formData] has exactly the
    keys [name], [email] and [whatsapp]: [handleInputChange] is only wired
    to inputs with those names, so the computed key of line 115 never adds
    a key, and [handleSubmit] never reads [undefined] (line 121). *)
Theorem reachable_formData_keys a s :
  reachable String_of_number svc a → page a = PageCreatePoint s →
  dom (formData s) = list_to_set inputNames.
Proof.
  intros Hr. apply (page_invariant String_of_number svc
    (λ s, dom (formData s) = list_to_set inputNames)); [| | |done].
  - simpl. unfold initialFormData. rewrite !dom_insert_L, dom_empty_L. set_solver.
  - intros e s0 s' rs Hu H. userEvent_inv Hu; simpl; try done.
    rewrite dom_insert_L, H.
    assert (n ∈ (list_to_set inputNames : gset string)) by
      (apply elem_of_list_to_set; done).
    set_solver.
  - intros r o s0 s' _ Hs H. settleState_inv Hs; done.
Qed.

(** C15: in every reachable state of the form, the selected ids are
    pairwise distinct, so the [items] field never repeats an id. *)
Theorem reachable_selectedItems_NoDup a s :
  reachable String_of_number svc a → page a = PageCreatePoint s →
  NoDup (selectedItems s).
Proof.
  intros Hr. apply (page_invariant String_of_number svc
    (λ s, NoDup (selectedItems s))); [| | |done].
  - constructor.
  - intros e s0 s' rs Hu H. userEvent_inv Hu; simpl; try done.
    by apply Selection.NoDup_toggleItem.
  - intros r o s0 s' _ Hs H. settleState_inv Hs; done.
Qed.

End Reachable.

(** ** Interleavings *)

Section Interleavings.
Context (String_of_number : Q → string) (svc : Services).

Lemma answers_cities uf : answers svc (ReqCities uf) (CitiesData (svcCities svc uf)) = true.
Proof. simpl. by apply bool_decide_eq_true_2. Qed.

Lemma answers_ufs : answers svc ReqUfs (UfsData (svcUfs svc)) = true.
Proof. simpl. by apply bool_decide_eq_true_2. Qed.

(** C7: the city list can be stale.  If two different states, neither the
    placeholder, have different city lists, the user can pick the first and
    then the second, and the answers can arrive in the opposite order: the
    form then shows the first state's cities while the second is selected,
    with no request left in flight to correct it (spec, sections 5 and 9:
    "last-writer-wins on arrival"; lines 75-83 keep no request tag). *)
Theorem cities_race uf1 uf2 :
  uf1 ∈ map sigla (svcUfs svc) → uf2 ∈ map sigla (svcUfs svc) →
  uf1 ≠ "0" → uf2 ≠ "0" → uf1 ≠ uf2 →
  map nome (svcCities svc uf1) ≠ map nome (svcCities svc uf2) →
  ∃ a s, reachable String_of_number svc a ∧ page a = PageCreatePoint s ∧
    selectedUf s = uf2 ∧ cities s = map nome (svcCities svc uf1) ∧
    cities s ≠ map nome (svcCities svc (selectedUf s)) ∧
    (∀ p, p ∈ pending a → ∀ u, p_req p ≠ ReqCities u).
Proof.
  intros H1 H2 N1 N2 N12 Nc.
  set (a1 := navigate "/create-point" initialApp).
  set (s2 := setUfs (map sigla (svcUfs svc)) initialState).
  set (a2 := withPending (map (mkPending 1) [ReqGeolocation; ReqItems])
               (withPage (PageCreatePoint s2) a1)).
  set (s3 := handleSelectUf uf1 s2).
  set (a3 := withPending (pending a2 ++ [mkPending 1 (ReqCities uf1)])
               (withPage (PageCreatePoint s3) a2)).
  set (s4 := handleSelectUf uf2 s3).
  set (a4 := withPending (pending a3 ++ [mkPending 1 (ReqCities uf2)])
               (withPage (PageCreatePoint s4) a3)).
  set (s5 := setCities (map nome (svcCities svc uf2)) s4).
  set (a5 := withPending (delete 3%nat (pending a4)) (withPage (PageCreatePoint s5) a4)).
  set (s6 := setCities (map nome (svcCities svc uf1)) s5).
  set (a6 := withPending (delete 2%nat (pending a5)) (withPage (PageCreatePoint s6) a5)).
  exists a6, s6. split_and!; [|done|done|done|done|].
  - apply (rtc_l _ _ a1); [by eapply (sstep_user _ _ _ (ClickLink homeLink))|].
    apply (rtc_l _ _ a2);
      [eapply (sstep_settle _ _ _ 2); [done|apply answers_ufs|done]|].
    apply (rtc_l _ _ a3);
      [eapply (sstep_user _ _ _ (SelectUf uf1)); [done|apply step_selectUf_new; done]|].
    apply (rtc_l _ _ a4);
      [eapply (sstep_user _ _ _ (SelectUf uf2)); [done|apply step_selectUf_new; simpl; done]|].
    apply (rtc_l _ _ a5); [eapply (sstep_settle _ _ _ 3); [done|apply answers_cities|
      apply (step_settle_cities _ a4 s4 3 uf2); done]|].
    apply (rtc_l _ _ a6); [eapply (sstep_settle _ _ _ 2); [done|apply answers_cities|
      apply (step_settle_cities _ a5 s5 2 uf1); done]|].
    apply rtc_refl.
  - intros p Hp u. simpl in Hp. repeat (apply elem_of_cons in Hp as [->|Hp]; [done|]).
    by apply elem_of_nil in Hp.
Qed.

(** The events of a second form filled while the first one's post is in
    flight. *)
Definition staleSubmitTrace : list Event :=
  [ClickLink homeLink; InputChange "name" "A"; Submit; ClickLink backLink;
   ClickLink homeLink; InputChange "name" "B"].

(** C12: a successful post of an earlier form unmounts a newer form.  The
    user fills in a name, submits, goes back, opens the form again and
    types another name; the earlier form's post is still in flight.  When
    it succeeds, [handleSubmit]'s continuation still runs (lines 144-146):
    the alert is shown and the landing page replaces the new form. *)
Theorem stale_post_discards_new_form :
  ∃ a a' s i m d, reachable String_of_number svc a ∧ page a = PageCreatePoint s ∧
    formData s !! "name" = Some "B" ∧
    pending a !! i = Some (mkPending m (ReqPost d)) ∧ (m < mountId a)%nat ∧
    getString "name" d = Some "A" ∧
    step String_of_number a (Settle i PostDone) = Some a' ∧
    sstep String_of_number svc a a' ∧
    alerts a' = alerts a ++ [createdAlert] ∧ page a' = PageHome.
Proof.
  set (a := default initialApp (runChecked String_of_number svc initialApp staleSubmitTrace)).
  set (a' := default a (step String_of_number a (Settle 3 PostDone))).
  assert (Hr : reachable String_of_number svc a).
  { apply (runChecked_reachable String_of_number svc staleSubmitTrace). unfold a.
    vm_compute. reflexivity. }
  assert (Hs : step String_of_number a (Settle 3 PostDone) = Some a')
    by (unfold a', a; vm_compute; reflexivity).
  exists a, a'. eexists _, 3%nat, _, _. split_and!;
    [exact Hr|unfold a; vm_compute; reflexivity|reflexivity|unfold a; vm_compute; reflexivity
    |unfold a; vm_compute; lia|reflexivity|exact Hs| |unfold a', a; vm_compute; reflexivity
    |unfold a', a; vm_compute; reflexivity].
  eapply (sstep_settle _ _ _ 3 _ PostDone); [unfold a; vm_compute; reflexivity|reflexivity|exact Hs].
Qed.

End Interleavings.

(** ** Concrete applications, and the witnesses of the theorems above *)

Definition exampleFormat : Q → string := λ _, "0".

Definition exampleServices : Services := mkServices
  [mkItem 2 "Papeis e Papelao" "papeis-papelao.svg"]
  [mkUf "SP"; mkUf "RJ"]
  (λ uf, if String.eqb uf "SP" then [mkCity "Campinas"; mkCity "Santos"]
         else if String.eqb uf "RJ" then [mkCity "Rio de Janeiro"] else []).

(** The form just mounted, its state list loaded, a state chosen. *)
Definition exMounted : App := navigate homeLink initialApp.
Definition exUfsState : State := setUfs ["SP"; "RJ"] initialState.
Definition exUfs : App := withPage (PageCreatePoint exUfsState) exMounted.
Definition exAsked : App :=
  withPending (pending exUfs ++ [mkPending 1 (ReqCities "SP")])
    (withPage (PageCreatePoint (handleSelectUf "SP" exUfsState)) exUfs).
Definition exPosted : App := withPending [mkPending 1 (ReqPost [])] exMounted.

Lemma selectUf_placeholder_witness :
  page exMounted = PageCreatePoint initialState ∧
  step exampleFormat exMounted (SelectUf "0") =
  Some (withPage (PageCreatePoint (handleSelectUf "0" initialState)) exMounted).
Proof.
  assert (Hp : page exMounted = PageCreatePoint initialState) by reflexivity.
  split; [exact Hp | exact (selectUf_placeholder _ _ _ Hp)].
Defined.

Lemma selectUf_fetches_witness :
  page exUfs = PageCreatePoint exUfsState ∧ "SP" ∈ ufs exUfsState ∧ "SP" ≠ "0" ∧
  "SP" ≠ selectedUf exUfsState ∧
  step exampleFormat exUfs (SelectUf "SP") =
  Some (withPending (pending exUfs ++ [mkPending (mountId exUfs) (ReqCities "SP")])
          (withPage (PageCreatePoint (handleSelectUf "SP" exUfsState)) exUfs)).
Proof.
  assert (Hp : page exUfs = PageCreatePoint exUfsState) by reflexivity.
  assert (Hin : "SP" ∈ ufs exUfsState) by (by left).
  assert (H0 : "SP" ≠ "0") by discriminate.
  assert (Hne : "SP" ≠ selectedUf exUfsState) by discriminate.
  split_and!; [exact Hp|exact Hin|exact H0|exact Hne|].
  exact (selectUf_fetches _ _ _ _ Hp Hin H0 Hne).
Defined.

Lemma settle_cities_replaces_witness :
  let s := handleSelectUf "SP" exUfsState in
  page exAsked = PageCreatePoint s ∧
  pending exAsked !! 3%nat = Some (mkPending (mountId exAsked) (ReqCities "SP")) ∧
  step exampleFormat exAsked (Settle 3 (CitiesData [mkCity "Campinas"])) =
  Some (withPending (delete 3%nat (pending exAsked))
          (withPage (PageCreatePoint (setCities ["Campinas"] s)) exAsked)).
Proof.
  assert (Hp : page exAsked = PageCreatePoint (handleSelectUf "SP" exUfsState)) by reflexivity.
  assert (Hi : pending exAsked !! 3%nat = Some (mkPending (mountId exAsked) (ReqCities "SP")))
    by reflexivity.
  split_and!; [exact Hp|exact Hi|].
  exact (settle_cities_replaces _ _ _ _ _ [mkCity "Campinas"] Hp Hi).
Defined.

Lemma post_rejected_silent_witness :
  pending exPosted !! 0%nat = Some (mkPending 1 (ReqPost [])) ∧
  step exampleFormat exPosted (Settle 0 Rejected) = Some (withPending [] exMounted) ∧
  page (withPending [] exMounted) = page exPosted ∧
  location (withPending [] exMounted) = location exPosted ∧
  alerts (withPending [] exMounted) = alerts exPosted.
Proof.
  assert (Hi : pending exPosted !! 0%nat = Some (mkPending 1 (ReqPost []))) by reflexivity.
  assert (Hs : step exampleFormat exPosted (Settle 0 Rejected) = Some (withPending [] exMounted))
    by reflexivity.
  split_and!; [exact Hi|exact Hs|..]; apply (post_rejected_silent _ _ _ _ _ _ Hi Hs).
Defined.

Lemma post_done_redirects_witness :
  pending exPosted !! 0%nat = Some (mkPending 1 (ReqPost [])) ∧
  ∃ a', step exampleFormat exPosted (Settle 0 PostDone) = Some a' ∧
    alerts a' = alerts exPosted ++ [createdAlert] ∧ location a' = "/" :: location exPosted ∧
    page a' = PageHome ∧ pending a' = delete 0%nat (pending exPosted).
Proof.
  assert (Hi : pending exPosted !! 0%nat = Some (mkPending 1 (ReqPost []))) by reflexivity.
  split; [exact Hi | exact (post_done_redirects _ _ _ _ _ Hi)].
Defined.

Lemma mapClick_replaces_witness :
  page exMounted = PageCreatePoint initialState ∧
  ∃ s', step exampleFormat exMounted (MapClick (mkLatLng (-23) (-46))) =
      Some (withPage (PageCreatePoint s') exMounted) ∧
    selectedPosition s' = ((-23)%Q, (-46)%Q) ∧
    s' = setSelectedPosition ((-23)%Q, (-46)%Q) initialState.
Proof.
  assert (Hp : page exMounted = PageCreatePoint initialState) by reflexivity.
  split; [exact Hp | exact (mapClick_replaces _ _ _ (mkLatLng (-23) (-46)) Hp)].
Defined.

(** A reachable form: the items arrived, one item was ticked, a name typed. *)
Definition exTrace : list Event :=
  [ClickLink homeLink; Settle 1 (ItemsData (svcItems exampleServices)); SelectItem 2;
   InputChange "name" "Ecoponto"].
Definition exApp : App :=
  default initialApp (runChecked exampleFormat exampleServices initialApp exTrace).
Definition exState : State :=
  match page exApp with PageCreatePoint s => s | _ => initialState end.

Lemma exApp_reachable : reachable exampleFormat exampleServices exApp.
Proof. apply (runChecked_reachable _ _ exTrace). vm_compute. reflexivity. Qed.

Lemma exApp_page : page exApp = PageCreatePoint exState.
Proof. vm_compute. reflexivity. Qed.

Lemma reachable_formData_keys_witness :
  reachable exampleFormat exampleServices exApp ∧ page exApp = PageCreatePoint exState ∧
  dom (formData exState) = list_to_set inputNames.
Proof.
  split_and!; [exact exApp_reachable|exact exApp_page|].
  exact (reachable_formData_keys _ _ _ _ exApp_reachable exApp_page).
Defined.

Lemma reachable_selectedItems_NoDup_witness :
  reachable exampleFormat exampleServices exApp ∧ page exApp = PageCreatePoint exState ∧
  NoDup (selectedItems exState).
Proof.
  split_and!; [exact exApp_reachable|exact exApp_page|].
  exact (reachable_selectedItems_NoDup _ _ _ _ exApp_reachable exApp_page).
Defined.

Lemma cities_race_witness :
  "SP" ∈ map sigla (svcUfs exampleServices) ∧ "RJ" ∈ map sigla (svcUfs exampleServices) ∧
  ∃ a s, reachable exampleFormat exampleServices a ∧ page a = PageCreatePoint s ∧
    selectedUf s = "RJ" ∧ cities s = map nome (svcCities exampleServices "SP") ∧
    cities s ≠ map nome (svcCities exampleServices (selectedUf s)) ∧
    (∀ p, p ∈ pending a → ∀ u, p_req p ≠ ReqCities u).
Proof.
  assert (H1 : "SP" ∈ map sigla (svcUfs exampleServices)) by (by left).
  assert (H2 : "RJ" ∈ map sigla (svcUfs exampleServices)) by (by right; left).
  split_and!; [exact H1|exact H2|].
  apply (cities_race exampleFormat exampleServices "SP" "RJ" H1 H2);
    [discriminate|discriminate|discriminate|vm_compute; discriminate].
Defined.

(** ** The city sent with the form *)

Section CityField.
Context (String_of_number : Q → string) (svc : Services).

(** C13: the form can send the placeholder city.  After a state is chosen
    and its cities arrive, the city select shows the first city, but
    [selectedCity] is still its initial ['0'] until the user changes the
    select; submitting then sends [city = '0'], a value that is not one of
    the options (lines 39, 133, 220-224). *)
Theorem city_placeholder_submitted uf :
  uf ∈ map sigla (svcUfs svc) → uf ≠ "0" → svcCities svc uf ≠ [] →
  "0" ∉ map nome (svcCities svc uf) →
  ∃ a s, reachable String_of_number svc a ∧ page a = PageCreatePoint s ∧
    selectedUf s = uf ∧ cityOptions s = map nome (svcCities svc uf) ∧
    displayedCity s = head (map nome (svcCities svc uf)) ∧
    getString "city" (buildFormData String_of_number s) = Some "0" ∧
    "0" ∉ cityOptions s.
Proof.
  intros Huf H0 Hne Hn0.
  set (a1 := navigate "/create-point" initialApp).
  set (s2 := setUfs (map sigla (svcUfs svc)) initialState).
  set (a2 := withPending (map (mkPending 1) [ReqGeolocation; ReqItems])
               (withPage (PageCreatePoint s2) a1)).
  set (s3 := handleSelectUf uf s2).
  set (a3 := withPending (pending a2 ++ [mkPending 1 (ReqCities uf)])
               (withPage (PageCreatePoint s3) a2)).
  set (s4 := setCities (map nome (svcCities svc uf)) s3).
  set (a4 := withPending (delete 2%nat (pending a3)) (withPage (PageCreatePoint s4) a3)).
  exists a4, s4. split_and!; [|done|done|done| |done|done].
  - apply (rtc_l _ _ a1); [by eapply (sstep_user _ _ _ (ClickLink homeLink))|].
    apply (rtc_l _ _ a2);
      [eapply (sstep_settle _ _ _ 2); [done|apply answers_ufs|done]|].
    apply (rtc_l _ _ a3);
      [eapply (sstep_user _ _ _ (SelectUf uf)); [done|apply step_selectUf_new; done]|].
    apply (rtc_l _ _ a4); [eapply (sstep_settle _ _ _ 2); [done|apply answers_cities|
      apply (step_settle_cities _ a3 s3 2 uf); done]|].
    apply rtc_refl.
  - unfold displayedCity. rewrite decide_False by done. done.
Qed.

(** C21: the city is not reset when the state changes.  The user picks
    a city [c] of one state (a city other than the first, which the
    select already shows, so that picking it fires a [change] event);
    choosing another state and receiving its cities keeps [c] in
    [selectedCity] (no effect or handler resets it, lines 75-93).  The
    payload then pairs the new state with a city of the old one, while
    the select shows the new state's first city. *)
Theorem city_stale_after_uf_change uf1 uf2 c :
  uf1 ∈ map sigla (svcUfs svc) → uf2 ∈ map sigla (svcUfs svc) →
  uf1 ≠ "0" → uf2 ≠ "0" → uf1 ≠ uf2 →
  "0" ∉ map nome (svcCities svc uf1) →
  c ∈ map nome (svcCities svc uf1) → (head (map nome (svcCities svc uf1)) ≠ Some c) →
  c ∉ map nome (svcCities svc uf2) →
  ∃ a s, reachable String_of_number svc a ∧ page a = PageCreatePoint s ∧
    getString "uf" (buildFormData String_of_number s) = Some uf2 ∧
    getString "city" (buildFormData String_of_number s) = Some c ∧
    cityOptions s = map nome (svcCities svc uf2) ∧ (c ∉ cityOptions s) ∧
    displayedCity s = head (map nome (svcCities svc uf2)).
Proof.
  intros H1 H2 N1 N2 N12 H0 Hc1 Hhd Hc2.
  set (a1 := navigate "/create-point" initialApp).
  set (s2 := setUfs (map sigla (svcUfs svc)) initialState).
  set (a2 := withPending (map (mkPending 1) [ReqGeolocation; ReqItems])
               (withPage (PageCreatePoint s2) a1)).
  set (s3 := handleSelectUf uf1 s2).
  set (a3 := withPending (pending a2 ++ [mkPending 1 (ReqCities uf1)])
               (withPage (PageCreatePoint s3) a2)).
  set (s4 := setCities (map nome (svcCities svc uf1)) s3).
  set (a4 := withPending (delete 2%nat (pending a3)) (withPage (PageCreatePoint s4) a3)).
  set (s5 := handleSelectCity c s4).
  set (a5 := withPending (pending a4 ++ []) (withPage (PageCreatePoint s5) a4)).
  set (s6 := handleSelectUf uf2 s5).
  set (a6 := withPending (pending a5 ++ [mkPending 1 (ReqCities uf2)])
               (withPage (PageCreatePoint s6) a5)).
  set (s7 := setCities (map nome (svcCities svc uf2)) s6).
  set (a7 := withPending (delete 2%nat (pending a6)) (withPage (PageCreatePoint s7) a6)).
  exists a7, s7. split_and!; [|done|done|done|done|done|].
  2: { unfold displayedCity. by rewrite decide_False. }
  apply (rtc_l _ _ a1); [by eapply (sstep_user _ _ _ (ClickLink homeLink))|].
  apply (rtc_l _ _ a2);
    [eapply (sstep_settle _ _ _ 2); [done|apply answers_ufs|done]|].
  apply (rtc_l _ _ a3);
    [eapply (sstep_user _ _ _ (SelectUf uf1)); [done|apply step_selectUf_new; done]|].
  apply (rtc_l _ _ a4); [eapply (sstep_settle _ _ _ 2); [done|apply answers_cities|
    apply (step_settle_cities _ a3 s3 2 uf1); done]|].
  apply (rtc_l _ _ a5).
  { eapply (sstep_user _ _ _ (SelectCity c)); [done|].
    unfold step, userEvent. simpl. rewrite decide_True; [done|]. split; [done|].
    unfold displayedCity. by rewrite decide_False. }
  apply (rtc_l _ _ a6);
    [eapply (sstep_user _ _ _ (SelectUf uf2)); [done|apply step_selectUf_new; simpl; done]|].
  apply (rtc_l _ _ a7); [eapply (sstep_settle _ _ _ 2); [done|apply answers_cities|
    apply (step_settle_cities _ a6 s6 2 uf2); done]|].
  apply rtc_refl.
Qed.

End CityField.

Lemma city_placeholder_submitted_witness :
  "SP" ∈ map sigla (svcUfs exampleServices) ∧ svcCities exampleServices "SP" ≠ [] ∧
  ∃ a s, reachable exampleFormat exampleServices a ∧ page a = PageCreatePoint s ∧
    selectedUf s = "SP" ∧ cityOptions s = map nome (svcCities exampleServices "SP") ∧
    displayedCity s = head (map nome (svcCities exampleServices "SP")) ∧
    getString "city" (buildFormData exampleFormat s) = Some "0" ∧
    "0" ∉ cityOptions s.
Proof.
  assert (H1 : "SP" ∈ map sigla (svcUfs exampleServices)) by (by left).
  assert (H2 : svcCities exampleServices "SP" ≠ []) by (vm_compute; discriminate).
  assert (H3 : "0" ∉ map nome (svcCities exampleServices "SP")).
  { vm_compute. intros Hin.
    repeat (apply elem_of_cons in Hin as [Hin|Hin]; [discriminate|]).
    by apply elem_of_nil in Hin. }
  split_and!; [exact H1|exact H2|].
  exact (city_placeholder_submitted exampleFormat exampleServices "SP" H1
           ltac:(discriminate) H2 H3).
Defined.

Lemma city_stale_after_uf_change_witness :
  "Santos" ∈ map nome (svcCities exampleServices "SP") ∧
  (head (map nome (svcCities exampleServices "SP")) ≠ Some "Santos") ∧
  ("Santos" ∉ map nome (svcCities exampleServices "RJ")) ∧
  ∃ a s, reachable exampleFormat exampleServices a ∧ page a = PageCreatePoint s ∧
    getString "uf" (buildFormData exampleFormat s) = Some "RJ" ∧
    getString "city" (buildFormData exampleFormat s) = Some "Santos" ∧
    cityOptions s = map nome (svcCities exampleServices "RJ") ∧ ("Santos" ∉ cityOptions s) ∧
    displayedCity s = head (map nome (svcCities exampleServices "RJ")).
Proof.
  assert (H1 : "SP" ∈ map sigla (svcUfs exampleServices)) by (by left).
  assert (H2 : "RJ" ∈ map sigla (svcUfs exampleServices)) by (by right; left).
  assert (H0 : "0" ∉ map nome (svcCities exampleServices "SP")).
  { vm_compute. intros Hin.
    repeat (apply elem_of_cons in Hin as [Hin|Hin]; [discriminate|]).
    by apply elem_of_nil in Hin. }
  assert (Hc1 : "Santos" ∈ map nome (svcCities exampleServices "SP")) by (by right; left).
  assert (Hhd : head (map nome (svcCities exampleServices "SP")) ≠ Some "Santos")
    by (vm_compute; discriminate).
  assert (Hc2 : "Santos" ∉ map nome (svcCities exampleServices "RJ")).
  { vm_compute. intros Hin.
    repeat (apply elem_of_cons in Hin as [Hin|Hin]; [discriminate|]).
    by apply elem_of_nil in Hin. }
  split_and!; [exact Hc1|exact Hhd|exact Hc2|].
  exact (city_stale_after_uf_change exampleFormat exampleServices "SP" "RJ" "Santos"
           H1 H2 ltac:(discriminate) ltac:(discriminate) ltac:(discriminate) H0 Hc1 Hhd Hc2).
Defined.

End Screen.
