(* ===== verification/Render.v ===== *)
(** * What the pages render

    [renderHome] is the JSX of src/src/pages/Home/index.tsx (lines 9-30)
    and [renderCreatePoint] the JSX of src/src/pages/CreatePoint/index.tsx
    (lines 149-254), as element trees (View.v).  A JSX expression becomes
    the attribute value it computes; [{/* ... */}] comments render
    nothing; an array produced by [.map] is spliced among its siblings, as
    React does.  Imported assets ([logo], [FiLogIn], [FiArrowLeft]) are
    kept by name.

    The theorem shows that the form satisfies React's key rule exactly
    when the lists it renders have no duplicates; WellKeyed.v lifts it to
    every reachable state. *)

From S2P Require Import Prelude Selection JsString CreatePoint View Submission EmailInput Screen.
Set Warnings "-clear-no-such-hyp -register-all".
Close Scope Q_scope.

Module Render.
Import CreatePoint View Submission EmailInput Screen.
#[local] Existing Instance JsString.String_of_int_inj.

(** ** The landing page (Home, lines 9-30) *)

Definition renderHome : Node :=
  Elem "div" None [("id", AStr "page-home")] [
    Elem "div" None [("className", AStr "content")] [
      Elem "header" None [] [
        Elem "img" None [("src", AAsset "logo"); ("alt", AStr "Ecoleta")] []];
      Elem "main" None [] [
        Elem "h1" None [] [Text "Seu marketplace de coleta de resíduos."];
        Elem "p" None [] [
          Text "Ajudamos as pessoas a encontrarem pontos de coleta de forma inteligente"];
        Elem "Link" None [("to", AStr "/create-point")] [
          Elem "span" None [] [Elem "FiLogIn" None [] []];
          Elem "strong" None [] [Text "Cadastre um ponto de coleta"]]]]].

(** ** The registration form (CreatePoint, lines 149-254) *)

(** A double quote, for the attribution string of line 199. *)
Definition dq : string := String (Ascii.ascii_of_nat 34) EmptyString.

(** Line 199: the JSX string [&amp;copy ...] with its entity decoded. *)
Definition tileAttribution : string :=
  "&copy <a href=" +:+ dq +:+ "http://osm.org/copyright" +:+ dq +:+
  ">OpenStreetMap</a> contributors".

(** Lines 170-184: a labelled input wired to [handleInputChange]. *)
Definition inputField (type name label : string) : Node :=
  Elem "div" None [("className", AStr "field")] [
    Elem "label" None [("htmlFor", AStr name)] [Text label];
    Elem "input" None [("type", AStr type); ("id", AStr name); ("name", AStr name);
                       ("onChange", AHandler HInputChange)] []].

(** Line 213: one option per state. *)
Definition ufOption (uf : string) : Node :=
  Elem "option" (Some uf) [("value", AStr uf)] [Text uf].

(** Line 222: one option per city. *)
Definition cityOption (city : string) : Node :=
  Elem "option" (Some city) [("value", AStr city)] [Text city].

(** Lines 238-245: one tile per item, keyed by [String(item.id)]. *)
Definition itemTile (selectedItems : list Z) (item : Item) : Node :=
  Elem "li" (Some (JsString.String_of_int (id item)))
    [("onClick", AHandler (HSelectItem (id item)));
     ("className", AStr (Selection.item_className selectedItems (id item)))] [
    Elem "img" None [("src", AStr (image_url item)); ("alt", AStr (title item))] [];
    Elem "span" None [] [Text (title item)]].

(** Lines 209-215. *)
Definition ufSelect (s : State) : Node :=
  Elem "select" None [("name", AStr "uf"); ("id", AStr "uf"); ("value", AStr (selectedUf s));
                      ("onChange", AHandler HSelectUf)]
    (Elem "option" None [("value", AStr "0")] [Text "Selecione uma UF"] :: map ufOption (ufs s)).

(** Lines 220-224. *)
Definition citySelect (s : State) : Node :=
  Elem "select" None [("name", AStr "city"); ("id", AStr "city"); ("value", AStr (selectedCity s));
                      ("onChange", AHandler HSelectCity)]
    (map cityOption (cities s)).

(** Lines 236-247. *)
Definition itemsGrid (s : State) : Node :=
  Elem "ul" None [("className", AStr "items-grid")] (map (itemTile (selectedItems s)) (items s)).

(** Lines 196-205. *)
Definition mapSurface (s : State) : Node :=
  Elem "Map" None [("center", APos (initialPosition s)); ("zoom", ANum 15);
                   ("onClick", AHandler HMapClick)] [
    Elem "TileLayer" None [("attribution", AStr tileAttribution);
                           ("url", AStr "https://{s}.tile.openstreetmap.org/{z}/{x}/{y}.png")] [];
    Elem "Marker" None [("position", APos (selectedPosition s))] []].

Definition legend (title : string) (hint : option string) : Node :=
  Elem "legend" None [] (Elem "h2" None [] [Text title] ::
                         match hint with Some h => [Elem "span" None [] [Text h]] | None => [] end).

Definition renderCreatePoint (s : State) : Node :=
  Elem "div" None [("id", AStr "page-create-point")] [
    Elem "header" None [] [
      Elem "img" None [("src", AAsset "logo"); ("alt", AStr "Ecoleta")] [];
      Elem "Link" None [("to", AStr "/")] [
        Elem "FiArrowLeft" None [] []; Text "Voltar para Home"]];
    Elem "form" None [("onSubmit", AHandler HSubmit)] [
      Elem "h1" None [] [Text "Cadastro do "; Elem "br" None [] []; Text " ponto de coleta"];
      Elem "Dropzone" None [("onFileUploaded", AHandler HFileUploaded)] [];
      Elem "fieldset" None [] [
        legend "Dados" None;
        inputField "text" "name" "Nome da Entidade";
        Elem "div" None [("className", AStr "field-group")] [
          inputField "email" "email" "E-mail";
          inputField "text" "whatsapp" "Whatsapp"]];
      Elem "fieldset" None [] [
        legend "Endereço" (Some "Selecione o endereço no mapa");
        mapSurface s;
        Elem "div" None [("className", AStr "field-group")] [
          Elem "div" None [("className", AStr "field")] [
            Elem "label" None [("htmlFor", AStr "uf")] [Text "Estado (UF)"];
            ufSelect s];
          Elem "div" None [("className", AStr "field")] [
            Elem "label" None [("htmlFor", AStr "city")] [Text "Cidade"];
            citySelect s]]];
      Elem "fieldset" None [] [
        legend "Itens de Coleta" (Some "Selecione um ou mais itens abaixo");
        itemsGrid s];
      Elem "button" None [("type", AStr "submit")] [Text "Cadastrar ponto de coleta"]]].

(** What the application shows for a page: the route's component, or
    nothing when no route matches. *)
Definition viewOf (p : Page) : Node :=
  match p with
  | PageHome => renderHome
  | PageCreatePoint s => renderCreatePoint s
  | PageNotFound => Text ""
  end.

(** ** React keys *)

Lemma NoDup_omap_keys {A} (g : A → Node) (k : A → string) l :
  (∀ x, nodeKey (g x) = Some (k x)) → omap nodeKey (map g l) = map k l.
Proof. apply omap_map_Some. Qed.

(** The key rule on the form reduces to the three keyed lists: the
    options of lines 213 and 222 are keyed by the names, the tiles of line
    238 by [String(item.id)]; every other element is unkeyed. *)
Lemma keysDistinct_renderCreatePoint s :
  keysDistinct (renderCreatePoint s) =
  bool_decide (NoDup (ufs s)) && bool_decide (NoDup (cities s)) &&
  bool_decide (NoDup (JsString.String_of_int <$> itemIds s)).
Proof.
  unfold renderCreatePoint. simpl.
  rewrite (NoDup_omap_keys ufOption (λ x, x)), (NoDup_omap_keys cityOption (λ x, x)),
    (NoDup_omap_keys (itemTile (selectedItems s)) (λ x, JsString.String_of_int (id x)))
    by done.
  rewrite !(forallb_map_true keysDistinct) by done. rewrite !map_id, !andb_true_r.
  assert (Hm : map (λ x, JsString.String_of_int (id x)) (items s) =
                JsString.String_of_int <$> itemIds s).
  { unfold itemIds. induction (items s) as [|x l IH]; simpl; by f_equal. }
  by rewrite Hm.
Qed.

(** C33: the rendered form is well keyed (React's rule that the keyed
    children of an element have distinct keys) exactly when the state
    list, the city list and the item ids have no duplicates: the options
    of lines 213 and 222 are keyed by the names, the tiles of line 238 by
    [String(item.id)], and [String] is injective on integers. *)
Theorem renderCreatePoint_keys s :
  keysDistinct (renderCreatePoint s) = true ↔
  NoDup (ufs s) ∧ NoDup (cities s) ∧ NoDup (itemIds s).
Proof.
  rewrite keysDistinct_renderCreatePoint, !andb_true_iff, !bool_decide_eq_true.
  split; [intros [[Hu Hc] Hi]|intros (Hu & Hc & Hi)]; split_and!; try done.
  - by eapply NoDup_fmap_1.
  - apply NoDup_fmap_2; [apply _|done].
Qed.

End Render.
