(* ===== verification/Cascade.v ===== *)
(** * The state/city cascade under in-order delivery

    The spec (sections 5 and 9) says the city list follows the selected
    state only when the IBGE answers arrive in request order; Screen.v
    proves the list can be stale otherwise ([Screen.cities_race]).  This
    file states the positive half: when city requests settle in the order
    they were issued and none of them fails, the screen implements the
    cascade contract.  [fstep] is [Screen.sstep] restricted to such
    networks; the invariant [cascadeInv] relates the selected state, the
    current mount's city requests in flight, and the city list. *)

From S2P Require Import Prelude Selection JsString CreatePoint Submission Screen.
Set Warnings "-clear-no-such-hyp".
Close Scope Q_scope.

Module Cascade.
Import CreatePoint Submission Screen.

Definition isCities (r : Request) : bool :=
  match r with ReqCities _ => true | _ => false end.

(** The states whose cities the current mount has asked for and not yet
    received, oldest first. *)
Definition citiesOfMount (m : nat) (ps : list Pending) : list string :=
  omap (λ p, if decide (p_mount p = m) then
               match p_req p with ReqCities u => Some u | _ => None end
             else None) ps.

Definition inFlightCities (a : App) : list string := citiesOfMount (mountId a) (pending a).

(** ** Lemmas on the requests in flight *)

Lemma citiesOfMount_app m ps qs :
  citiesOfMount m (ps ++ qs) = citiesOfMount m ps ++ citiesOfMount m qs.
Proof. apply omap_app. Qed.

Lemma citiesOfMount_nil m ps :
  (∀ q, q ∈ ps → p_mount q = m → isCities (p_req q) = false) → citiesOfMount m ps = [].
Proof.
  induction ps as [|q ps IH]; intros H; [done|]. simpl.
  rewrite IH by (intros r Hr; apply H; by right).
  case_decide as Hm; [|done].
  assert (Hq : isCities (p_req q) = false) by (apply H; [left|done]).
  by destruct (p_req q).
Qed.

Lemma citiesOfMount_other_mount m rs :
  citiesOfMount m (map (mkPending m) rs) =
  omap (λ r, match r with ReqCities u => Some u | _ => None end) rs.
Proof. induction rs as [|r rs IH]; simpl; [done|]. rewrite decide_True by done. by rewrite IH. Qed.

(** Removing a request that is not a city request of mount [m] leaves
    mount [m]'s city requests as they were. *)
Lemma citiesOfMount_delete_other m ps i p :
  ps !! i = Some p → (p_mount p ≠ m ∨ isCities (p_req p) = false) →
  citiesOfMount m (delete i ps) = citiesOfMount m ps.
Proof.
  intros Hi Hp. rewrite delete_take_drop.
  transitivity (citiesOfMount m (take i ps ++ p :: drop (S i) ps));
    [|by rewrite take_drop_middle].
  rewrite !citiesOfMount_app. f_equal. simpl.
  case_decide; [|done]. destruct Hp as [|Hc]; [done|]. by destruct (p_req p).
Qed.

(** Removing the oldest city request in flight, when it is mount [m]'s,
    removes the head of mount [m]'s list. *)
Lemma citiesOfMount_delete_first m ps i p u :
  list_find (λ q, isCities (p_req q) = true) ps = Some (i, p) →
  p_mount p = m → p_req p = ReqCities u →
  citiesOfMount m ps = u :: citiesOfMount m (delete i ps).
Proof.
  intros (Hi & _ & Hfirst)%list_find_Some Hm Hr.
  rewrite delete_take_drop.
  transitivity (citiesOfMount m (take i ps ++ p :: drop (S i) ps));
    [by rewrite take_drop_middle|].
  rewrite !citiesOfMount_app.
  rewrite (citiesOfMount_nil m (take i ps)).
  - simpl. rewrite decide_True by done. by rewrite Hr.
  - intros q Hq _. apply list_elem_of_lookup in Hq as [j Hj].
    apply lookup_take_Some in Hj as [Hj Hlt].
    destruct (isCities (p_req q)) eqn:Hc; [|done].
    exfalso. eapply Hfirst; eauto.
Qed.

Lemma navigate_cases path a :
  (page (navigate path a) = page a ∧ mountId (navigate path a) = mountId a ∧
     pending (navigate path a) = pending a) ∨
  page (navigate path a) = PageHome ∨ page (navigate path a) = PageNotFound ∨
  page (navigate path a) = PageCreatePoint initialState.
Proof. unfold navigate. destruct (route path) as [[]|], (page a); simpl; auto. Qed.

Definition cityOf (r : Request) : option string :=
  match r with ReqCities u => Some u | _ => None end.

Lemma inFlight_user a rs p :
  inFlightCities (withPending (pending a ++ map (mkPending (mountId a)) rs) (withPage p a)) =
  inFlightCities a ++ omap cityOf rs.
Proof.
  unfold inFlightCities. simpl. by rewrite citiesOfMount_app, citiesOfMount_other_mount.
Qed.

Section Fifo.
Context (String_of_number : Q → string) (svc : Services).

(** A transition of a network that answers city requests in the order they
    were issued (across mounts) and never fails them. *)
Inductive fstep : App → App → Prop :=
  | fstep_user a e a' :
      isSettle e = false → step String_of_number a e = Some a' → fstep a a'
  | fstep_settle a i p o a' :
      pending a !! i = Some p → answers svc (p_req p) o = true →
      (isCities (p_req p) = true →
         list_find (λ q, isCities (p_req q) = true) (pending a) = Some (i, p) ∧
         o ≠ Rejected) →
      step String_of_number a (Settle i o) = Some a' → fstep a a'
  | fstep_back a a' : goBack a = Some a' → fstep a a'.

Definition reachableInOrder (a : App) : Prop := rtc fstep initialApp a.

(** The executable counterpart of [fstep]. *)
Definition inOrderOk (a : App) (e : Event) : bool :=
  match e with
  | Settle i o =>
      match pending a !! i with
      | Some p =>
          answers svc (p_req p) o &&
          (if isCities (p_req p) then
             match list_find (λ q, isCities (p_req q) = true) (pending a) with
             | Some (j, _) => Nat.eqb j i
             | None => false
             end && match o with Rejected => false | _ => true end
           else true)
      | None => false
      end
  | _ => true
  end.

Fixpoint runInOrder (a : App) (es : list Event) : option App :=
  match es with
  | [] => Some a
  | e :: es' =>
      a' ← step String_of_number a e;
      if inOrderOk a e then runInOrder a' es' else None
  end.

Lemma runInOrder_fstep a es a' : runInOrder a es = Some a' → rtc fstep a a'.
Proof.
  revert a. induction es as [|e es IH]; intros a H; simpl in H.
  - injection H as <-. apply rtc_refl.
  - destruct (step String_of_number a e) as [a1|] eqn:Hs; [|discriminate].
    simpl in H. destruct (inOrderOk a e) eqn:Hok; [|discriminate].
    eapply rtc_l; [|by apply IH].
    destruct e as [to|uf|city|ev|id|name value|f| |i o];
      try (eapply fstep_user; [|exact Hs]; done).
    simpl in Hok. destruct (pending a !! i) as [p|] eqn:Hp; [|discriminate].
    apply andb_prop in Hok as [Ha Hc].
    eapply fstep_settle; [exact Hp|exact Ha| |exact Hs].
    intros Hcit. rewrite Hcit in Hc. apply andb_prop in Hc as [Hf Ho].
    destruct (list_find _ (pending a)) as [[j q]|] eqn:Hlf; [|discriminate].
    apply Nat.eqb_eq in Hf as ->.
    apply list_find_Some in Hlf as (Hq & _). rewrite Hp in Hq. injection Hq as <-.
    split; [done|]. by destruct o.
Qed.

Definition cascadeInv (a : App) : Prop :=
  ∀ s, page a = PageCreatePoint s → selectedUf s ≠ "0" →
    last (inFlightCities a) = Some (selectedUf s) ∨
    (inFlightCities a = [] ∧ cities s = map nome (svcCities svc (selectedUf s))).

(** ** Preservation of the cascade invariant *)

Lemma cascadeInv_same a a' :
  page a' = page a → inFlightCities a' = inFlightCities a → cascadeInv a → cascadeInv a'.
Proof. intros Hp Hf H s Hs. rewrite Hf. apply H. by rewrite <- Hp. Qed.

Lemma cascadeInv_vacuous a :
  page a = PageHome ∨ page a = PageNotFound ∨ page a = PageCreatePoint initialState →
  cascadeInv a.
Proof.
  intros Hp s Hs H0. destruct Hp as [Hp|[Hp|Hp]]; rewrite Hp in Hs; try discriminate.
  by injection Hs as <-.
Qed.

Lemma cascadeInv_navigate path a : cascadeInv a → cascadeInv (navigate path a).
Proof.
  intros H. destruct (navigate_cases path a) as [(Hp & Hm & Hq)|Hv].
  - apply (cascadeInv_same a); [done| |done]. unfold inFlightCities. by rewrite Hm, Hq.
  - by apply cascadeInv_vacuous.
Qed.

Lemma cascadeInv_back a a' : goBack a = Some a' → cascadeInv a → cascadeInv a'.
Proof. apply goBack_preserves; [done|apply cascadeInv_navigate]. Qed.

(** A handler that keeps the selected state and the city list, and whose
    effects issue no city request, keeps the invariant. *)
Lemma cascadeInv_user_keep a s s' rs :
  page a = PageCreatePoint s → selectedUf s' = selectedUf s → cities s' = cities s →
  omap cityOf rs = [] → cascadeInv a →
  cascadeInv (withPending (pending a ++ map (mkPending (mountId a)) rs)
                (withPage (PageCreatePoint s') a)).
Proof.
  intros Hp Hu Hc Hr H s0 Hs0 H0. simpl in Hs0. injection Hs0 as <-.
  rewrite inFlight_user, Hr, app_nil_r, Hu, Hc. rewrite Hu in H0. by apply H.
Qed.

Lemma cascadeInv_user a e a' :
  isSettle e = false → step String_of_number a e = Some a' → cascadeInv a → cascadeInv a'.
Proof.
  intros Hs Hst H.
  destruct (page a) as [|s|] eqn:Hp;
    [| |destruct e; try discriminate; unfold step in Hst; rewrite Hp in Hst; discriminate].
  { destruct e; try discriminate; unfold step in Hst; rewrite Hp in Hst; try discriminate.
    case_match; [|discriminate]. injection Hst as <-. by apply cascadeInv_navigate. }
  destruct e as [to|uf|city|ev|id|name value|f| |i o]; try discriminate.
  { unfold step in Hst. rewrite Hp in Hst. case_match; [|discriminate].
    injection Hst as <-. by apply cascadeInv_navigate. }
  all: apply (step_user_page _ _ _ _ s) in Hst as (s' & rs & Hu & ->);
    [|done|done|congruence].
  all: userEvent_inv Hu; simplify_eq;
    try (eapply cascadeInv_user_keep; [exact Hp|reflexivity|reflexivity|reflexivity|exact H]).
  destruct (String.eqb (selectedUf s) uf0) eqn:Heq.
  - apply String.eqb_eq in Heq.
    by eapply cascadeInv_user_keep; [exact Hp|..].
  - unfold ufEffect. destruct (String.eqb uf0 "0") eqn:H0.
    + apply String.eqb_eq in H0 as ->. intros s0 Hs0 Hn. simpl in Hs0.
      by injection Hs0 as <-.
    + intros s0 Hs0 _. simpl in Hs0. injection Hs0 as <-. left.
      rewrite inFlight_user. simpl. apply last_snoc.
Qed.


Lemma settleState_keeps_cascade r o s s' :
  settleState r o s = Some s' → isCities r = false →
  selectedUf s' = selectedUf s ∧ cities s' = cities s.
Proof. destruct r, o; simpl; intros [=] Hc; subst; done. Qed.

Lemma cascadeInv_settle a i p o a' :
  pending a !! i = Some p → answers svc (p_req p) o = true →
  (isCities (p_req p) = true →
     list_find (λ q, isCities (p_req q) = true) (pending a) = Some (i, p) ∧ o ≠ Rejected) →
  step String_of_number a (Settle i o) = Some a' → cascadeInv a → cascadeInv a'.
Proof.
  intros Hi Ha Hf Hst H. unfold step in Hst.
  apply settle_inv in Hst as (p' & Hi' & _ & Hcase). rewrite Hi in Hi'. injection Hi' as <-.
  destruct Hcase as [[-> ->]|[[-> ->]|(Hr & Hd & [(s & s' & Hp & Hm & Hss & ->)|[Hnm ->]])]].
  - apply (cascadeInv_same a); [done| |done]. unfold inFlightCities. simpl.
    apply (citiesOfMount_delete_other _ _ _ p Hi). right.
    destruct (isCities (p_req p)) eqn:Hc; [|done]. by destruct (Hf eq_refl).
  - apply cascadeInv_vacuous. by left.
  - intros s0 Hs0 H0. simpl in Hs0. injection Hs0 as <-.
    unfold inFlightCities. simpl.
    destruct (isCities (p_req p)) eqn:Hc.
    + destruct (Hf eq_refl) as [Hfirst _].
      destruct (p_req p) as [| | |u|] eqn:Hr'; try discriminate.
      destruct o as [| | |d| |]; try discriminate. simpl in Hss. injection Hss as <-.
      apply bool_decide_eq_true_1 in Ha as ->. simpl in H0 |- *.
      specialize (H s Hp H0). unfold inFlightCities in H.
      rewrite (citiesOfMount_delete_first _ _ i p u Hfirst Hm Hr') in H.
      destruct H as [Hlast|[Hnil _]]; [|discriminate].
      destruct (citiesOfMount (mountId a) (delete i (pending a))) as [|x xs] eqn:E.
      * right. split; [done|]. simpl in Hlast. by injection Hlast as ->.
      * left. rewrite last_cons in Hlast.
        destruct (last (x :: xs)) eqn:El; [done|]. by apply last_None in El.
    + destruct (settleState_keeps_cascade _ _ _ _ Hss Hc) as [Hu Hcs].
      rewrite (citiesOfMount_delete_other _ _ _ p Hi) by (by right).
      rewrite Hu, Hcs. rewrite Hu in H0. by apply H.
  - intros s0 Hs0 H0. simpl in Hs0. unfold inFlightCities. simpl.
    rewrite (citiesOfMount_delete_other _ _ _ p Hi) by (left; by apply (Hnm s0)).
    by apply H.
Qed.

Lemma reachableInOrder_cascadeInv a : reachableInOrder a → cascadeInv a.
Proof.
  apply (rtc_invariant fstep cascadeInv).
  - apply cascadeInv_vacuous. by left.
  - intros b c []; eauto using cascadeInv_user, cascadeInv_settle, cascadeInv_back.
Qed.

(** C6: refinement of the cascade contract under in-order delivery.  When
    the network answers city requests in the order they were made and
    never fails them, then whenever a state is selected and no city
    request of the mounted form is in flight, the city list is exactly the
    names the service gives for the selected state (spec, section 8: the
    city dropdown shows the service's cities for the chosen region). *)
Theorem cascade_in_order a s :
  reachableInOrder a → page a = PageCreatePoint s → selectedUf s ≠ "0" →
  (∀ p, p ∈ pending a → p_mount p = mountId a → isCities (p_req p) = false) →
  cities s = map nome (svcCities svc (selectedUf s)).
Proof.
  intros Hr Hp H0 Hnone.
  destruct (reachableInOrder_cascadeInv a Hr s Hp H0) as [Hl|[_ Hc]]; [|done].
  unfold inFlightCities in Hl. by rewrite citiesOfMount_nil in Hl.
Qed.

End Fifo.

(** ** Witnesses *)

Definition exInOrderTrace : list Event :=
  [ClickLink homeLink; Settle 2 (UfsData (svcUfs exampleServices)); SelectUf "SP";
   Settle 2 (CitiesData (svcCities exampleServices "SP"))].
Definition exInOrderApp : App :=
  default initialApp (runInOrder exampleFormat exampleServices initialApp exInOrderTrace).
Definition exInOrderState : State :=
  match page exInOrderApp with PageCreatePoint s => s | _ => initialState end.

Lemma cascade_in_order_witness :
  reachableInOrder exampleFormat exampleServices exInOrderApp ∧
  page exInOrderApp = PageCreatePoint exInOrderState ∧
  selectedUf exInOrderState ≠ "0" ∧
  (∀ p, p ∈ pending exInOrderApp → p_mount p = mountId exInOrderApp →
     isCities (p_req p) = false) ∧
  cities exInOrderState = map nome (svcCities exampleServices (selectedUf exInOrderState)).
Proof.
  assert (Hr : reachableInOrder exampleFormat exampleServices exInOrderApp).
  { apply (runInOrder_fstep _ _ _ exInOrderTrace). vm_compute. reflexivity. }
  assert (Hp : page exInOrderApp = PageCreatePoint exInOrderState) by (vm_compute; reflexivity).
  assert (H0 : selectedUf exInOrderState ≠ "0") by (vm_compute; discriminate).
  assert (Hn : ∀ p, p ∈ pending exInOrderApp → p_mount p = mountId exInOrderApp →
                 isCities (p_req p) = false).
  { assert (E : pending exInOrderApp = [mkPending 1 ReqGeolocation; mkPending 1 ReqItems])
      by (vm_compute; reflexivity).
    rewrite E. intros p Hin _.
    repeat (apply elem_of_cons in Hin as [->|Hin]; [done|]). by apply elem_of_nil in Hin. }
  split_and!; [exact Hr|exact Hp|exact H0|exact Hn|].
  exact (cascade_in_order _ _ _ _ Hr Hp H0 Hn).
Defined.


End Cascade.
