(* ===== verification/Catalog.v ===== *)
(** * Selected ids come from the backend's item list

    The item grid (src/src/pages/CreatePoint/index.tsx, lines 236-247)
    only offers the items of [api.get('items')] (lines 62-66), and that list
    is fetched once per mount.  This file proves that every selected id is
    the id of a listed item in every reachable state, so the [items] field
    of the submission only names categories the backend knows.  The
    invariant [catalogInv] counts the current mount's item requests in
    flight: there is at most one, and while it is in flight the list is
    still empty. *)

From S2P Require Import Prelude Selection JsString CreatePoint Submission Screen.
Set Warnings "-clear-no-such-hyp".
Close Scope Q_scope.

Module Catalog.
Import CreatePoint Submission Screen.

Definition isItemsOf (m : nat) (p : Pending) : bool :=
  bool_decide (p_mount p = m) && match p_req p with ReqItems => true | _ => false end.

(** The current mount's item requests in flight. *)
Definition itemsInFlight (a : App) : nat :=
  length (filter (λ p, isItemsOf (mountId a) p = true) (pending a)).

Definition catalogInv (a : App) : Prop :=
  (∀ p, p ∈ pending a → p_mount p ≤ mountId a) ∧
  ∀ s, page a = PageCreatePoint s →
    (∀ i, i ∈ selectedItems s → i ∈ itemIds s) ∧ itemsInFlight a ≤ 1 ∧
    (itemsInFlight a = 1 → items s = []).

(** ** Counting requests in flight *)

Lemma length_filter_delete {A} (P : A → Prop) `{∀ x, Decision (P x)} (l : list A) i x :
  l !! i = Some x →
  length (filter P (delete i l)) + (if decide (P x) then 1 else 0) = length (filter P l).
Proof.
  intros Hi. rewrite delete_take_drop.
  rewrite <- (take_drop_middle l i x Hi) at 3.
  rewrite !filter_app, filter_cons, !length_app.
  case_decide; simpl; lia.
Qed.

Lemma filter_map_mkPending_none m m' rs :
  m ≠ m' → filter (λ p, isItemsOf m p = true) (map (mkPending m') rs) = [].
Proof.
  intros Hne. induction rs as [|r rs IH]; [done|]. simpl.
  rewrite filter_cons, decide_False; [done|].
  unfold isItemsOf. simpl. by rewrite bool_decide_eq_false_2.
Qed.

Lemma filter_map_mkPending_noitems m rs :
  (∀ r, r ∈ rs → r ≠ ReqItems) →
  filter (λ p, isItemsOf m p = true) (map (mkPending m) rs) = [].
Proof.
  induction rs as [|r rs IH]; intros Hr; [done|]. simpl.
  rewrite filter_cons, IH by (intros r' ?; apply Hr; by right).
  rewrite decide_False; [done|]. unfold isItemsOf. simpl.
  destruct r; rewrite ?andb_false_r; try done.
  by destruct (Hr ReqItems (list_elem_of_here _ _)).
Qed.

Lemma filter_old_none m ps :
  (∀ p, p ∈ ps → p_mount p < m) → filter (λ p, isItemsOf m p = true) ps = [].
Proof.
  induction ps as [|p ps IH]; intros Hp; [done|].
  rewrite filter_cons, IH by (intros q ?; apply Hp; by right).
  rewrite decide_False; [done|]. unfold isItemsOf.
  rewrite bool_decide_eq_false_2; [done|].
  assert (p_mount p < m) by (apply Hp; left). lia.
Qed.

Lemma itemsInFlight_mount a :
  (∀ p, p ∈ pending a → p_mount p ≤ mountId a) →
  length (filter (λ p, isItemsOf (S (mountId a)) p = true)
            (pending a ++ map (mkPending (S (mountId a))) mountRequests)) = 1.
Proof.
  intros Hb. rewrite filter_app, filter_old_none by (intros p Hp; specialize (Hb p Hp); lia).
  unfold mountRequests. simpl. rewrite !filter_cons. unfold isItemsOf. simpl.
  rewrite (bool_decide_eq_true_2 (S (mountId a) = S (mountId a))) by done.
  reflexivity.
Qed.

(** ** Preservation *)

Lemma catalogInv_navigate path a : catalogInv a → catalogInv (navigate path a).
Proof.
  intros [Hb Hs]. unfold navigate.
  destruct (route path) as [[]|]; destruct (page a) as [|s|] eqn:Hp;
    unfold catalogInv; cbn [page pending mountId];
    try (split; [done|intros s0 [=]]).
  1,3: split; [intros p [Hp'%Hb|(r & -> & _)%list_elem_of_fmap]%elem_of_app; simpl; lia|];
    intros s0 [= <-]; unfold itemsInFlight; cbn [pending mountId];
    rewrite itemsInFlight_mount by done;
    split_and!; [by intros i ?%elem_of_nil|lia|done].
  subst. by apply Hs.
Qed.

Lemma catalogInv_delete a i p :
  pending a !! i = Some p → catalogInv a → catalogInv (withPending (delete i (pending a)) a).
Proof.
  intros Hi [Hb Hs]. split.
  - intros q Hq%list_elem_of_delete_inv. by apply Hb.
  - intros s Hp. destruct (Hs s Hp) as (Hsel & Hle & Hone).
    pose proof (length_filter_delete (λ q, isItemsOf (mountId a) q = true) _ _ _ Hi) as Hlen.
    unfold itemsInFlight in *. simpl.
    split_and!; [done|case_decide; lia|]. intros H1.
    apply Hone. case_decide; lia.
Qed.

Lemma catalogInv_user_keep a s s' rs :
  page a = PageCreatePoint s → items s' = items s →
  (∀ i, i ∈ selectedItems s → i ∈ itemIds s) →
  (∀ i, i ∈ selectedItems s' → i ∈ itemIds s) →
  (∀ r, r ∈ rs → r ≠ ReqItems) → catalogInv a →
  catalogInv (withPending (pending a ++ map (mkPending (mountId a)) rs)
                (withPage (PageCreatePoint s') a)).
Proof.
  intros Hp Hit _ Hsel Hrs [Hb Hs]. split.
  - intros q [Hq%Hb|(r & -> & _)%list_elem_of_fmap]%elem_of_app; simpl; [done|lia].
  - intros s0 Hs0. injection Hs0 as Hs0. subst s0.
    destruct (Hs s Hp) as (_ & Hle & Hone).
    unfold itemsInFlight in *. simpl.
    rewrite filter_app, filter_map_mkPending_noitems, app_nil_r by done.
    unfold itemIds. rewrite Hit. split_and!; done.
Qed.

Section Preservation.
Context (String_of_number : Q → string).

Lemma catalogInv_user a e a' :
  isSettle e = false → step String_of_number a e = Some a' → catalogInv a → catalogInv a'.
Proof.
  intros Hs Hst H.
  destruct (page a) as [|s|] eqn:Hp;
    [| |destruct e; try discriminate; unfold step in Hst; rewrite Hp in Hst; discriminate].
  { destruct e; try discriminate; unfold step in Hst; rewrite Hp in Hst; try discriminate.
    case_match; [|discriminate]. injection Hst as <-. by apply catalogInv_navigate. }
  destruct e as [to|uf|city|ev|id|name value|f| |i o]; try discriminate.
  { unfold step in Hst. rewrite Hp in Hst. case_match; [|discriminate].
    injection Hst as <-. by apply catalogInv_navigate. }
  all: apply (step_user_page _ _ _ _ s) in Hst as (s' & rs & Hu & ->);
    [|done|done|congruence].
  all: pose proof (proj1 (proj2 H s Hp)) as Hsel.
  all: userEvent_inv Hu; simplify_eq;
    (eapply catalogInv_user_keep; [exact Hp|reflexivity|exact Hsel| |intros r Hr|exact H]);
    try exact Hsel; try (by apply elem_of_nil in Hr);
    try (apply list_elem_of_singleton in Hr as ->; done).
  - destruct (String.eqb (selectedUf s) uf0), (ufEffect uf0);
      try (by apply elem_of_nil in Hr); apply list_elem_of_singleton in Hr as ->; done.
  - intros x Hx%Selection.elem_toggleItem. simpl in Hx.
    destruct Hx as [[Hx _]|[-> _]]; [by apply Hsel|done].
Qed.

Lemma catalogInv_settle a i o a' :
  step String_of_number a (Settle i o) = Some a' → catalogInv a → catalogInv a'.
Proof.
  intros Hst H. unfold step in Hst.
  apply settle_inv in Hst as (p & Hi & _ & Hcase).
  pose proof (catalogInv_delete a i p Hi H) as H0.
  destruct Hcase as [[_ ->]|[[_ ->]|(_ & _ & [(s & s' & Hp & Hm & Hss & ->)|[_ ->]])]];
    [done| |clear H0|done].
  - apply catalogInv_navigate. destruct H0 as [Hb Hs]. split; [done|].
    intros s0 Hs0. by apply Hs.
  - destruct H as [Hb Hs]. destruct (Hs s Hp) as (Hsel & Hle & Hone).
    pose proof (length_filter_delete (λ q, isItemsOf (mountId a) q = true) _ _ _ Hi) as Hlen.
    split; [intros q Hq%list_elem_of_delete_inv; by apply Hb|].
    intros s0 Hs0. injection Hs0 as Hs0. subst s0. unfold itemsInFlight in *. simpl.
    assert (Hc : isItemsOf (mountId a) p =
                 match p_req p with ReqItems => true | _ => false end).
    { unfold isItemsOf. rewrite bool_decide_eq_true_2 by exact Hm. by destruct (p_req p). }
    destruct (p_req p) eqn:Hr, o; try discriminate; simpl in Hss; injection Hss as <-;
      unfold itemIds in *; simpl; rewrite Hc in Hlen; simpl in Hlen;
      try (split_and!; [done|lia|intros; apply Hone; lia]).
    assert (Hnil : items s = []) by (apply Hone; lia).
    split_and!; [|lia|lia]. intros x Hx. apply Hsel in Hx.
    rewrite Hnil in Hx. by apply elem_of_nil in Hx.
Qed.

Lemma catalogInv_back a a' : goBack a = Some a' → catalogInv a → catalogInv a'.
Proof. apply goBack_preserves; [done|apply catalogInv_navigate]. Qed.

Lemma reachable_catalogInv svc a :
  reachable String_of_number svc a → catalogInv a.
Proof.
  apply (rtc_invariant (sstep String_of_number svc) catalogInv).
  - split; [by intros p ?%elem_of_nil|by intros s [=]].
  - intros b c []; eauto using catalogInv_user, catalogInv_settle, catalogInv_back.
Qed.

End Preservation.

(** C22: in every reachable state, every selected id is the id of an
    item the backend listed for the current mount, so the [items] field
    only names known categories (lines 62-66, 102-111, 236-247). *)
Theorem reachable_selected_listed String_of_number svc a s :
  reachable String_of_number svc a → page a = PageCreatePoint s →
  ∀ i, i ∈ selectedItems s → i ∈ itemIds s.
Proof.
  intros Hr Hp. by apply (reachable_catalogInv String_of_number svc a Hr).
Qed.

Lemma reachable_selected_listed_witness :
  reachable exampleFormat exampleServices exApp ∧ page exApp = PageCreatePoint exState ∧
  2%Z ∈ selectedItems exState ∧ 2%Z ∈ itemIds exState.
Proof.
  assert (Hin : 2%Z ∈ selectedItems exState) by (vm_compute; left).
  split_and!; [exact exApp_reachable|exact exApp_page|exact Hin|].
  exact (reachable_selected_listed _ _ _ _ exApp_reachable exApp_page 2%Z Hin).
Defined.

End Catalog.
