(* ===== verification/Validation.v ===== *)
(** * What the browser's constraint validation guarantees the backend

    The form of src/src/pages/CreatePoint/index.tsx checks nothing itself;
    the only check on the way to [api.post('points', data)] (line 142) is
    the browser's constraint on the e-mail input (line 178, EmailInput.v),
    which Screen.v models as the guard of [Submit].  This file shows what
    that buys over every interleaving: each post in flight carries an
    e-mail field that is empty or a valid e-mail address, and the e-mail
    the form keeps is always a sanitized value (no newline, no leading or
    trailing whitespace).  Nothing else is checked: the name, the
    WhatsApp number, the state, the city and the items are sent as they
    are (Screen.v, C13). *)

From S2P Require Import Prelude Selection JsString CreatePoint Submission EmailInput Screen.
Set Warnings "-clear-no-such-hyp".
Close Scope Q_scope.

Module Validation.
Import CreatePoint Submission EmailInput Screen.

(** The e-mail field of a request, when it is a post. *)
Definition postEmail (r : Request) : option string :=
  match r with ReqPost d => getString "email" d | _ => None end.

(** Every post in flight carries an e-mail the constraint accepts. *)
Definition postsValid (a : App) : Prop :=
  ∀ p d, p ∈ pending a → p_req p = ReqPost d →
    ∃ e, postEmail (p_req p) = Some e ∧ emailValid e = true.

(** The e-mail the form keeps is a value the input can report. *)
Definition emailSanitized (s : State) : Prop :=
  sanitize_email (jsProp (formData s) "email") = jsProp (formData s) "email".

(** ** Where the requests in flight come from *)

Lemma navigate_pending path a p :
  p ∈ pending (navigate path a) → p ∈ pending a ∨ p_req p ∈ mountRequests.
Proof.
  unfold navigate. destruct (route path) as [[]|], (page a); cbn [pending]; try tauto;
    intros [Hp|(r & -> & Hr)%list_elem_of_fmap]%elem_of_app; auto.
Qed.

Section StepPending.
Context (String_of_number : Q → string).

(** A request in flight after a transition was in flight before, was
    issued by a mount, or was issued by the effects of the user event's
    handler. *)
Lemma step_pending a e a' p :
  step String_of_number a e = Some a' → p ∈ pending a' →
  p ∈ pending a ∨ p_req p ∈ mountRequests ∨
  ∃ s s' rs, page a = PageCreatePoint s ∧
    userEvent String_of_number e s = Some (s', rs) ∧ p_req p ∈ rs.
Proof.
  intros H Hp. destruct (isSettle e) eqn:Hs.
  - destruct e as [to|uf|city|ev|id|name value|f| |i o]; try discriminate.
    unfold step in H. apply settle_inv in H as (q & _ & _ & Hcase).
    destruct Hcase as [[_ ->]|[[_ ->]|(_ & _ & [(s & s' & _ & _ & _ & ->)|[_ ->]])]];
      cbn [pending withPending withPage] in Hp;
      try (left; by eapply list_elem_of_delete_inv).
    apply navigate_pending in Hp as [Hp|Hp]; [|by right; left].
    cbn [pending addAlert withPending] in Hp. left. by eapply list_elem_of_delete_inv.
  - destruct (page a) as [|s|] eqn:Hpg.
    + destruct e; try discriminate; unfold step in H; rewrite Hpg in H; try discriminate.
      case_match; [|discriminate]. injection H as <-.
      apply navigate_pending in Hp as [Hp|Hp]; auto.
    + destruct e as [to|uf|city|ev|id|name value|f| |i o]; try discriminate;
        [unfold step in H; rewrite Hpg in H; case_match; [|discriminate];
         injection H as <-; apply navigate_pending in Hp as [Hp|Hp]; auto|..];
        (apply (step_user_page _ _ _ _ s) in H as (s' & rs & Hu & ->);
          [|done|done|naive_solver]);
        cbn [pending withPending withPage] in Hp;
        (apply elem_of_app in Hp as [Hp|(r & -> & Hr)%list_elem_of_fmap]; [by left|]);
        right; right; eauto 10.
    + destruct e; try discriminate; unfold step in H; rewrite Hpg in H; discriminate.
Qed.

End StepPending.

Lemma mountRequests_no_post d : ReqPost d ∉ mountRequests.
Proof. vm_compute. intros Hin. repeat (apply elem_of_cons in Hin as [Hin|Hin]; [done|]).
  by apply elem_of_nil in Hin. Qed.

Lemma postEmail_buildFormData String_of_number s :
  postEmail (ReqPost (buildFormData String_of_number s)) = Some (jsProp (formData s) "email").
Proof. unfold postEmail. rewrite buildFormData_unfold. by destruct (selectedFile s). Qed.

Section Preservation.
Context (String_of_number : Q → string) (svc : Services).

Lemma postsValid_step a e a' :
  step String_of_number a e = Some a' → postsValid a → postsValid a'.
Proof.
  intros H Hv p d Hp Hd.
  destruct (step_pending _ _ _ _ _ H Hp) as [Hp'|[Hm|(s & s' & rs & _ & Hu & Hr)]].
  - by apply (Hv p d).
  - rewrite Hd in Hm. by apply mountRequests_no_post in Hm.
  - userEvent_inv Hu; subst; revert Hr; repeat case_match; intros Hr;
      try by apply elem_of_nil in Hr.
    all: apply list_elem_of_singleton in Hr; rewrite Hr in Hd |- *; try discriminate.
    rewrite postEmail_buildFormData. eexists; split; [reflexivity|eassumption].
Qed.

Lemma postsValid_back a a' : goBack a = Some a' → postsValid a → postsValid a'.
Proof.
  apply goBack_preserves; [done|]. intros path b Hv p d Hp Hd.
  apply navigate_pending in Hp as [Hp|Hm]; [by apply (Hv p d)|].
  rewrite Hd in Hm. by apply mountRequests_no_post in Hm.
Qed.

Lemma reachable_postsValid a : reachable String_of_number svc a → postsValid a.
Proof.
  apply (rtc_invariant (sstep String_of_number svc) postsValid).
  - intros p d Hp. by apply elem_of_nil in Hp.
  - intros b c []; eauto using postsValid_step, postsValid_back.
Qed.

End Preservation.

(** C23: over every interleaving of user actions and answers, each post
    in flight carries an e-mail field that is empty or a valid e-mail
    address: the browser's constraint on the e-mail input is the only
    check between the form and [api.post('points', data)] (lines 142,
    178), and it holds for every payload sent. *)
Theorem reachable_posts_valid_email String_of_number svc a p d :
  reachable String_of_number svc a → p ∈ pending a → p_req p = ReqPost d →
  ∃ e, getString "email" d = Some e ∧ emailValid e = true.
Proof.
  intros Hr Hp Hd. destruct (reachable_postsValid String_of_number svc a Hr p d Hp Hd)
    as (e & He & Hv). rewrite Hd in He. eauto.
Qed.

(** C24: in every reachable state of the form, the e-mail it keeps is a
    sanitized value, so the payload never carries a newline or surrounding
    whitespace in the [email] field (lines 113-116, 178). *)
Theorem reachable_email_sanitized String_of_number svc a s :
  reachable String_of_number svc a → page a = PageCreatePoint s →
  sanitize_email (jsProp (formData s) "email") = jsProp (formData s) "email".
Proof.
  intros Hr. apply (page_invariant String_of_number svc emailSanitized); [| | |done].
  - reflexivity.
  - intros e s0 s' rs Hu H. unfold emailSanitized in *.
    userEvent_inv Hu; subst; try done.
    unfold handleInputChange, jsProp, inputValue. simpl.
    destruct (String.eqb_spec n "email") as [->|Hne].
    + rewrite lookup_insert. simpl. apply sanitize_email_idem.
    + by rewrite lookup_insert_ne by congruence.
  - intros r o s0 s' _ Hs H. settleState_inv Hs; done.
Qed.

(** ** Witnesses *)

(** Open the form, type an address with surrounding spaces, submit. *)
Definition exPostTrace : list Event :=
  [ClickLink homeLink; InputChange "email" " ana@ecoleta.org "; Submit].
Definition exPostApp : App :=
  default initialApp (runChecked exampleFormat exampleServices initialApp exPostTrace).
Definition exPostState : State :=
  match page exPostApp with PageCreatePoint s => s | _ => initialState end.
Definition exPost : Pending := default (mkPending 0 ReqItems) (pending exPostApp !! 3).
Definition exPostData : FormDataEntries :=
  match p_req exPost with ReqPost d => d | _ => [] end.

Lemma exPostApp_reachable : reachable exampleFormat exampleServices exPostApp.
Proof. apply (runChecked_reachable _ _ exPostTrace). vm_compute. reflexivity. Qed.

Lemma reachable_posts_valid_email_witness :
  reachable exampleFormat exampleServices exPostApp ∧ exPost ∈ pending exPostApp ∧
  p_req exPost = ReqPost exPostData ∧
  getString "email" exPostData = Some "ana@ecoleta.org" ∧
  ∃ e, getString "email" exPostData = Some e ∧ emailValid e = true.
Proof.
  assert (Hin : exPost ∈ pending exPostApp)
    by (apply (list_elem_of_lookup_2 _ 3); vm_compute; reflexivity).
  assert (Hd : p_req exPost = ReqPost exPostData) by (vm_compute; reflexivity).
  split_and!; [exact exPostApp_reachable|exact Hin|exact Hd|vm_compute; reflexivity|].
  exact (reachable_posts_valid_email _ _ _ _ _ exPostApp_reachable Hin Hd).
Defined.

Lemma reachable_email_sanitized_witness :
  reachable exampleFormat exampleServices exPostApp ∧
  page exPostApp = PageCreatePoint exPostState ∧
  jsProp (formData exPostState) "email" = "ana@ecoleta.org" ∧
  sanitize_email (jsProp (formData exPostState) "email") = jsProp (formData exPostState) "email".
Proof.
  assert (Hp : page exPostApp = PageCreatePoint exPostState) by (vm_compute; reflexivity).
  split_and!; [exact exPostApp_reachable|exact Hp|vm_compute; reflexivity|].
  exact (reachable_email_sanitized _ _ _ _ exPostApp_reachable Hp).
Defined.

End Validation.
