(* ===== verification/FetchFailure.v ===== *)
(** * Failed fetches leave the form empty for the rest of the mount

    src/src/pages/CreatePoint/index.tsx fetches the item list and the IBGE
    state list once per mount (lines 62-73) and never handles a rejection:
    there is no [.catch], no retry, and no other code path that fills
    [items] or [ufs].  The spec (section 7) says the UI then "silently
    shows empty lists".  This file proves it over every interleaving.
    Once the mount's item request has failed, the grid stays empty until
    the form is mounted again.  Once its state-list request has failed,
    the state select offers only the placeholder, and no city is ever
    fetched.

    The generic part is the section [Frozen]: a property [Q] of the form
    that no handler breaks, and that only the callbacks of a class [isR]
    of requests can break, holds for the rest of the mount once no request
    of that class is in flight. *)

From S2P Require Import Prelude Selection JsString CreatePoint Submission EmailInput Screen.
Set Warnings "-clear-no-such-hyp".
Close Scope Q_scope.

Module FetchFailure.
Import CreatePoint Submission EmailInput Screen.

(** ** Mounts only grow *)

Lemma navigate_mount path a :
  (mountId (navigate path a) = mountId a ∧ pending (navigate path a) = pending a ∧
   (page (navigate path a) = page a ∨ ∀ s, page (navigate path a) ≠ PageCreatePoint s)) ∨
  mountId (navigate path a) = S (mountId a).
Proof. unfold navigate. destruct (route path) as [[]|], (page a); simpl; auto 10. Qed.

Section Frozen.
Context (String_of_number : Q → string) (svc : Services).
Context (Q : State → Prop) (isR : Request → bool).
Hypothesis Q_user : ∀ e s s' rs,
  Q s → userEvent String_of_number e s = Some (s', rs) → Q s' ∧ ∀ r, r ∈ rs → isR r = false.
Hypothesis Q_settle : ∀ r o s s', Q s → settleState r o s = Some s' → isR r = false → Q s'.

(** Mount [m] is over, or it is the current mount, its form satisfies
    [Q], and none of its requests of class [isR] is in flight. *)
Definition frozen (m : nat) (a : App) : Prop :=
  m < mountId a ∨
  (m = mountId a ∧ (∀ s, page a = PageCreatePoint s → Q s) ∧
   ∀ p, p ∈ pending a → p_mount p = m → isR (p_req p) = false).

Lemma frozen_navigate m path a : frozen m a → frozen m (navigate path a).
Proof.
  intros Hf. destruct (navigate_mount path a) as [(Hm & Hp & Hpg)|Hm].
  - destruct Hf as [Hlt|(-> & HQ & HR)]; [left; lia|right].
    rewrite Hm, Hp. split_and!; [done| |done].
    intros s Hs. destruct Hpg as [Hpg|Hpg]; [rewrite Hpg in Hs; by apply HQ|by destruct (Hpg s)].
  - left. destruct Hf as [Hlt|(-> & _)]; lia.
Qed.

Lemma frozen_delete m a i : frozen m a → frozen m (withPending (delete i (pending a)) a).
Proof.
  intros [Hlt|(-> & HQ & HR)]; [by left|right]. simpl. split_and!; [done|done|].
  intros p Hp%list_elem_of_delete_inv. by apply HR.
Qed.

Lemma frozen_step m a e a' :
  step String_of_number a e = Some a' → frozen m a → frozen m a'.
Proof.
  intros H Hf. destruct (isSettle e) eqn:Hs.
  - destruct e as [to|uf|city|ev|id|name value|f| |i o]; try discriminate.
    unfold step in H. apply settle_inv in H as (p & Hi & _ & Hcase).
    destruct Hcase as [[_ ->]|[[_ ->]|(_ & _ & [(s & s' & Hp & Hm & Hss & ->)|[_ ->]])]];
      try by apply frozen_delete.
    + apply frozen_navigate. pose proof (frozen_delete m a i Hf) as [Hlt|(Hm & HQ & HR)];
        [by left|right]. simpl in *. split_and!; done.
    + destruct Hf as [Hlt|(-> & HQ & HR)]; [by left|right]. simpl.
      split_and!; [done| |by intros q Hq%list_elem_of_delete_inv; apply HR].
      intros s0 [= <-]. apply (Q_settle (p_req p) o s); [by apply HQ|done|].
      apply HR; [by eapply list_elem_of_lookup_2|done].
  - destruct (page a) as [|s|] eqn:Hpg.
    + destruct e; try discriminate; unfold step in H; rewrite Hpg in H; try discriminate.
      case_match; [|discriminate]. injection H as <-. by apply frozen_navigate.
    + destruct e as [to|uf|city|ev|id|name value|f| |i o]; try discriminate;
        [unfold step in H; rewrite Hpg in H; case_match; [|discriminate];
         injection H as <-; by apply frozen_navigate|..];
        (apply (step_user_page _ _ _ _ s) in H as (s' & rs & Hu & ->);
          [|done|done|naive_solver]);
        (destruct Hf as [Hlt|(-> & HQ & HR)]; [by left|right]);
        (destruct (Q_user _ _ _ _ (HQ s Hpg) Hu) as [HQ' Hrs]);
        cbn [page pending mountId withPending withPage];
        (split_and!; [done|by intros s0 [= <-]|]);
        (intros q [Hq|(r & -> & Hr)%list_elem_of_fmap]%elem_of_app Hqm; [by apply HR|by apply Hrs]).
    + destruct e; try discriminate; unfold step in H; rewrite Hpg in H; discriminate.
Qed.

Lemma frozen_back m a a' : goBack a = Some a' → frozen m a → frozen m a'.
Proof. apply goBack_preserves; [done|apply frozen_navigate]. Qed.

(** Once mount [m] is frozen, its form satisfies [Q] in every later state
    where it is still mounted. *)
Lemma frozen_forever a a' s' :
  rtc (sstep String_of_number svc) a a' → frozen (mountId a) a →
  mountId a' = mountId a → page a' = PageCreatePoint s' →
  Q s' ∧ ∀ p, p ∈ pending a' → p_mount p = mountId a → isR (p_req p) = false.
Proof.
  intros Hr Hf Hm Hp.
  assert (Hf' : frozen (mountId a) a').
  { apply (rtc_invariant (sstep String_of_number svc) (frozen (mountId a)) a); [done| |done].
    intros b c []; eauto using frozen_step, frozen_back. }
  destruct Hf' as [Hlt|(_ & HQ & HR)]; [lia|split; [by apply HQ|done]].
Qed.

End Frozen.

(** ** The two fetches of the mount *)

Definition isItems (r : Request) : bool := match r with ReqItems => true | _ => false end.

Definition isUfsOrCities (r : Request) : bool :=
  match r with ReqUfs | ReqCities _ => true | _ => false end.

(** The requests a handler issues are city requests, for a state the
    select offered, or the post. *)
Lemma userEvent_requests String_of_number e s s' rs r :
  userEvent String_of_number e s = Some (s', rs) → r ∈ rs →
  (∃ uf, r = ReqCities uf ∧ e = SelectUf uf ∧ uf ∈ ufOptions s ∧ uf ≠ selectedUf s) ∨
  (∃ d, r = ReqPost d).
Proof.
  intros Hu Hr. userEvent_inv Hu; subst; revert Hr; repeat case_match; intros Hr;
    try by apply elem_of_nil in Hr.
  all: apply list_elem_of_singleton in Hr as ->; eauto.
  left. unfold ufEffect in *. case_match; [done|]. simplify_eq.
  eexists; split_and!; [done|done|done|]. intros ->. by rewrite String.eqb_refl in *.
Qed.

Definition itemsFrozen (s : State) : Prop := items s = [] ∧ selectedItems s = [].

Definition ufsFrozen (s : State) : Prop :=
  ufs s = [] ∧ selectedUf s = "0" ∧ cities s = [] ∧ selectedCity s = "0".

Section Instances.
Context (String_of_number : Q → string).

Lemma itemsFrozen_user e s s' rs :
  itemsFrozen s → userEvent String_of_number e s = Some (s', rs) →
  itemsFrozen s' ∧ ∀ r, r ∈ rs → isItems r = false.
Proof.
  intros [Hi Hs] Hu. split.
  - userEvent_inv Hu; subst; try done.
    unfold itemIds in *. rewrite Hi in *. by apply elem_of_nil in H0.
  - intros r Hr. by destruct (userEvent_requests _ _ _ _ _ _ Hu Hr) as [(? & -> & _)|[? ->]].
Qed.

Lemma ufsFrozen_user e s s' rs :
  ufsFrozen s → userEvent String_of_number e s = Some (s', rs) →
  ufsFrozen s' ∧ ∀ r, r ∈ rs → isUfsOrCities r = false.
Proof.
  intros (Hu0 & Hs & Hc & Hcity) Hu. split.
  - userEvent_inv Hu; subst; try done.
    + unfold ufOptions in *. rewrite Hu0 in *.
      apply list_elem_of_singleton in H0 as ->. done.
    + unfold cityOptions in *. rewrite Hc in *. destruct H0 as [H0 _]. by apply elem_of_nil in H0.
  - intros r Hr. destruct (userEvent_requests _ _ _ _ _ _ Hu Hr) as [(uf & -> & _ & Huf & Hne)|[? ->]];
      [|done].
    unfold ufOptions in Huf. rewrite Hu0 in Huf.
    apply list_elem_of_singleton in Huf as ->. by rewrite Hs in Hne.
Qed.

Lemma itemsFrozen_settle r o s s' :
  itemsFrozen s → settleState r o s = Some s' → isItems r = false → itemsFrozen s'.
Proof. destruct r, o; simpl; intros H [= <-] Hr; done. Qed.

Lemma ufsFrozen_settle r o s s' :
  ufsFrozen s → settleState r o s = Some s' → isUfsOrCities r = false → ufsFrozen s'.
Proof. destruct r, o; simpl; intros H [= <-] Hr; done. Qed.

End Instances.

(** ** Claims *)

Section Claims.
Context (String_of_number : Q → string) (svc : Services).

(** C25: a failed item fetch is never recovered.  When the mounted form
    has no items and no selection, and no item request of this mount is
    in flight (its only one was rejected, lines 62-66), then in every later
    state of the same mount the grid is still empty, nothing is selected,
    and the payload's [items] field is the empty string. *)
Theorem items_fetch_failure a a' s s' :
  rtc (sstep String_of_number svc) a a' →
  page a = PageCreatePoint s → itemsFrozen s →
  (∀ p, p ∈ pending a → p_mount p = mountId a → isItems (p_req p) = false) →
  mountId a' = mountId a → page a' = PageCreatePoint s' →
  items s' = [] ∧ selectedItems s' = [] ∧
  getString "items" (buildFormData String_of_number s') = Some "".
Proof.
  intros Hr Hp Hs HR Hm Hp'.
  destruct (frozen_forever String_of_number svc itemsFrozen isItems
              (itemsFrozen_user String_of_number) itemsFrozen_settle a a' s' Hr)
    as [[Hi Hsel] _]; [|done|done|].
  - right. split_and!; [done| |done]. intros s0 Hs0. rewrite Hp in Hs0. by injection Hs0 as <-.
  - split_and!; [done|done|]. by apply buildFormData_no_items.
Qed.

(** C26: a failed state-list fetch disables the cascade for the rest of
    the mount.  When the mounted form has no states, the placeholder state
    and city and no cities, and no state-list or city request of this
    mount is in flight (lines 68-73), then in every later state of the
    same mount the state select offers only the placeholder, no city
    request of the mount is in flight, and every post sends ['0'] as both
    [uf] and [city]. *)
Theorem ufs_fetch_failure a a' s s' :
  rtc (sstep String_of_number svc) a a' →
  page a = PageCreatePoint s → ufsFrozen s →
  (∀ p, p ∈ pending a → p_mount p = mountId a → isUfsOrCities (p_req p) = false) →
  mountId a' = mountId a → page a' = PageCreatePoint s' →
  ufOptions s' = ["0"] ∧ cities s' = [] ∧
  (∀ p u, p ∈ pending a' → p_mount p = mountId a → p_req p ≠ ReqCities u) ∧
  getString "uf" (buildFormData String_of_number s') = Some "0" ∧
  getString "city" (buildFormData String_of_number s') = Some "0".
Proof.
  intros Hr Hp Hs HR Hm Hp'.
  destruct (frozen_forever String_of_number svc ufsFrozen isUfsOrCities
              (ufsFrozen_user String_of_number) ufsFrozen_settle a a' s' Hr)
    as [(Hu & Huf & Hc & Hcity) Hnone]; [|done|done|].
  - right. split_and!; [done| |done]. intros s0 Hs0. rewrite Hp in Hs0. by injection Hs0 as <-.
  - unfold ufOptions, getString. rewrite buildFormData_unfold, Hu, Huf, Hcity.
    split_and!; [done|done| |done|done].
    intros p u Hin Hpm Hreq. specialize (Hnone p Hin Hpm). by rewrite Hreq in Hnone.
Qed.

End Claims.

(** ** Witnesses *)

(** Open the form; the item request (second in flight) is rejected; then
    the state list arrives, a state is chosen, a name typed, and the form
    submitted. *)
Definition exItemsFail : App :=
  default initialApp (runChecked exampleFormat exampleServices initialApp
                        [ClickLink homeLink; Settle 1 Rejected]).
Definition exItemsLater : App :=
  default exItemsFail (runChecked exampleFormat exampleServices exItemsFail
    [Settle 1 (UfsData (svcUfs exampleServices)); SelectUf "SP";
     InputChange "name" "Ecoponto"; Submit]).

(** Open the form; the state-list request (third in flight) is rejected;
    then the items arrive, one is selected, and the form is submitted. *)
Definition exUfsFail : App :=
  default initialApp (runChecked exampleFormat exampleServices initialApp
                        [ClickLink homeLink; Settle 2 Rejected]).
Definition exUfsLater : App :=
  default exUfsFail (runChecked exampleFormat exampleServices exUfsFail
    [Settle 1 (ItemsData (svcItems exampleServices)); SelectItem 2; Submit]).

Definition pageState (a : App) : State :=
  match page a with PageCreatePoint s => s | _ => initialState end.

Lemma exFail_pending :
  pending exItemsFail = [mkPending 1 ReqGeolocation; mkPending 1 ReqUfs] ∧
  pending exUfsFail = [mkPending 1 ReqGeolocation; mkPending 1 ReqItems].
Proof. split; vm_compute; reflexivity. Qed.

Lemma items_fetch_failure_witness :
  let s := pageState exItemsFail in let s' := pageState exItemsLater in
  rtc (sstep exampleFormat exampleServices) exItemsFail exItemsLater ∧
  page exItemsFail = PageCreatePoint s ∧ itemsFrozen s ∧
  (∀ p, p ∈ pending exItemsFail → p_mount p = mountId exItemsFail →
     isItems (p_req p) = false) ∧
  mountId exItemsLater = mountId exItemsFail ∧ page exItemsLater = PageCreatePoint s' ∧
  getString "items" (buildFormData exampleFormat s') = Some "".
Proof.
  intros s s'.
  assert (Hr : rtc (sstep exampleFormat exampleServices) exItemsFail exItemsLater).
  { apply (runChecked_sstep _ _ _ [Settle 1 (UfsData (svcUfs exampleServices)); SelectUf "SP";
       InputChange "name" "Ecoponto"; Submit]). vm_compute. reflexivity. }
  assert (Hp : page exItemsFail = PageCreatePoint s) by (vm_compute; reflexivity).
  assert (Hs : itemsFrozen s) by (split; vm_compute; reflexivity).
  assert (HR : ∀ p, p ∈ pending exItemsFail → p_mount p = mountId exItemsFail →
                 isItems (p_req p) = false).
  { rewrite (proj1 exFail_pending). intros p Hin _.
    repeat (apply elem_of_cons in Hin as [->|Hin]; [done|]). by apply elem_of_nil in Hin. }
  assert (Hm : mountId exItemsLater = mountId exItemsFail) by (vm_compute; reflexivity).
  assert (Hp' : page exItemsLater = PageCreatePoint s') by (vm_compute; reflexivity).
  split_and!; [exact Hr|exact Hp|exact Hs|exact HR|exact Hm|exact Hp'|].
  exact (proj2 (proj2 (items_fetch_failure _ _ _ _ _ _ Hr Hp Hs HR Hm Hp'))).
Defined.

Lemma ufs_fetch_failure_witness :
  let s := pageState exUfsFail in let s' := pageState exUfsLater in
  rtc (sstep exampleFormat exampleServices) exUfsFail exUfsLater ∧
  page exUfsFail = PageCreatePoint s ∧ ufsFrozen s ∧
  (∀ p, p ∈ pending exUfsFail → p_mount p = mountId exUfsFail →
     isUfsOrCities (p_req p) = false) ∧
  mountId exUfsLater = mountId exUfsFail ∧ page exUfsLater = PageCreatePoint s' ∧
  ufOptions s' = ["0"] ∧ getString "uf" (buildFormData exampleFormat s') = Some "0".
Proof.
  intros s s'.
  assert (Hr : rtc (sstep exampleFormat exampleServices) exUfsFail exUfsLater).
  { apply (runChecked_sstep _ _ _
       [Settle 1 (ItemsData (svcItems exampleServices)); SelectItem 2; Submit]).
    vm_compute. reflexivity. }
  assert (Hp : page exUfsFail = PageCreatePoint s) by (vm_compute; reflexivity).
  assert (Hs : ufsFrozen s) by (split_and!; vm_compute; reflexivity).
  assert (HR : ∀ p, p ∈ pending exUfsFail → p_mount p = mountId exUfsFail →
                 isUfsOrCities (p_req p) = false).
  { rewrite (proj2 exFail_pending). intros p Hin _.
    repeat (apply elem_of_cons in Hin as [->|Hin]; [done|]). by apply elem_of_nil in Hin. }
  assert (Hm : mountId exUfsLater = mountId exUfsFail) by (vm_compute; reflexivity).
  assert (Hp' : page exUfsLater = PageCreatePoint s') by (vm_compute; reflexivity).
  destruct (ufs_fetch_failure _ _ _ _ _ _ Hr Hp Hs HR Hm Hp') as (Ho & _ & _ & Huf & _).
  split_and!; [exact Hr|exact Hp|exact Hs|exact HR|exact Hm|exact Hp'|exact Ho|exact Huf].
Defined.

(** ** Remounting recovers *)

(** No reachable state shows the not-found page: every link and every
    [history.push] of the code targets a route of the table. *)
Lemma navigate_routed path a :
  route path ≠ None → page (navigate path a) ≠ PageNotFound.
Proof. unfold navigate. destruct (route path) as [[]|]; [|destruct (page a)|]; done. Qed.

Lemma step_not_notfound String_of_number a e a' :
  step String_of_number a e = Some a' → page a ≠ PageNotFound → page a' ≠ PageNotFound.
Proof.
  intros H Hnf. destruct (isSettle e) eqn:Hs.
  - destruct e as [to|uf|city|ev|id|name value|f| |i o]; try discriminate.
    unfold step in H. apply settle_inv in H as (p & _ & _ & Hcase).
    destruct Hcase as [[_ ->]|[[_ ->]|(_ & _ & [(s & s' & Hp & _ & _ & ->)|[_ ->]])]];
      try done; by apply navigate_routed.
  - destruct (page a) as [|s|] eqn:Hpg; [| |done].
    + destruct e; try discriminate; unfold step in H; rewrite Hpg in H; try discriminate.
      destruct (String.eqb_spec to homeLink) as [->|]; [|discriminate].
      injection H as <-. by apply navigate_routed.
    + destruct e as [to|uf|city|ev|id|name value|f| |i o]; try discriminate;
        [unfold step in H; rewrite Hpg in H;
         destruct (String.eqb_spec to backLink) as [->|]; [|discriminate];
         injection H as <-; by apply navigate_routed|..];
        (destruct (step_user_page _ _ _ _ s Hpg Hs ltac:(by intros ? [=]) H)
           as (s' & rs & Hu & Ha')); by rewrite Ha'.
Qed.

(** Every path in the history is one the route table knows, so no page
    is ever the empty one, not even after Back. *)
Definition routed (a : App) : Prop :=
  page a ≠ PageNotFound ∧ ∀ path, path ∈ location a → route path ≠ None.

Lemma routed_step String_of_number a e a' :
  step String_of_number a e = Some a' → routed a → routed a'.
Proof.
  intros H [Hnf Hl]. split; [by eapply step_not_notfound|].
  destruct (step_location _ _ _ _ H) as [->|(path & Hr & ->)]; [done|].
  intros q [->|Hq]%elem_of_cons; auto.
Qed.

Lemma routed_back a a' : goBack a = Some a' → routed a → routed a'.
Proof.
  intros (top & prev & rest & Hl & ->)%goBack_inv [_ Hr]. rewrite Hl in Hr. split.
  - apply navigate_routed, Hr. by right; left.
  - intros q Hq. apply Hr. by right.
Qed.

Lemma reachable_not_notfound String_of_number svc a :
  reachable String_of_number svc a → page a ≠ PageNotFound.
Proof.
  intros Hr. apply (rtc_invariant (sstep String_of_number svc) routed initialApp); [|
    intros b c []; eauto using routed_step, routed_back|done].
  split; [done|]. intros q ->%list_elem_of_singleton. done.
Qed.

Lemma step_settle_mounted String_of_number a s i r o s' :
  page a = PageCreatePoint s → pending a !! i = Some (mkPending (mountId a) r) →
  (∀ d, r ≠ ReqPost d) → settleState r o s = Some s' →
  step String_of_number a (Settle i o) =
  Some (withPage (PageCreatePoint s') (withPending (delete i (pending a)) a)).
Proof.
  intros Hp Hi Hr Hss. unfold step, settle. rewrite Hi. simpl.
  destruct r as [| | |u|d], o; simpl in Hss; try discriminate;
    try (by destruct (Hr d)); simpl; rewrite Hp, decide_True by done; by injection Hss as ->.
Qed.

Section Recovery.
Context (String_of_number : Q → string) (svc : Services).

(** From the landing page: open the form, and let the backend answer the
    item request and IBGE the state-list request. *)
Lemma load_from_home b :
  page b = PageHome →
  ∃ b' s', rtc (sstep String_of_number svc) b b' ∧ page b' = PageCreatePoint s' ∧
    items s' = svcItems svc ∧ ufs s' = map sigla (svcUfs svc).
Proof.
  intros Hh. set (m := S (mountId b)). set (n := length (pending b)).
  set (b1 := navigate homeLink b).
  assert (Hb1 : b1 = mkApp (homeLink :: location b) (PageCreatePoint initialState) m
                  (pending b ++ [mkPending m ReqGeolocation; mkPending m ReqItems;
                                 mkPending m ReqUfs]) (alerts b))
    by (unfold b1, navigate; by rewrite Hh).
  set (s2 := onItems (svcItems svc) initialState).
  set (b2 := withPage (PageCreatePoint s2) (withPending (delete (S n) (pending b1)) b1)).
  assert (Hd2 : pending b2 = pending b ++ [mkPending m ReqGeolocation; mkPending m ReqUfs]).
  { unfold b2. cbn [pending withPage withPending]. rewrite Hb1. cbn [pending].
    replace (S n) with (length (pending b ++ [mkPending m ReqGeolocation]))
      by (rewrite length_app; simpl; unfold n; lia).
    change (pending b ++ [mkPending m ReqGeolocation; mkPending m ReqItems; mkPending m ReqUfs])
      with (pending b ++ [mkPending m ReqGeolocation] ++ mkPending m ReqItems :: [mkPending m ReqUfs]).
    by rewrite app_assoc, delete_middle, <- app_assoc. }
  set (s3 := onUfs (svcUfs svc) s2).
  set (b3 := withPage (PageCreatePoint s3) (withPending (delete (S n) (pending b2)) b2)).
  assert (Hl1 : pending b1 !! S n = Some (mkPending m ReqItems)).
  { rewrite Hb1. cbn [pending]. rewrite lookup_app_r by (unfold n; lia).
    by replace (S n - length (pending b)) with 1 by (unfold n; lia). }
  assert (Hl2 : pending b2 !! S n = Some (mkPending m ReqUfs)).
  { rewrite Hd2. rewrite lookup_app_r by (unfold n; lia).
    by replace (S n - length (pending b)) with 1 by (unfold n; lia). }
  exists b3, s3. split_and!; [|done|done|done].
  apply (rtc_l _ _ b1).
  { apply (sstep_user _ _ _ (ClickLink homeLink)); [done|]. unfold step. by rewrite Hh. }
  apply (rtc_l _ _ b2).
  { eapply (sstep_settle _ _ _ (S n) _ (ItemsData (svcItems svc)));
      [exact Hl1|simpl; by apply bool_decide_eq_true_2|].
    apply (step_settle_mounted _ _ initialState _ ReqItems);
      [by rewrite Hb1|rewrite Hl1; by rewrite Hb1|done|done]. }
  apply (rtc_l _ _ b3); [|apply rtc_refl].
  eapply (sstep_settle _ _ _ (S n) _ (UfsData (svcUfs svc)));
    [exact Hl2|simpl; by apply bool_decide_eq_true_2|].
  apply (step_settle_mounted _ _ s2 _ ReqUfs); [done|rewrite Hl2; unfold b2; cbn [mountId withPage withPending]; by rewrite Hb1|done|done].
Qed.

(** C28: a remount always recovers.  Whatever happened before (failed
    fetches, stale callbacks, posts in flight), the user can reach the
    landing page and reopen the form, and once the backend and IBGE answer
    its two list requests, the form shows the backend's items and the
    state list.  Together with C25 and C26: a failed fetch is recovered
    only by remounting the form. *)
Theorem remount_recovers a :
  reachable String_of_number svc a →
  ∃ a' s', rtc (sstep String_of_number svc) a a' ∧ page a' = PageCreatePoint s' ∧
    items s' = svcItems svc ∧ ufs s' = map sigla (svcUfs svc).
Proof.
  intros Hr. pose proof (reachable_not_notfound _ _ _ Hr) as Hnf.
  destruct (page a) as [|s|] eqn:Hp; [by apply load_from_home|..|done].
  set (b := navigate backLink a).
  destruct (load_from_home b) as (a' & s' & Hb & Hpage); [by unfold b, navigate; rewrite Hp|].
  exists a', s'. split; [|done].
  apply (rtc_l _ _ b); [|done].
  apply (sstep_user _ _ _ (ClickLink backLink)); [done|]. unfold step. by rewrite Hp.
Qed.

End Recovery.

Lemma remount_recovers_witness :
  reachable exampleFormat exampleServices exItemsFail ∧
  ∃ a' s', rtc (sstep exampleFormat exampleServices) exItemsFail a' ∧
    page a' = PageCreatePoint s' ∧ items s' = svcItems exampleServices ∧
    ufs s' = ["SP"; "RJ"].
Proof.
  assert (Hr : reachable exampleFormat exampleServices exItemsFail).
  { apply (runChecked_reachable _ _ [ClickLink homeLink; Settle 1 Rejected]).
    vm_compute. reflexivity. }
  split; [exact Hr|]. exact (remount_recovers _ _ _ Hr).
Defined.

End FetchFailure.
