(* ===== verification/DoubleSubmit.v ===== *)
(** * Submitting twice

    [handleSubmit] (src/src/pages/CreatePoint/index.tsx, lines 118-147)
    awaits the post and only then navigates away; nothing disables the
    submit button (line 251) in between.  The spec lists concurrent
    submissions as a non-goal (section 2).  This file shows what the code
    does when the button is pressed twice before the backend answers: two
    identical posts are sent, and when both succeed the user sees the
    acknowledgement twice and [/] is pushed twice. *)

From S2P Require Import Prelude Selection JsString CreatePoint Submission EmailInput Screen.
Set Warnings "-clear-no-such-hyp".
Close Scope Q_scope.

Module DoubleSubmit.
Import CreatePoint Submission EmailInput Screen.

(** [history.push('/')]: the landing page, on top of the history. *)
Lemma navigate_home a :
  navigate "/" a = mkApp ("/" :: location a) PageHome (mountId a) (pending a) (alerts a).
Proof. reflexivity. Qed.

Section Steps.
Context (String_of_number : Q → string).

(** The request [Submit] issues from form state [s] of mount [m]. *)
Definition postOf (m : nat) (s : State) : Pending :=
  mkPending m (ReqPost (buildFormData String_of_number s)).

Lemma step_submit a s :
  page a = PageCreatePoint s → formValid s = true →
  step String_of_number a Submit =
  Some (withPending (pending a ++ [postOf (mountId a) s]) (withPage (PageCreatePoint s) a)).
Proof. intros Hp Hv. unfold step. rewrite Hp. simpl. by rewrite Hv. Qed.

Lemma step_post_done a i p d :
  pending a !! i = Some p → p_req p = ReqPost d →
  step String_of_number a (Settle i PostDone) =
  Some (navigate "/" (addAlert createdAlert (withPending (delete i (pending a)) a))).
Proof. intros Hi Hr. unfold step, settle. rewrite Hi. simpl. by rewrite Hr. Qed.

(** C27: two presses of the submit button before the backend answers send
    two identical posts; when both succeed, the acknowledgement is shown
    twice, [/] is pushed twice, and the landing page is shown. *)
Theorem double_submit a s :
  page a = PageCreatePoint s → formValid s = true →
  ∃ a1, run String_of_number a [Submit; Submit] = Some a1 ∧
    pending a1 = pending a ++ [postOf (mountId a) s; postOf (mountId a) s] ∧
  ∃ a2, run String_of_number a1
          [Settle (length (pending a)) PostDone; Settle (length (pending a)) PostDone] = Some a2 ∧
    alerts a2 = alerts a ++ [createdAlert; createdAlert] ∧
    location a2 = "/" :: "/" :: location a ∧ page a2 = PageHome ∧ pending a2 = pending a.
Proof.
  intros Hp Hv. set (q := postOf (mountId a) s).
  cbn [run]. rewrite (step_submit a s Hp Hv). cbn [mbind option_bind].
  rewrite (step_submit _ s) by done. cbn [mbind option_bind].
  eexists; split; [reflexivity|]. split; [cbn; by rewrite <- app_assoc|].
  cbn [run pending mountId withPending withPage]. rewrite <- app_assoc. cbn [app].
  rewrite (step_post_done _ (length (pending a)) q (buildFormData String_of_number s))
    by (cbn; by apply list_lookup_middle || done).
  cbn [mbind option_bind]. rewrite navigate_home.
  cbn [pending withPending withPage addAlert mountId alerts location page]. rewrite delete_middle.
  rewrite (step_post_done _ (length (pending a)) q (buildFormData String_of_number s))
    by (cbn; by apply list_lookup_middle || done).
  cbn [mbind option_bind]. rewrite navigate_home.
  cbn [pending withPending withPage addAlert mountId alerts location page].
  rewrite delete_middle, app_nil_r.
  eexists; split; [reflexivity|]. split_and!; [by rewrite <- app_assoc|done|done|done].
Qed.

End Steps.

(** The form just mounted: submitting twice. *)
Lemma double_submit_witness :
  page exMounted = PageCreatePoint initialState ∧ formValid initialState = true ∧
  ∃ a1, run exampleFormat exMounted [Submit; Submit] = Some a1 ∧
    pending a1 = pending exMounted ++ [postOf exampleFormat 1 initialState;
                                        postOf exampleFormat 1 initialState] ∧
  ∃ a2, run exampleFormat a1 [Settle 3 PostDone; Settle 3 PostDone] = Some a2 ∧
    alerts a2 = [createdAlert; createdAlert] ∧ page a2 = PageHome.
Proof.
  assert (Hp : page exMounted = PageCreatePoint initialState) by reflexivity.
  assert (Hv : formValid initialState = true) by reflexivity.
  split_and!; [exact Hp|exact Hv|].
  destruct (double_submit exampleFormat exMounted initialState Hp Hv)
    as (a1 & H1 & Hq & a2 & H2 & Ha & _ & Hh & _).
  exists a1. split_and!; [exact H1|exact Hq|]. exists a2. split_and!; [exact H2|exact Ha|exact Hh].
Defined.

End DoubleSubmit.
