(* ===== verification/Quiescence.v ===== *)
(** * Settlements terminate

    Every request the screen issues settles at most once: a settlement
    (src/src/pages/CreatePoint/index.tsx, the [.then] callbacks of lines
    55-83 and the continuation of line 142) removes its request from the
    ones in flight and issues none, because the only navigation it
    performs, [history.push('/')] (line 146), leads to the landing page,
    which mounts nothing.  So the number of requests in flight is a
    measure: the relation "one settlement" is well-founded, a run of
    settlements removes exactly one request per answer, and when the user
    stops acting the application becomes quiescent after at most as many
    answers as there are requests in flight. *)

From S2P Require Import Prelude Selection JsString CreatePoint Submission EmailInput Screen.
From Stdlib Require Import Wellfounded.Inclusion Wellfounded.Inverse_Image.
Set Warnings "-clear-no-such-hyp".
Close Scope Q_scope.

Module Quiescence.
Import CreatePoint Submission EmailInput Screen.

(** One settlement leads from [a] to [a']. *)
Definition settles (a' a : App) : Prop := ∃ i o, settle i o a = Some a'.

(** The events of a run made only of answers. *)
Definition answerEvents (l : list (nat * Outcome)) : list Event :=
  map (λ '(i, o), Settle i o) l.

(** ** A settlement removes exactly its request *)

Lemma navigate_root_pending a : pending (navigate "/" a) = pending a.
Proof. reflexivity. Qed.

Lemma settle_pending i o a a' :
  settle i o a = Some a' → length (pending a') = length (pending a) - 1 ∧
                           i < length (pending a).
Proof.
  intros H. apply settle_inv in H as (p & Hi & _ & Hcase).
  pose proof (lookup_lt_Some _ _ _ Hi) as Hlt.
  destruct Hcase as [[_ ->]|[[_ ->]|(_ & _ & [(s & s' & _ & _ & _ & ->)|[_ ->]])]];
    cbn [pending withPending withPage addAlert];
    rewrite ?navigate_root_pending; cbn [pending withPending addAlert];
    rewrite length_delete by done; split; lia.
Qed.

Lemma settles_lt a' a : settles a' a → length (pending a') < length (pending a).
Proof. intros (i & o & H). destruct (settle_pending _ _ _ _ H). lia. Qed.

(** C30: termination.  There is no infinite sequence of settlements: the
    relation "[a'] is obtained from [a] by one settlement" is
    well-founded, with the number of requests in flight as measure. *)
Theorem settles_wf : well_founded settles.
Proof.
  apply (wf_incl _ _ (λ a' a, length (pending a') < length (pending a))).
  - intros a' a. apply settles_lt.
  - apply wf_inverse_image, lt_wf.
Qed.

Section Runs.
Context (String_of_number : Q → string).

(** C31: bounds on runs of answers.  A run made only of answers that
    succeeds removes exactly one request per answer, so it has at most as
    many answers as there were requests in flight. *)
Theorem answers_remove_one a l a' :
  run String_of_number a (answerEvents l) = Some a' →
  length (pending a') + length l = length (pending a).
Proof.
  revert a. induction l as [|[i o] l IH]; intros a H; simpl in H; [by injection H as <-|].
  destruct (settle i o a) as [a1|] eqn:Hs; simpl in H; [|discriminate].
  destruct (settle_pending _ _ _ _ Hs) as [Hlen Hlt].
  specialize (IH a1 H). simpl. lia.
Qed.

(** C32: quiescence.  When the user stops acting, the network can always
    drain the requests in flight: rejecting the oldest request, as many
    times as there are requests, leaves none, and the page shown is
    unchanged (no callback runs on a rejection, spec section 7). *)
Theorem drain a :
  ∃ a', run String_of_number a (answerEvents (replicate (length (pending a)) (0, Rejected)))
          = Some a' ∧ pending a' = [] ∧ page a' = page a.
Proof.
  remember (length (pending a)) as n eqn:Hn. revert a Hn.
  induction n as [|n IH]; intros a Hn.
  - exists a. split_and!; [done| |done]. by destruct (pending a).
  - destruct (pending a) as [|p ps] eqn:Hp; [done|].
    assert (Hs : settle 0 Rejected a = Some (withPending ps a)).
    { unfold settle. rewrite Hp. simpl. by destruct (p_req p). }
    simpl. rewrite Hs. simpl.
    destruct (IH (withPending ps a)) as (a' & Hr & He & Hpg); [simpl in *; lia|].
    exists a'. split_and!; [done|done|by rewrite Hpg].
Qed.

End Runs.

(** The form just mounted: the item list arrives, then the geolocation
    request is rejected; one request is left. *)
Definition exAnswers : list (nat * Outcome) :=
  [(1, ItemsData (svcItems exampleServices)); (0, Rejected)].
Definition exAnswered : App :=
  default exMounted (run exampleFormat exMounted (answerEvents exAnswers)).

Lemma answers_remove_one_witness :
  run exampleFormat exMounted (answerEvents exAnswers) = Some exAnswered ∧
  length (pending exAnswered) + length exAnswers = length (pending exMounted) ∧
  length (pending exAnswered) = 1.
Proof.
  assert (H : run exampleFormat exMounted (answerEvents exAnswers) = Some exAnswered)
    by (vm_compute; reflexivity).
  split_and!; [exact H|exact (answers_remove_one _ _ _ _ H)|vm_compute; reflexivity].
Defined.

End Quiescence.
