(* ===== verification/Position.v ===== *)
(** * The submitted position is never the device's

    src/src/pages/CreatePoint/index.tsx keeps two positions: the
    geolocation callback (lines 55-60) writes [initialPosition], which only
    centres the map (line 196); the marker (line 203) and the payload
    (lines 124, 134-135) read [selectedPosition], which starts at [[0, 0]]
    (line 42) and which only [handleMapClick] (lines 95-100) writes.  So
    the position the spec (section 3) says is "initialized from device
    geolocation" is not: unless the user clicks the map, every post carries
    [String(0)] for both coordinates, whatever the device reported.  The
    theorem holds over every run of events without a map click, whatever
    the requests settle with and in whatever order. *)

From S2P Require Import Prelude Selection JsString CreatePoint Submission EmailInput Screen Validation.
Set Warnings "-clear-no-such-hyp".
Close Scope Q_scope.

Module Position.
Import CreatePoint Submission EmailInput Screen Validation.

(** [useState<[number, number]>([0, 0])] (lines 41-42). *)
Definition origin : Q * Q := (0%Q, 0%Q).

Definition isMapClick (e : Event) : bool :=
  match e with MapClick _ => true | _ => false end.

Section Origin.
Context (String_of_number : Q → string).

(** The coordinates a payload carries. *)
Definition postCoords (d : FormDataEntries) : option string * option string :=
  (getString "latitude" d, getString "longitude" d).

(** The marker of the mounted form is at the origin, and every post in
    flight carries the origin's coordinates. *)
Definition atOrigin (a : App) : Prop :=
  (∀ s, page a = PageCreatePoint s → selectedPosition s = origin) ∧
  (∀ p d, p ∈ pending a → p_req p = ReqPost d →
     postCoords d = (Some (String_of_number 0%Q), Some (String_of_number 0%Q))).

Lemma postCoords_buildFormData s :
  postCoords (buildFormData String_of_number s) =
  (Some (String_of_number (selectedPosition s).1), Some (String_of_number (selectedPosition s).2)).
Proof. unfold postCoords, getString. rewrite buildFormData_unfold. by destruct (selectedFile s). Qed.

(** Every callback leaves [selectedPosition] alone; the geolocation one
    writes [initialPosition] only. *)
Lemma settleState_selectedPosition r o s s' :
  settleState r o s = Some s' → selectedPosition s' = selectedPosition s.
Proof. intros H. by settleState_inv H. Qed.

(** Every handler but [handleMapClick] leaves [selectedPosition] alone. *)
Lemma userEvent_selectedPosition e s s' rs :
  isMapClick e = false → userEvent String_of_number e s = Some (s', rs) →
  selectedPosition s' = selectedPosition s.
Proof. intros Hm H. by userEvent_inv H; subst. Qed.

Lemma atOrigin_step a e a' :
  isMapClick e = false → step String_of_number a e = Some a' → atOrigin a → atOrigin a'.
Proof.
  intros Hm H [Hpg Hps]. split.
  - intros s Hs.
    destruct (step_page _ _ _ _ H) as
      [Hp|[Hp|[Hp|[Hp|[(s0 & s' & rs & H0 & Hu & Hp)|(i & o & p & s0 & s' & _ & _ & H0 & Hu & Hp)]]]]];
      rewrite Hs in Hp; try discriminate.
    + by apply Hpg.
    + by injection Hp as ->.
    + injection Hp as <-. rewrite (userEvent_selectedPosition _ _ _ _ Hm Hu). by apply Hpg.
    + injection Hp as <-. rewrite (settleState_selectedPosition _ _ _ _ Hu). by apply Hpg.
  - intros p d Hp Hd.
    destruct (step_pending _ _ _ _ _ H Hp) as [Hp'|[Hr|(s & s' & rs & H0 & Hu & Hr)]].
    + by apply (Hps p d).
    + rewrite Hd in Hr. by apply mountRequests_no_post in Hr.
    + userEvent_inv Hu; subst; revert Hr; repeat case_match; intros Hr;
        try by apply elem_of_nil in Hr.
      all: apply list_elem_of_singleton in Hr; rewrite Hr in Hd; try discriminate.
      injection Hd as <-. rewrite postCoords_buildFormData, (Hpg _ H0). done.
Qed.

Lemma atOrigin_run a es a' :
  run String_of_number a es = Some a' → (∀ e, e ∈ es → isMapClick e = false) →
  atOrigin a → atOrigin a'.
Proof.
  revert a. induction es as [|e es IH]; intros a H Hm Ha; simpl in H; [by injection H as <-|].
  destruct (step String_of_number a e) as [a1|] eqn:Hs; simpl in H; [|discriminate].
  apply (IH a1); [done|intros e' He'; apply Hm; by right|].
  apply (atOrigin_step a e); [apply Hm; by left|done|done].
Qed.

Lemma atOrigin_initial : atOrigin initialApp.
Proof. split; [by intros s [=]|intros p d Hp; by apply elem_of_nil in Hp]. Qed.

End Origin.

(** C18: unless the user clicks the map, the device's position never
    reaches the backend.  Over every run of events from the landing page
    without a map click (any answers, in any order, the geolocation one
    included), the marker of the mounted form stays at [[0, 0]] and every
    post sent carries [String(0)] as latitude and as longitude: the
    geolocation callback (line 58) writes [initialPosition], which
    [handleSubmit] (line 124) never reads. *)
Theorem geolocation_not_submitted String_of_number es a :
  run String_of_number initialApp es = Some a →
  (∀ e, e ∈ es → isMapClick e = false) →
  (∀ s, page a = PageCreatePoint s → selectedPosition s = origin) ∧
  (∀ p d, p ∈ pending a → p_req p = ReqPost d →
     getString "latitude" d = Some (String_of_number 0%Q) ∧
     getString "longitude" d = Some (String_of_number 0%Q)).
Proof.
  intros H Hm. destruct (atOrigin_run String_of_number _ _ _ H Hm (atOrigin_initial _))
    as [Hpg Hps].
  split; [done|]. intros p d Hp Hd. by injection (Hps p d Hp Hd) as -> ->.
Qed.

(** The form is opened, the device reports São Paulo, and the user
    submits: the map is centred on the device's position, but the post
    carries the origin. *)
Definition exGeoTrace : list Event :=
  [ClickLink homeLink; Settle 0 (GeoPosition (-2355 # 100)%Q (-4663 # 100)%Q); Submit].

Definition exGeoFormat (q : Q) : string :=
  if Qeq_bool q 0%Q then "0" else JsString.String_of_int (Qnum q) +:+ "/" +:+
                                  JsString.String_of_int (Zpos (Qden q)).

Definition exGeoApp : App := default initialApp (run exGeoFormat initialApp exGeoTrace).

Lemma geolocation_not_submitted_witness :
  run exGeoFormat initialApp exGeoTrace = Some exGeoApp ∧
  (∀ e, e ∈ exGeoTrace → isMapClick e = false) ∧
  page exGeoApp = PageCreatePoint
    (setInitialPosition ((-2355 # 100)%Q, (-4663 # 100)%Q) initialState) ∧
  (∃ p d, p ∈ pending exGeoApp ∧ p_req p = ReqPost d) ∧
  (∀ p d, p ∈ pending exGeoApp → p_req p = ReqPost d →
     getString "latitude" d = Some "0" ∧ getString "longitude" d = Some "0").
Proof.
  assert (Hr : run exGeoFormat initialApp exGeoTrace = Some exGeoApp) by (vm_compute; reflexivity).
  assert (Hm : ∀ e, e ∈ exGeoTrace → isMapClick e = false).
  { intros e He. repeat (apply elem_of_cons in He as [->|He]; [done|]). by apply elem_of_nil in He. }
  split_and!; [exact Hr|exact Hm|vm_compute; reflexivity| |].
  { vm_compute. eexists _, _. split; [right; right; left|reflexivity]. }
  exact (proj2 (geolocation_not_submitted exGeoFormat _ _ Hr Hm)).
Defined.

End Position.
