(* ===== verification/WellKeyed.v ===== *)
(** * Every page the application shows is well keyed

    React requires the keyed children of an element to have distinct keys
    (Render.v, C33).  The keyed lists of the form are filled only by the
    callbacks of src/src/pages/CreatePoint/index.tsx: [setItems] (line
    64), [setUfs] (line 71) and [setCities] (line 81), each with the list a
    service answered, and no handler touches them.  So when the services
    answer lists without duplicates, every reachable page is well keyed,
    over every interleaving of user actions and answers; the landing page
    has no keyed element at all. *)

From S2P Require Import Prelude Selection JsString CreatePoint View Submission EmailInput Screen Render.
Set Warnings "-clear-no-such-hyp".
Close Scope Q_scope.

Module WellKeyed.
Import CreatePoint View Submission EmailInput Screen Render.
#[local] Existing Instance JsString.String_of_int_inj.

(** The lists the services answer have no duplicates: item ids (the
    backend's keys), state initials and, for every state, city names. *)
Definition servicesDistinct (svc : Services) : Prop :=
  NoDup (map id (svcItems svc)) ∧ NoDup (map sigla (svcUfs svc)) ∧
  ∀ uf, NoDup (map nome (svcCities svc uf)).

(** The three keyed lists of the form. *)
Definition listsDistinct (s : State) : Prop :=
  NoDup (ufs s) ∧ NoDup (cities s) ∧ NoDup (itemIds s).

Lemma keysDistinct_of_lists s :
  listsDistinct s → keysDistinct (renderCreatePoint s) = true.
Proof.
  intros (Hu & Hc & Hi). rewrite keysDistinct_renderCreatePoint.
  rewrite !andb_true_iff, !bool_decide_eq_true. split_and!; eauto with ecoleta.
Qed.

Section Reachable.
Context (String_of_number : Q → string) (svc : Services).
Hypothesis Hsvc : servicesDistinct svc.

(** A callback run on an answer of the services keeps the lists
    duplicate-free: each replaces one list by the service's. *)
Lemma listsDistinct_settle r o s s' :
  answers svc r o = true → settleState r o s = Some s' → listsDistinct s → listsDistinct s'.
Proof.
  destruct Hsvc as (Hi & Hu & Hc).
  intros Ha Hs (Hu0 & Hc0 & Hi0).
  destruct r, o; simpl in Ha, Hs; try discriminate; injection Hs as <-;
    rewrite ?bool_decide_eq_true in Ha; subst; unfold listsDistinct, itemIds in *; cbn; split_and!; auto.
Qed.

Lemma reachable_listsDistinct a s :
  reachable String_of_number svc a → page a = PageCreatePoint s → listsDistinct s.
Proof.
  intros Hr. apply (page_invariant String_of_number svc listsDistinct); [| | |done].
  - split_and!; constructor.
  - intros e s0 s' rs Hu H. by userEvent_inv Hu; subst.
  - apply listsDistinct_settle.
Qed.

End Reachable.

(** C29: when the backend and the IBGE service answer lists without
    duplicates, every page the running application shows satisfies
    React's key rule, over every interleaving of user actions and answers:
    the landing page has no keyed element, and the form's options and
    tiles are keyed by lists that only the service callbacks fill. *)
Theorem reachable_well_keyed String_of_number svc a :
  servicesDistinct svc → reachable String_of_number svc a →
  keysDistinct (viewOf (page a)) = true.
Proof.
  intros Hsvc Hr. destruct (page a) as [|s|] eqn:Hp; cbn [viewOf].
  - vm_compute. reflexivity.
  - apply keysDistinct_of_lists. by apply (reachable_listsDistinct String_of_number svc Hsvc a).
  - reflexivity.
Qed.

Lemma exampleServices_distinct : servicesDistinct exampleServices.
Proof.
  split_and!; [refine (bool_decide_eq_true_1 _ _); vm_compute; reflexivity..|].
  intros uf. cbn [svcCities exampleServices].
  destruct (String.eqb uf "SP"); [|destruct (String.eqb uf "RJ")];
    refine (bool_decide_eq_true_1 _ _); vm_compute; reflexivity.
Qed.

Lemma reachable_well_keyed_witness :
  servicesDistinct exampleServices ∧ reachable exampleFormat exampleServices exApp ∧
  keysDistinct (viewOf (page exApp)) = true.
Proof.
  split_and!; [exact exampleServices_distinct|exact exApp_reachable|].
  exact (reachable_well_keyed exampleFormat exampleServices exApp
           exampleServices_distinct exApp_reachable).
Defined.

(** When the backend lists two items under one id, the key rule breaks as
    soon as the list arrives. *)
Definition dupServices : Services :=
  mkServices [mkItem 2 "Papeis" "a.svg"; mkItem 2 "Papelao" "b.svg"] [] (λ _, []).

Lemma duplicate_ids_break_keys :
  ∃ a, reachable exampleFormat dupServices a ∧ keysDistinct (viewOf (page a)) = false.
Proof.
  eexists. split.
  - apply (runChecked_reachable _ _ [ClickLink homeLink; Settle 1 (ItemsData (svcItems dupServices))]).
    vm_compute. reflexivity.
  - vm_compute. reflexivity.
Qed.

End WellKeyed.
