(* ===== verification/History.v ===== *)
(** * The browser's history and the form's lifecycle

    The code pushes onto the history ([<Link>], line 154 and Home line 20;
    [history.push('/')], line 146); the browser's Back button pops it and
    the router renders the route below ([Screen.goBack]).  The form is
    shown only on its route ([onFormRoute]), and entering the route
    mounts a fresh [CreatePoint] whose [useState] hooks start from their
    initial values (lines 33-51).  So the spec's lifecycle (section 3:
    "all state is created at screen mount ... discarded on navigation or
    successful submission (no local persistence)") holds even across
    Back: after a successful post redirects to [/], Back reopens an empty
    form under a new mount, and the answers still in flight for the old
    mount can no longer reach it. *)

From S2P Require Import Prelude Selection JsString CreatePoint Submission EmailInput Screen.
Set Warnings "-clear-no-such-hyp".
Close Scope Q_scope.

Module History.
Import CreatePoint Submission EmailInput Screen.

(** The form is mounted only while its route is the current entry. *)
Definition onFormRoute (a : App) : Prop :=
  ∀ s, page a = PageCreatePoint s → head (location a) = Some homeLink.

Lemma route_createPoint path : route path = Some CreatePointC → path = homeLink.
Proof.
  unfold route. destruct (String.eqb_spec path "/"); [done|].
  by destruct (String.eqb_spec path "/create-point") as [->|].
Qed.

Lemma navigate_createPoint path a s :
  page (navigate path a) = PageCreatePoint s → path = homeLink.
Proof.
  intros H. apply route_createPoint. revert H. unfold navigate.
  destruct (route path) as [[]|]; [destruct (page a)|destruct (page a)|]; simpl; congruence.
Qed.

Lemma onFormRoute_navigate path a : onFormRoute (navigate path a).
Proof.
  intros s Hs. rewrite navigate_location. simpl. by rewrite (navigate_createPoint _ _ _ Hs).
Qed.

(** Back shows the form only when the entry below the top is its route. *)
Lemma onFormRoute_back a a' : goBack a = Some a' → onFormRoute a'.
Proof.
  intros (top & prev & rest & _ & ->)%goBack_inv s Hs. simpl in *.
  by rewrite (navigate_createPoint _ _ _ Hs).
Qed.

Section Steps.
Context (String_of_number : Q → string).

Lemma onFormRoute_step a e a' :
  step String_of_number a e = Some a' → onFormRoute a → onFormRoute a'.
Proof.
  intros H Ha. destruct (isSettle e) eqn:Hs.
  - destruct e as [to|uf|city|ev|id|name value|f| |i o]; try discriminate.
    unfold step in H. apply settle_inv in H as (p & _ & _ & Hcase).
    destruct Hcase as [[_ ->]|[[_ ->]|(_ & _ & [(s & s' & Hp & _ & _ & ->)|[_ ->]])]];
      [done|apply onFormRoute_navigate|intros s0 _; by apply (Ha s)|done].
  - destruct (page a) as [|s|] eqn:Hpg.
    + destruct e; try discriminate; unfold step in H; rewrite Hpg in H; try discriminate.
      case_match; [|discriminate]. injection H as <-. apply onFormRoute_navigate.
    + destruct e as [to|uf|city|ev|id|name value|f| |i o]; try discriminate;
        [unfold step in H; rewrite Hpg in H; case_match; [|discriminate];
         injection H as <-; apply onFormRoute_navigate|..];
        (destruct (step_user_page _ _ _ _ s Hpg Hs ltac:(by intros ? [=]) H)
           as (s' & rs & Hu & ->)); intros s0 _; by apply (Ha s).
    + destruct e; try discriminate; unfold step in H; rewrite Hpg in H; discriminate.
Qed.

Lemma reachable_onFormRoute svc a :
  reachable String_of_number svc a → onFormRoute a.
Proof.
  apply (rtc_invariant (sstep String_of_number svc) onFormRoute).
  - by intros s [=].
  - intros b c []; eauto using onFormRoute_step, onFormRoute_back.
Qed.

End Steps.

(** Pushing [/] shows the landing page and unmounts the form. *)
Lemma navigate_root a : page (navigate "/" a) = PageHome ∧ mountId (navigate "/" a) = mountId a.
Proof. unfold navigate. simpl. by destruct (page a). Qed.

(** Entering the form's route from the landing page mounts a fresh form. *)
Lemma navigate_form_from_home a :
  page a = PageHome →
  page (navigate homeLink a) = PageCreatePoint initialState ∧
  mountId (navigate homeLink a) = S (mountId a).
Proof. intros Hp. unfold navigate. simpl. by rewrite Hp. Qed.

(** C19: no local persistence, even across Back.  When a post of the
    mounted form succeeds, the acknowledgement is shown and the landing
    page replaces the form (lines 144-146); pressing Back then reopens
    the form empty, as a new mount: nothing the user entered survives,
    and the answers still in flight for the old mount no longer reach
    the page (their mount is over). *)
Theorem back_after_submit String_of_number svc a s i m d a1 :
  reachable String_of_number svc a → page a = PageCreatePoint s →
  pending a !! i = Some (mkPending m (ReqPost d)) →
  step String_of_number a (Settle i PostDone) = Some a1 →
  alerts a1 = alerts a ++ [createdAlert] ∧ page a1 = PageHome ∧
  ∃ a2, goBack a1 = Some a2 ∧ page a2 = PageCreatePoint initialState ∧
    mountId a2 = S (mountId a).
Proof.
  intros Hr Hp Hi Hst.
  pose proof (reachable_onFormRoute String_of_number svc a Hr s Hp) as Hl.
  destruct (location a) as [|top rest] eqn:Hloc; [discriminate|]. injection Hl as ->.
  unfold step, settle in Hst. rewrite Hi in Hst. simpl in Hst. injection Hst as <-.
  set (a0 := addAlert createdAlert (withPending (delete i (pending a)) a)).
  destruct (navigate_root a0) as [Hh Hm].
  destruct (navigate_form_from_home _ Hh) as [Hf Hm'].
  unfold goBack. rewrite navigate_location. cbn [location a0 addAlert withPending].
  rewrite Hloc. split_and!; [done|done|]. eexists. split; [reflexivity|]. cbn [withLocation page mountId].
  by rewrite Hf, Hm', Hm.
Qed.

(** The example form: opened, items loaded, one item selected, a name
    typed; then submitted, the post succeeds, and the user presses Back. *)
Definition exSubmitted : App :=
  default initialApp
    (runChecked exampleFormat exampleServices initialApp (exTrace ++ [Submit])).
Definition exSubmittedState : State :=
  match page exSubmitted with PageCreatePoint s => s | _ => initialState end.
Definition exPost : FormDataEntries :=
  match pending exSubmitted !! 2 with Some (mkPending _ (ReqPost d)) => d | _ => [] end.
Definition exAcked : App :=
  default exSubmitted (step exampleFormat exSubmitted (Settle 2 PostDone)).

Lemma exSubmitted_reachable : reachable exampleFormat exampleServices exSubmitted.
Proof. apply (runChecked_reachable _ _ (exTrace ++ [Submit])). vm_compute. reflexivity. Qed.

Lemma back_after_submit_witness :
  reachable exampleFormat exampleServices exSubmitted ∧
  page exSubmitted = PageCreatePoint exSubmittedState ∧
  exSubmittedState ≠ initialState ∧
  pending exSubmitted !! 2 = Some (mkPending 1 (ReqPost exPost)) ∧
  step exampleFormat exSubmitted (Settle 2 PostDone) = Some exAcked ∧
  (alerts exAcked = alerts exSubmitted ++ [createdAlert] ∧ page exAcked = PageHome ∧
   ∃ a2, goBack exAcked = Some a2 ∧ page a2 = PageCreatePoint initialState ∧
     mountId a2 = S (mountId exSubmitted)).
Proof.
  assert (Hp : page exSubmitted = PageCreatePoint exSubmittedState) by (vm_compute; reflexivity).
  assert (Hi : pending exSubmitted !! 2 = Some (mkPending 1 (ReqPost exPost)))
    by (vm_compute; reflexivity).
  assert (Hs : step exampleFormat exSubmitted (Settle 2 PostDone) = Some exAcked)
    by (vm_compute; reflexivity).
  refine (conj exSubmitted_reachable (conj Hp (conj _ (conj Hi (conj Hs _)))));
    [vm_compute; discriminate|].
  exact (back_after_submit exampleFormat exampleServices _ _ _ _ _ _
           exSubmitted_reachable Hp Hi Hs).
Defined.

End History.
